(** * check_prepbufr: the validation and aggregation engine

    A shallow embedding of [scripts/check_prepbufr.py]: the per-subset
    checks, the approval rule, the counters kept per message type, the
    pressure-unit resolution and the command-line entry point.

    Numbers.  A value read from a subset is a Python float.  The checks
    branch on whether a value is finite, so NaN and the two infinities
    are explicit constructors; a finite value is an exact rational.  The
    only arithmetic the engine performs is [a * pscale] and the average
    of the two middle samples in [statistics.median]; both are taken
    exactly (binary64 rounding is left out).

    Arrays.  The decoder is outside the engine: a subset is the finite
    map from mnemonics to the arrays [read_subset] returns for them, an
    array being its shape and the floats it stores.  The mask of a numpy
    masked array is not represented.  *)

From Stdlib Require Import QArith Lqa Ascii String Sorted.
From stdpp Require Import gmap strings list fin_maps.

Local Open Scope string_scope.
Local Open Scope list_scope.

(* ------------------------------------------------------------------ *)
(** ** Floats *)

Inductive pyfloat : Type :=
  | Fin (q : Q)
  | PInf
  | NInf
  | NaN.

(** [np.isfinite] *)
Definition isfinite (v : pyfloat) : bool :=
  match v with Fin _ => true | _ => false end.

(** [a <= b] on floats: false as soon as one side is NaN. *)
Definition fle (a b : pyfloat) : bool :=
  match a, b with
  | NaN, _ | _, NaN => false
  | NInf, _ => true
  | _, PInf => true
  | Fin x, Fin y => Qle_bool x y
  | _, _ => false
  end.

(** [a > 0] *)
Definition fpos (a : pyfloat) : bool :=
  match a with
  | Fin x => negb (Qle_bool x 0%Q)
  | PInf => true
  | _ => false
  end.

(** unary minus *)
Definition fneg (a : pyfloat) : pyfloat :=
  match a with
  | Fin x => Fin (- x)
  | PInf => NInf
  | NInf => PInf
  | NaN => NaN
  end.

(** [a * s] for a scale factor [s]; every factor the engine uses is a
    positive finite number (1, 10 or 1/100). *)
Definition fscale (a : pyfloat) (s : Q) : pyfloat :=
  match a with
  | Fin x => Fin (x * s)
  | other => other
  end.

(* ------------------------------------------------------------------ *)
(** ** Arrays returned by the decoder *)

(** A numpy array: its shape and its elements in row-major order.  The
    decoder hands out arrays whose element count is the product of the
    shape ([wf_ndarray]); [size] is that element count. *)
Record ndarray : Type := mk_ndarray {
  shape : list nat;
  flat : list pyfloat
}.

Definition size (a : ndarray) : nat := length (flat a).
Definition ndim (a : ndarray) : nat := length (shape a).

Definition wf_ndarray (a : ndarray) : bool :=
  Nat.eqb (foldr Nat.mul 1%nat (shape a)) (size a).

(** The array with no element, what [read_subset] gives for a mnemonic
    the subset does not carry. *)
Definition empty_array : ndarray := mk_ndarray [0%nat; 0%nat] [].

(** A one-row array holding the levels of one mnemonic. *)
Definition row_array (l : list pyfloat) : ndarray :=
  mk_ndarray [1%nat; length l] l.

(** A [rows] x [cols] matrix given by its rows. *)
Definition matrix (rows cols : nat) (l : list pyfloat) : ndarray :=
  mk_ndarray [rows; cols] l.

(** [a.shape[i]] of an array, 0 when the axis does not exist (the source
    reads it only under [a.ndim == 2]). *)
Definition shape_at (a : ndarray) (i : nat) : nat := nth i (shape a) 0%nat.

(** [a[i, -1]] of a 2-D array: row [i], last column. *)
Definition at_last_col (a : ndarray) (i : nat) : pyfloat :=
  nth (i * shape_at a 1 + (shape_at a 1 - 1)) (flat a) NaN.

(** [a.flat[0]] *)
Definition flat0 (a : ndarray) : pyfloat := hd NaN (flat a).

(* ------------------------------------------------------------------ *)
(** ** Subsets, messages, files *)

(** A subset (one report) answers [read_subset mnemonic]; a mnemonic it
    does not carry yields the empty array. *)
Record subset : Type := mk_subset { fields : gmap string ndarray }.

Definition read_subset (r : subset) (mnem : string) : ndarray :=
  default empty_array (fields r !! mnem).

Record message : Type := mk_message {
  msg_type : string;
  subsets : list subset
}.

(** The decoded file: its messages in file order. *)
Definition bufr_file : Type := list message.

(* ------------------------------------------------------------------ *)
(** ** Config *)

Definition REQ_HDR : list string :=
  ["XOB"; "YOB"; "DHR"; "TYP"; "ELV"; "SAID"; "T29"].

Definition REQ_SEQS : list string := ["TEVN"; "WEVN"; "PEVN"; "ZEVN"; "QEVN"].

Definition DEFAULT_TWIND_H : pyfloat := Fin 3%Q.

(** [RANGE]: plausible closed interval of each variable.  A name outside
    the table raises [KeyError] in the source; the engine only looks up
    names of the table, and [None] stands for the missing key.  Every
    bound is the rational value of the float literal of the source; the
    only literal that is not a whole number, [0.05], is the double
    3602879701896397 / 2^56. *)
Definition RANGE (name : string) : option (Q * Q) :=
  if decide (name = "XOB") then Some (-180, 180)%Q
  else if decide (name = "YOB") then Some (-90, 90)%Q
  else if decide (name = "TOB") then Some (180, 340)%Q
  else if decide (name = "POB") then Some (1, 1100)%Q
  else if decide (name = "ZOB") then Some (-500, 40000)%Q
  else if decide (name = "UOB") then Some (-120, 120)%Q
  else if decide (name = "VOB") then Some (-120, 120)%Q
  else if decide (name = "QOB")
       then Some (0, 3602879701896397 # 72057594037927936)%Q
  else if decide (name = "PRSS") then Some (500, 1085)%Q
  else if decide (name = "PWO") then Some (0, 100)%Q
  else if decide (name = "DHR") then Some (-6, 6)%Q
  else if decide (name = "HOVI") then Some (0, 100000)%Q
  else if decide (name = "TDO") then Some (173, 333)%Q
  else if decide (name = "MSST") then Some (271, 313)%Q
  else None.

Definition PRESSURE_UNITS : list string := ["hpa"; "cb"; "pa"; "auto"].
Definition DEFAULT_PRESSURE_UNIT : string := "hpa".
Definition PRESSURE_AUTODETECT_SAMPLES : nat := 500.

(** hPa, cb, Pa windows *)
Definition PRESSURE_AUTODETECT_THRESH : (Q * Q) * (Q * Q) * (Q * Q) :=
  ((50, 1100), (5, 110), (5000, 110000))%Q.

Inductive fail_type : Type :=
  | FAIL_HDR
  | FAIL_EVENTS
  | FAIL_TIME
  | FAIL_UNITS
  | FAIL_OBERRS
  | FAIL_ADPSFC.

Global Instance fail_type_eq_dec : EqDecision fail_type.
Proof. solve_decision. Defined.

Record FailRecord : Type := mk_FailRecord {
  fr_msg_type : string;
  fr_subset_idx : nat;
  fr_fail_type : fail_type;
  fr_var : option string
}.

(* ------------------------------------------------------------------ *)
(** ** Low-level helpers *)

(** [_read1]: the array, or [None] when it has no element. *)
Definition _read1 (r : subset) (mnem : string) : option ndarray :=
  let arr := read_subset r mnem in
  if Nat.eqb (size arr) 0 then None else Some arr.

(** [_read_scalar]: first element as a float. *)
Definition _read_scalar (r : subset) (mnem : string) : option pyfloat :=
  match _read1 r mnem with
  | None => None
  | Some a => Some (flat0 a)
  end.

(** [_has_header_fast]: the loop returns [False] at the first mnemonic
    whose array is empty. *)
Fixpoint _has_header_fast (r : subset) (required : list string) : bool :=
  match required with
  | [] => true
  | m :: rest =>
      if Nat.eqb (size (read_subset r m)) 0 then false
      else _has_header_fast r rest
  end.

(** [_last_event]: (matrix, number of events), [(None, 0)] unless 2-D. *)
Definition _last_event (seq : option ndarray) : option ndarray * nat :=
  match seq with
  | None => (None, 0%nat)
  | Some a =>
      if Nat.eqb (ndim a) 2 then (Some a, shape_at a 1) else (None, 0%nat)
  end.

(** [_in_range]: finite and inside the closed interval. *)
Definition _in_range (val : option pyfloat) (lo hi : Q) : bool :=
  match val with
  | None => false
  | Some v =>
      if negb (isfinite v) then false
      else fle (Fin lo) v && fle v (Fin hi)
  end.

(* ------------------------------------------------------------------ *)
(** ** Pressure unit *)

(** [str.lower] on the ASCII letters. *)
Definition lower_ascii (c : ascii) : ascii :=
  let n := nat_of_ascii c in
  if (65 <=? n)%nat && (n <=? 90)%nat then ascii_of_nat (n + 32) else c.

Fixpoint lower (s : string) : string :=
  match s with
  | EmptyString => EmptyString
  | String c rest => String (lower_ascii c) (lower rest)
  end.

(** [_pressure_scale]: factor that converts a stored value to hPa. *)
Definition _pressure_scale (unit : string) : Q :=
  let unit := lower unit in
  if decide (unit = "hpa") then 1%Q
  else if decide (unit = "cb") then 10%Q
  else if decide (unit = "pa") then (1 / 100)%Q
  else 1%Q.

(** [float(arr[0][0])] under [try]: [None] when the expression raises.
    A 2-D array gives its first element; an array of fewer dimensions
    cannot be indexed twice; with more dimensions [arr[0][0]] is itself
    an array, which converts only when it has a single element. *)
Definition first_of_first (arr : ndarray) : option pyfloat :=
  if (ndim arr <? 2)%nat then None
  else if Nat.eqb (foldr Nat.mul 1%nat (drop 2 (shape arr))) 1 then Some (flat0 arr)
  else None.

(** [np.isfinite(v) and v > 0], returning the rational kept as a sample. *)
Definition finite_positive (v : pyfloat) : option Q :=
  if isfinite v && fpos v then
    match v with Fin q => Some q | _ => None end
  else None.

(** The [for nm in ("POB", "PRSS")] loop of the sampling pass, with its
    [break] once the cap is reached. *)
Fixpoint sample_names (max_samples : nat) (r : subset) (names : list string)
    (vals : list Q) (cnt : nat) : list Q * nat :=
  match names with
  | [] => (vals, cnt)
  | nm :: rest =>
      let arr := read_subset r nm in
      if Nat.eqb (size arr) 0 then sample_names max_samples r rest vals cnt
      else
        match first_of_first arr with
        | None => sample_names max_samples r rest vals cnt
        | Some v =>
            match finite_positive v with
            | None => sample_names max_samples r rest vals cnt
            | Some q =>
                let vals' := vals ++ [q] in
                let cnt' := S cnt in
                if (max_samples <=? cnt')%nat then (vals', cnt')
                else sample_names max_samples r rest vals' cnt'
            end
        end
  end.

(** [while b.load_subset() == 0 and cnt < max_samples] *)
Fixpoint sample_subsets (max_samples : nat) (subs : list subset)
    (vals : list Q) (cnt : nat) : list Q * nat :=
  match subs with
  | [] => (vals, cnt)
  | r :: rest =>
      if (cnt <? max_samples)%nat then
        let '(vals', cnt') := sample_names max_samples r ["POB"; "PRSS"] vals cnt in
        sample_subsets max_samples rest vals' cnt'
      else (vals, cnt)
  end.

(** [while b.advance() == 0 and cnt < max_samples] *)
Fixpoint sample_messages (max_samples : nat) (f : bufr_file)
    (vals : list Q) (cnt : nat) : list Q * nat :=
  match f with
  | [] => (vals, cnt)
  | m :: rest =>
      if (cnt <? max_samples)%nat then
        let '(vals', cnt') := sample_subsets max_samples (subsets m) vals cnt in
        sample_messages max_samples rest vals' cnt'
      else (vals, cnt)
  end.

Definition collect_samples (max_samples : nat) (f : bufr_file) : list Q :=
  fst (sample_messages max_samples f [] 0%nat).

(** [sorted] on rationals, by insertion. *)
Fixpoint insert_sorted (x : Q) (l : list Q) : list Q :=
  match l with
  | [] => [x]
  | y :: rest => if Qle_bool x y then x :: l else y :: insert_sorted x rest
  end.

Definition sorted (l : list Q) : list Q := foldr insert_sorted [] l.

(** [statistics.median]: middle element, or mean of the two middle ones;
    [None] is the [StatisticsError] on no data. *)
Definition median (data : list Q) : option Q :=
  let data := sorted data in
  let n := length data in
  if Nat.eqb n 0 then None
  else if Nat.eqb (n mod 2) 1 then Some (nth (n / 2) data 0%Q)
  else
    let i := (n / 2)%nat in
    Some ((nth (i - 1) data 0%Q + nth i data 0%Q) / 2)%Q.

(** [lo <= med <= hi] *)
Definition in_window (w : Q * Q) (med : Q) : bool :=
  Qle_bool (fst w) med && Qle_bool med (snd w).

(** The window comparisons that close [_autodetect_pressure_unit]. *)
Definition unit_of_median (med : Q) : string :=
  let '(hpa_w, cb_w, pa_w) := PRESSURE_AUTODETECT_THRESH in
  if in_window hpa_w med then "hpa"
  else if in_window cb_w med then "cb"
  else if in_window pa_w med then "pa"
  else "hpa".

(** [_autodetect_pressure_unit] on the decoded file. *)
Definition _autodetect_pressure_unit (f : bufr_file) (max_samples : nat) : string :=
  let vals := collect_samples max_samples f in
  match vals with
  | [] => "hpa"
  | _ =>
      match median vals with
      | Some med => unit_of_median med
      | None => "hpa"
      end
  end.

(* ------------------------------------------------------------------ *)
(** ** Aggregation state *)

(** What [_fmt_where] renders into one line: message type, subset
    number, the three scalars ([None] prints as nan) and the suffix. *)
Record WhereLine : Type := mk_WhereLine {
  w_mtyp : string;
  w_idx : nat;
  w_xob : option pyfloat;
  w_yob : option pyfloat;
  w_dhr : option pyfloat;
  w_extra : string
}.

Definition _fmt_where (mtyp : string) (idx : nat)
    (xob yob dhr : option pyfloat) (extra : string) : WhereLine :=
  mk_WhereLine mtyp idx xob yob dhr extra.

(** The local variables of [check_file] that the main loop updates. *)
Record State : Type := mk_State {
  nmsg : nat;
  nsub : nat;
  bad_hdr : nat;
  no_events : nat;
  time_oow : nat;
  bad_units : nat;
  miss_oberrs : nat;
  miss_adpsfc : nat;
  types : gmap string nat;
  per_type_total : gmap string nat;
  per_type_approved : gmap string nat;
  per_type_bad_hdr : gmap string nat;
  per_type_no_events : gmap string nat;
  per_type_time_oow : gmap string nat;
  per_type_bad_units : gmap string nat;
  per_type_miss_oberrs : gmap string nat;
  per_type_miss_adpsfc : gmap string nat;
  where_hdr : list WhereLine;
  where_events : list WhereLine;
  where_time : list WhereLine;
  where_units : list WhereLine;
  fail_records : list FailRecord;
  units_by_var_and_type : gmap (string * string) nat
}.

Definition init_state : State :=
  mk_State 0 0 0 0 0 0 0 0 ∅ ∅ ∅ ∅ ∅ ∅ ∅ ∅ ∅ [] [] [] [] [] ∅.

(** The options of [check_file] that reach the checks (progress display
    and CSV paths do not). *)
Record Config : Type := mk_Config {
  twind_h : pyfloat;
  check_oberrs : bool;
  pressure_unit : string;
  where_max : Z;
  kind : option string
}.

(** [inc]: [d[k] = d.get(k, 0) + by] with [by = 1]. *)
Definition inc {K} `{Countable K} (d : gmap K nat) (k : K) : gmap K nat :=
  <[k := (default 0%nat (d !! k) + 1)%nat]> d.

(** [inc] under the [if] that guards it. *)
Definition inc_if {K} `{Countable K} (b : bool) (d : gmap K nat) (k : K)
    : gmap K nat :=
  if b then inc d k else d.

Definition bump (b : bool) (n : nat) : nat := if b then S n else n.

(** [if mtyp not in d: d[mtyp] = 0] *)
Definition ensure_key (d : gmap string nat) (k : string) : gmap string nat :=
  match d !! k with
  | Some _ => d
  | None => <[k := 0%nat]> d
  end.

(** [where_max and len(w) < where_max] *)
Definition where_room (wmax : Z) (w : list WhereLine) : bool :=
  negb (Z.eqb wmax 0) && (Z.of_nat (length w) <? wmax)%Z.

Definition add_where (b : bool) (wmax : Z) (w : list WhereLine)
    (line : WhereLine) : list WhereLine :=
  if b && where_room wmax w then w ++ [line] else w.

(* ------------------------------------------------------------------ *)
(** ** The checks on one subset *)

(** Time window: [dhr is None or not (-twind_h <= dhr <= twind_h)]. *)
Definition time_out_of_window (tw : pyfloat) (dhr : option pyfloat) : bool :=
  match dhr with
  | None => true
  | Some d => negb (fle (fneg tw) d && fle d tw)
  end.

(** First loop of the event check, over [("TEVN", "WEVN")]: the value of
    [seq_ok] when the loop ends or breaks. *)
Fixpoint events_qm_loop (r : subset) (names : list string) : bool :=
  match names with
  | [] => false
  | seq_name :: rest =>
      let '(a, nev) := _last_event (_read1 r seq_name) in
      match a with
      | Some a =>
          if (1 <=? nev)%nat then
            if decide (seq_name = "TEVN") then
              if (2 <=? shape_at a 0)%nat && isfinite (at_last_col a 1)
              then true else events_qm_loop r rest
            else
              if (3 <=? shape_at a 0)%nat && isfinite (at_last_col a 2)
              then true else events_qm_loop r rest
          else events_qm_loop r rest
      | None => events_qm_loop r rest
      end
  end.

(** Second loop, over [("PEVN", "ZEVN", "QEVN")]: presence of an event. *)
Fixpoint events_presence_loop (r : subset) (names : list string) : bool :=
  match names with
  | [] => false
  | seq_name :: rest =>
      let '(_, nev) := _last_event (_read1 r seq_name) in
      if (1 <=? nev)%nat then true else events_presence_loop r rest
  end.

(** [seq_ok] after both loops. *)
Definition seq_ok (r : subset) : bool :=
  if events_qm_loop r ["TEVN"; "WEVN"] then true
  else events_presence_loop r ["PEVN"; "ZEVN"; "QEVN"].

(** [check_range]: the scalar of [name], scaled to hPa for the two
    pressures, against [RANGE[name]]. *)
Definition check_range (pscale : Q) (r : subset) (name : string) : bool :=
  let a := _read_scalar r name in
  match RANGE name with
  | None => false
  | Some (lo, hi) =>
      let a :=
        if bool_decide (name = "POB" ∨ name = "PRSS") then
          match a with Some v => Some (fscale v pscale) | None => None end
        else a in
      _in_range a lo hi
  end.

Definition UNIT_VARS : list string :=
  ["XOB"; "YOB"; "TOB"; "POB"; "ZOB"; "UOB"; "VOB"; "QOB"].

(** What the unit loop carries: the flag, the per-variable counter, the
    "where" samples and the failure list. *)
Record UnitsAcc : Type := mk_UnitsAcc {
  ua_bad : bool;
  ua_by_var : gmap (string * string) nat;
  ua_where : list WhereLine;
  ua_fails : list FailRecord
}.

(** The loop over the eight variables; no [break]. *)
Fixpoint units_loop (wmax : Z) (pscale : Q) (mtyp : string) (idx : nat)
    (xob yob dhr : option pyfloat) (r : subset) (names : list string)
    (acc : UnitsAcc) : UnitsAcc :=
  match names with
  | [] => acc
  | nm :: rest =>
      let acc' :=
        match _read1 r nm with
        | Some _ =>
            if negb (check_range pscale r nm) then
              mk_UnitsAcc true
                (inc (ua_by_var acc) (mtyp, nm))
                (add_where true wmax (ua_where acc)
                   (_fmt_where mtyp idx xob yob dhr (" var=" ++ nm)%string))
                (ua_fails acc ++ [mk_FailRecord mtyp idx FAIL_UNITS (Some nm)])
            else acc
        | None => acc
        end in
      units_loop wmax pscale mtyp idx xob yob dhr r rest acc'
  end.

(** Observed quantity (one mnemonic or either of two) and its error. *)
Definition OBERR_PAIRS : list (list string * string) :=
  [ (["TOB"], "TOE"); (["UOB"; "VOB"], "WOE"); (["POB"], "POE");
    (["ZOB"], "ZOE"); (["QOB"], "QOE") ].

(** The loop over the pairs, broken at the first missing error. *)
Fixpoint oberrs_loop (r : subset) (pairs : list (list string * string)) : bool :=
  match pairs with
  | [] => false
  | (obs, err) :: rest =>
      let present := existsb (fun o => bool_decide (is_Some (_read1 r o))) obs in
      if present && negb (bool_decide (is_Some (_read1 r err))) then true
      else oberrs_loop r rest
  end.

(** [_in_range(val, *RANGE[name])] *)
Definition in_range_of (name : string) (val : option pyfloat) : bool :=
  match RANGE name with
  | Some (lo, hi) => _in_range val lo hi
  | None => false
  end.

(** Body of [if need_check:] in the ADPSFC block: the flag
    [subset_miss_adpsfc]. *)
Definition adpsfc_fields_bad (pscale : Q) (r : subset) : bool :=
  match _read1 r "PRSS", _read1 r "PWO", _read1 r "CAT" with
  | Some prss, Some pwo, Some _ =>
      let prss_hpa := Some (fscale (flat0 prss) pscale) in
      let bad1 := negb (in_range_of "PRSS" prss_hpa) in
      let bad2 := negb (in_range_of "PWO" (Some (flat0 pwo))) in
      bad1 || bad2
  | _, _, _ => true
  end.

(** One failure entry, or none, under the [if] of a check. *)
Definition fail_if (b : bool) (mtyp : string) (idx : nat) (k : fail_type)
    : list FailRecord :=
  if b then [mk_FailRecord mtyp idx k None] else [].

(** Body of [while load_subset() == 0]: every check on one subset and
    the updates it makes, in source order. *)
Definition process_subset (cfg : Config) (pscale : Q) (mtyp : string)
    (st : State) (r : subset) : State :=
  let nsub' := S (nsub st) in
  let xob := _read_scalar r "XOB" in
  let yob := _read_scalar r "YOB" in
  let dhr_dbg := _read_scalar r "DHR" in
  let line := _fmt_where mtyp nsub' xob yob dhr_dbg "" in
  let wmax := where_max cfg in
  (* header *)
  let subset_bad_hdr := negb (_has_header_fast r REQ_HDR) in
  (* time window *)
  let subset_time_oow := time_out_of_window (twind_h cfg) dhr_dbg in
  (* events *)
  let subset_no_events := negb (seq_ok r) in
  let fails3 :=
    fail_records st ++ fail_if subset_bad_hdr mtyp nsub' FAIL_HDR
      ++ fail_if subset_time_oow mtyp nsub' FAIL_TIME
      ++ fail_if subset_no_events mtyp nsub' FAIL_EVENTS in
  (* units *)
  let ua :=
    units_loop wmax pscale mtyp nsub' xob yob dhr_dbg r UNIT_VARS
      (mk_UnitsAcc false (units_by_var_and_type st) (where_units st) fails3) in
  let subset_bad_units := ua_bad ua in
  (* observation errors *)
  let subset_miss_oberrs :=
    if check_oberrs cfg then oberrs_loop r OBERR_PAIRS else false in
  (* ADPSFC *)
  let subset_miss_adpsfc :=
    if bool_decide (kind cfg = Some "adpsfc") then
      let need_check := negb (subset_bad_hdr || subset_no_events) in
      if need_check then adpsfc_fields_bad pscale r else false
    else false in
  (* approval *)
  let approved :=
    negb (existsb id [subset_bad_hdr; subset_no_events; subset_time_oow;
                      subset_bad_units; subset_miss_oberrs; subset_miss_adpsfc]) in
  {| nmsg := nmsg st;
     nsub := nsub';
     bad_hdr := bump subset_bad_hdr (bad_hdr st);
     no_events := bump subset_no_events (no_events st);
     time_oow := bump subset_time_oow (time_oow st);
     bad_units := bump subset_bad_units (bad_units st);
     miss_oberrs := bump subset_miss_oberrs (miss_oberrs st);
     miss_adpsfc := bump subset_miss_adpsfc (miss_adpsfc st);
     (* types[mtyp] += 1: the head of the message loop created the key *)
     types := inc (types st) mtyp;
     per_type_total := inc (per_type_total st) mtyp;
     per_type_approved := inc_if approved (per_type_approved st) mtyp;
     per_type_bad_hdr := inc_if subset_bad_hdr (per_type_bad_hdr st) mtyp;
     per_type_no_events := inc_if subset_no_events (per_type_no_events st) mtyp;
     per_type_time_oow := inc_if subset_time_oow (per_type_time_oow st) mtyp;
     per_type_bad_units := inc_if subset_bad_units (per_type_bad_units st) mtyp;
     per_type_miss_oberrs := inc_if subset_miss_oberrs (per_type_miss_oberrs st) mtyp;
     per_type_miss_adpsfc := inc_if subset_miss_adpsfc (per_type_miss_adpsfc st) mtyp;
     where_hdr := add_where subset_bad_hdr wmax (where_hdr st) line;
     where_events := add_where subset_no_events wmax (where_events st) line;
     where_time := add_where subset_time_oow wmax (where_time st) line;
     where_units := ua_where ua;
     fail_records :=
       ua_fails ua ++ fail_if subset_miss_oberrs mtyp nsub' FAIL_OBERRS
         ++ fail_if subset_miss_adpsfc mtyp nsub' FAIL_ADPSFC;
     units_by_var_and_type := ua_by_var ua |}.

(** Head of [while advance() == 0]: count the message and create the
    keys of its type. *)
Definition start_message (mtyp : string) (st : State) : State :=
  let fresh := bool_decide (per_type_total st !! mtyp = None) in
  let mk (d : gmap string nat) := if fresh then <[mtyp := 0%nat]> d else d in
  {| nmsg := S (nmsg st);
     nsub := nsub st;
     bad_hdr := bad_hdr st;
     no_events := no_events st;
     time_oow := time_oow st;
     bad_units := bad_units st;
     miss_oberrs := miss_oberrs st;
     miss_adpsfc := miss_adpsfc st;
     types := ensure_key (types st) mtyp;
     per_type_total := mk (per_type_total st);
     per_type_approved := mk (per_type_approved st);
     per_type_bad_hdr := mk (per_type_bad_hdr st);
     per_type_no_events := mk (per_type_no_events st);
     per_type_time_oow := mk (per_type_time_oow st);
     per_type_bad_units := mk (per_type_bad_units st);
     per_type_miss_oberrs := mk (per_type_miss_oberrs st);
     per_type_miss_adpsfc := mk (per_type_miss_adpsfc st);
     where_hdr := where_hdr st;
     where_events := where_events st;
     where_time := where_time st;
     where_units := where_units st;
     fail_records := fail_records st;
     units_by_var_and_type := units_by_var_and_type st |}.

Definition process_message (cfg : Config) (pscale : Q) (st : State)
    (m : message) : State :=
  fold_left (process_subset cfg pscale (msg_type m)) (subsets m)
    (start_message (msg_type m) st).

(** The main loop over the whole file. *)
Definition main_loop (cfg : Config) (pscale : Q) (f : bufr_file) : State :=
  fold_left (process_message cfg pscale) f init_state.

(* ------------------------------------------------------------------ *)
(** ** Summary and entry points *)

Inductive Status : Type := PASSOU | ATENCAO.

Global Instance Status_eq_dec : EqDecision Status.
Proof. solve_decision. Defined.

(** The [Summary] dataclass: the final state, the status and the unit. *)
Record Summary : Type := mk_Summary {
  final : State;
  status : Status;
  pressure_unit_used : string
}.

(** The unit [check_file] settles on before the main pass. *)
Definition resolve_pressure_unit (cfg : Config) (f : bufr_file) : string :=
  let u := pressure_unit cfg in
  let u := if bool_decide (u ∈ PRESSURE_UNITS) then u else DEFAULT_PRESSURE_UNIT in
  if decide (u = "auto") then _autodetect_pressure_unit f PRESSURE_AUTODETECT_SAMPLES
  else u.

(** [all(x == 0 for x in (...))] *)
Definition overall_status (cfg : Config) (st : State) : Status :=
  if forallb (fun x => Nat.eqb x 0)
       [ bad_hdr st; no_events st; time_oow st; bad_units st;
         (if check_oberrs cfg then miss_oberrs st else 0%nat);
         (if bool_decide (kind cfg = Some "adpsfc") then miss_adpsfc st else 0%nat) ]
  then PASSOU else ATENCAO.

Definition check_file (cfg : Config) (f : bufr_file) : Summary :=
  let pressure_unit_used := resolve_pressure_unit cfg f in
  let pscale := _pressure_scale pressure_unit_used in
  let st := main_loop cfg pscale f in
  mk_Summary st (overall_status cfg st) pressure_unit_used.

(** The command line after splitting into options and converting the
    numeric ones ([--twind], [--where]), before the parser has checked
    the [choices] of [--kind], [--pressure-unit] and [--progress].  The
    output paths and [--progress-every] only drive printing and files. *)
Record Args : Type := mk_Args {
  a_twind : pyfloat;
  a_quiet : bool;
  a_progress : string;
  a_check_oberrs : bool;
  a_kind : option string;
  a_pressure_unit : string;
  a_where : Z
}.

(** [parse_args] with the parser of [_build_parser]: an option value
    outside its [choices] ends the process with the usage error. *)
Definition parse_args (argv : Args) : option Args :=
  if bool_decide (a_progress argv ∈ ["off"; "counter"; "bar"])
     && bool_decide (a_pressure_unit argv ∈ PRESSURE_UNITS)
     && match a_kind argv with
        | None => true
        | Some k => bool_decide (k ∈ ["adpsfc"; "adpupa"])
        end
  then Some argv else None.

(** How a run of [main] ends: the parser's usage error (exit status 2,
    [check_file] never called), or the return value with the summary. *)
Inductive RunResult : Type :=
  | UsageError
  | Returned (code : Z) (res : Summary).

(** The keyword arguments [main] passes to [check_file]. *)
Definition config_of_args (args : Args) : Config :=
  mk_Config (a_twind args) (a_check_oberrs args)
    (a_pressure_unit args) (a_where args) (a_kind args).

Definition main (argv : Args) (f : bufr_file) : RunResult :=
  match parse_args argv with
  | None => UsageError
  | Some args =>
      let res := check_file (config_of_args args) f in
      Returned (if decide (status res = PASSOU) then 0 else 1)%Z res
  end.

(* ------------------------------------------------------------------ *)
(** ** The checks as the documentation words them *)

(** A field is present when its array has at least one element. *)
Definition present (r : subset) (nm : string) : bool :=
  negb (Nat.eqb (size (read_subset r nm)) 0).

(** Check 1: every required header field is present. *)
Definition header_complete (r : subset) : bool :=
  forallb (present r) REQ_HDR.

(** Check 2: the time offset is present and within the half-width. *)
Definition time_in_window (tw : pyfloat) (r : subset) : bool :=
  present r "DHR"
  && fle (fneg tw) (flat0 (read_subset r "DHR"))
  && fle (flat0 (read_subset r "DHR")) tw.

(** An event sequence with at least one event column: a stored 2-D
    matrix whose second axis is not empty. *)
Definition has_event_column (a : ndarray) : bool :=
  negb (Nat.eqb (size a) 0) && Nat.eqb (ndim a) 2 && (1 <=? shape_at a 1)%nat.

(** The value in the last column at row [row], when that row exists. *)
Definition last_column_at (a : ndarray) (row : nat) : option pyfloat :=
  if (row <? shape_at a 0)%nat then Some (at_last_col a row) else None.

(** A primary family matches: an event column and a finite quality mark
    at the family's row of the last column. *)
Definition quality_mark_match (r : subset) (seq_name : string) (row : nat) : bool :=
  let a := read_subset r seq_name in
  has_event_column a
  && match last_column_at a row with
     | Some qm => isfinite qm
     | None => false
     end.

Definition tier1_match (r : subset) : bool :=
  quality_mark_match r "TEVN" 1 || quality_mark_match r "WEVN" 2.

Definition tier2_match (r : subset) : bool :=
  existsb (fun nm => has_event_column (read_subset r nm)) ["PEVN"; "ZEVN"; "QEVN"].

(** Check 3: tier 1, and tier 2 only when tier 1 found nothing. *)
Definition terminal_event_found (r : subset) : bool :=
  if tier1_match r then true else tier2_match r.

(** The value that is compared with the Range Table: the first stored
    value, scaled to hPa for a pressure. *)
Definition normalized (pscale : Q) (nm : string) (v : pyfloat) : pyfloat :=
  if bool_decide (nm = "POB" ∨ nm = "PRSS") then fscale v pscale else v.

(** A variable is present and its value is outside its interval. *)
Definition var_out_of_range (pscale : Q) (r : subset) (nm : string) : bool :=
  present r nm
  && negb (in_range_of nm (Some (normalized pscale nm (flat0 (read_subset r nm))))).

(** Check 4: the base variables that fail, in table order. *)
Definition out_of_range_vars (pscale : Q) (r : subset) : list string :=
  filter (fun nm => var_out_of_range pscale r nm = true) UNIT_VARS.

Definition units_plausible (pscale : Q) (r : subset) : bool :=
  forallb (fun nm => negb (var_out_of_range pscale r nm)) UNIT_VARS.

(** Check 5: no observed quantity lacks its error field. *)
Definition oberrs_present (r : subset) : bool :=
  forallb (fun '(obs, err) => negb (existsb (present r) obs) || present r err)
    OBERR_PAIRS.

(** Check 6: the three auxiliary fields are present and the two numeric
    ones are plausible. *)
Definition adpsfc_fields_ok (pscale : Q) (r : subset) : bool :=
  present r "PRSS" && present r "PWO" && present r "CAT"
  && negb (var_out_of_range pscale r "PRSS")
  && negb (var_out_of_range pscale r "PWO").

(** A record is significant when checks 1 and 3 passed. *)
Definition significant (r : subset) : bool :=
  header_complete r && terminal_event_found r.

(** Approval as the conjunction of the applicable checks. *)
Definition approved_by_applicable_checks (cfg : Config) (pscale : Q)
    (r : subset) : bool :=
  header_complete r
  && time_in_window (twind_h cfg) r
  && terminal_event_found r
  && units_plausible pscale r
  && (if check_oberrs cfg then oberrs_present r else true)
  && (if bool_decide (kind cfg = Some "adpsfc") then adpsfc_fields_ok pscale r
      else true).

(** [sum(d.values())] *)
Definition total (d : gmap string nat) : nat :=
  map_fold (fun _ v acc => (v + acc)%nat) 0%nat d.

(** The failure entries of one kind, in order. *)
Definition of_kind (k : fail_type) (l : list FailRecord) : list FailRecord :=
  filter (fun fr => fr_fail_type fr = k) l.

(** The field [nm] made absent, and the field [nm] replaced. *)
Definition make_absent (nm : string) (r : subset) : subset :=
  mk_subset (delete nm (fields r)).

Definition set_field (nm : string) (a : ndarray) (r : subset) : subset :=
  mk_subset (<[nm := a]> (fields r)).

(** One iteration of the first event loop, as a boolean. *)
Definition qm_iteration (r : subset) (seq_name : string) (rows row : nat) : bool :=
  match _last_event (_read1 r seq_name) with
  | (Some a, nev) =>
      (1 <=? nev)%nat && (rows <=? shape_at a 0)%nat && isfinite (at_last_col a row)
  | (None, _) => false
  end.

(** The six flags of one subset, worded by the checks they negate. *)
Definition failed_header (r : subset) : bool := negb (header_complete r).

Definition failed_time (cfg : Config) (r : subset) : bool :=
  negb (time_in_window (twind_h cfg) r).

Definition failed_events (r : subset) : bool := negb (terminal_event_found r).

Definition failed_units (pscale : Q) (r : subset) : bool :=
  negb (units_plausible pscale r).

Definition failed_oberrs (cfg : Config) (r : subset) : bool :=
  check_oberrs cfg && negb (oberrs_present r).

Definition failed_adpsfc (cfg : Config) (pscale : Q) (r : subset) : bool :=
  bool_decide (kind cfg = Some "adpsfc") && significant r
  && negb (adpsfc_fields_ok pscale r).

(** The failure entries one subset adds, in the order of the checks. *)
Definition subset_failures (cfg : Config) (pscale : Q) (mtyp : string)
    (idx : nat) (r : subset) : list FailRecord :=
  fail_if (failed_header r) mtyp idx FAIL_HDR
  ++ fail_if (failed_time cfg r) mtyp idx FAIL_TIME
  ++ fail_if (failed_events r) mtyp idx FAIL_EVENTS
  ++ map (fun nm => mk_FailRecord mtyp idx FAIL_UNITS (Some nm))
       (out_of_range_vars pscale r)
  ++ fail_if (failed_oberrs cfg r) mtyp idx FAIL_OBERRS
  ++ fail_if (failed_adpsfc cfg pscale r) mtyp idx FAIL_ADPSFC.

(** The per-type dictionaries that count one failure kind or the
    approvals. *)
Definition per_type_dicts (st : State) : list (gmap string nat) :=
  [ per_type_approved st; per_type_bad_hdr st; per_type_no_events st;
    per_type_time_oow st; per_type_bad_units st; per_type_miss_oberrs st;
    per_type_miss_adpsfc st ].

(** Every global failure counter is the sum of its per-type dictionary,
    the subset count is the sum of the per-type totals, and a key missing
    from [per_type_total] is missing from the other dictionaries. *)
Definition counters_consistent (st : State) : Prop :=
  bad_hdr st = total (per_type_bad_hdr st)
  ∧ no_events st = total (per_type_no_events st)
  ∧ time_oow st = total (per_type_time_oow st)
  ∧ bad_units st = total (per_type_bad_units st)
  ∧ miss_oberrs st = total (per_type_miss_oberrs st)
  ∧ miss_adpsfc st = total (per_type_miss_adpsfc st)
  ∧ nsub st = total (per_type_total st)
  ∧ forall k, per_type_total st !! k = None ->
      Forall (fun d => d !! k = None) (per_type_dicts st).

(** The three windows in the order they are tried, each with its unit. *)
Definition WINDOWS : list (string * (Q * Q)) :=
  [ ("hpa", (50, 1100)%Q); ("cb", (5, 110)%Q); ("pa", (5000, 110000)%Q) ].

(** The unit of the first window that contains the median, the default
    unit when none does. *)
Definition first_matching_unit (med : Q) : string :=
  match find (fun uw => in_window (snd uw) med) WINDOWS with
  | Some (u, _) => u
  | None => DEFAULT_PRESSURE_UNIT
  end.

(** What the sampling loops keep true: the samples are positive, [cnt]
    is their number, and the cap is not exceeded. *)
Definition sampling_inv (max_samples : nat) (p : list Q * nat) : Prop :=
  Forall (fun q => (0 < q)%Q) (fst p)
  ∧ length (fst p) = snd p
  ∧ (snd p <= max_samples)%nat.

(* ------------------------------------------------------------------ *)
(** ** Sample data *)

Definition one (q : Q) : ndarray := row_array [Fin q].

(** A surface report that passes every check. *)
Definition good_fields : gmap string ndarray :=
  list_to_map
    [ ("XOB", one (-46)); ("YOB", one (-23)); ("DHR", one 1);
      ("TYP", one 181); ("ELV", one 760); ("SAID", one 83779);
      ("T29", one 511); ("TOB", one 295); ("POB", one 930);
      ("PRSS", one 930); ("PWO", one 30); ("CAT", one 0);
      ("TEVN", matrix 4 1 [Fin 295; Fin 2; Fin 1; Fin 0]) ].

Definition good_subset : subset := mk_subset good_fields.

(** The same report without [T29] and without any event sequence. *)
Definition insignificant_subset : subset :=
  make_absent "TEVN" (make_absent "T29" good_subset).

(** The same report with a temperature that is not a number. *)
Definition nan_tob_subset : subset :=
  set_field "TOB" (row_array [NaN]) good_subset.

(** The same report with a longitude that is not a number. *)
Definition nan_xob_subset : subset :=
  set_field "XOB" (row_array [NaN]) good_subset.

Definition default_config : Config :=
  mk_Config DEFAULT_TWIND_H false DEFAULT_PRESSURE_UNIT 0 None.

Definition adpsfc_config : Config :=
  mk_Config DEFAULT_TWIND_H false DEFAULT_PRESSURE_UNIT 0 (Some "adpsfc").

(** The surface kind with the observation-error check on. *)
Definition surface_oberrs_config : Config :=
  mk_Config DEFAULT_TWIND_H true DEFAULT_PRESSURE_UNIT 0 (Some "adpsfc").

Definition default_args : Args :=
  mk_Args DEFAULT_TWIND_H false "counter" false None DEFAULT_PRESSURE_UNIT 0.

(** A configuration with another unit mode, or another kind. *)
Definition with_pressure_unit (u : string) (cfg : Config) : Config :=
  mk_Config (twind_h cfg) (check_oberrs cfg) u (where_max cfg) (kind cfg).

Definition with_kind (k : option string) (cfg : Config) : Config :=
  mk_Config (twind_h cfg) (check_oberrs cfg) (pressure_unit cfg) (where_max cfg) k.

(** The values the parser accepts for its three options with choices. *)
Definition valid_choices (argv : Args) : Prop :=
  a_progress argv ∈ ["off"; "counter"; "bar"]
  ∧ a_pressure_unit argv ∈ PRESSURE_UNITS
  ∧ a_kind argv ∈ [None; Some "adpsfc"; Some "adpupa"].

(** A configuration no command line can produce: unknown unit mode and
    unknown kind. *)
Definition invalid_config : Config :=
  mk_Config DEFAULT_TWIND_H false "bar" 0 (Some "ship").

(** Two subsets that the main pass cannot tell apart: the same fields
    are present, with the same first value, and the event sequences are
    the same arrays. *)
Definition same_first_values (r1 r2 : subset) : Prop :=
  (forall m, present r1 m = present r2 m)
  ∧ (forall m, flat0 (read_subset r1 m) = flat0 (read_subset r2 m))
  ∧ Forall (fun m => read_subset r1 m = read_subset r2 m) REQ_SEQS.

(** Several levels of temperature: 295 K then 500 K, and the reverse. *)
Definition tob_good_then_bad : subset :=
  set_field "TOB" (row_array [Fin 295; Fin 500]) good_subset.

Definition tob_bad_then_good : subset :=
  set_field "TOB" (row_array [Fin 500; Fin 295]) good_subset.

(** A report whose temperature and pressure are both implausible. *)
Definition two_bad_units_subset : subset :=
  set_field "POB" (one 2000) (set_field "TOB" (one 500) good_subset).

(** A report four hours away from the cycle time. *)
Definition late_subset : subset := set_field "DHR" (one 4) good_subset.

(** A report whose pressures are stored in pascals. *)
Definition pascal_subset : subset :=
  set_field "PRSS" (one 93000) (set_field "POB" (one 93000) good_subset).

(** A report whose only sequence is TEVN, with a quality mark that is
    not a number; and the same report with a PEVN sequence as well. *)
Definition tevn_without_qm : subset :=
  set_field "TEVN" (matrix 4 1 [Fin 295; NaN; Fin 1; Fin 0]) good_subset.

Definition tevn_without_qm_pevn : subset :=
  set_field "PEVN" (matrix 4 1 [Fin 930; NaN; NaN; NaN]) tevn_without_qm.

(** A report with no error mnemonics and without the ADPSFC extras. *)
Definition bare_subset : subset :=
  make_absent "PRSS" (make_absent "PWO" (make_absent "CAT" good_subset)).

(** A file of one ADPSFC message holding the given subsets. *)
Definition one_message (l : list subset) : bufr_file := [mk_message "ADPSFC" l].

(** A surface report whose station pressure is stored in centibars. *)
Definition centibar_subset : subset :=
  set_field "PRSS" (one 100) (set_field "POB" (one 100) good_subset).

(* ------------------------------------------------------------------ *)
(** ** The rest of the engine: reports and whole-file views *)

(** The main loop started from any state. *)
Definition run_from (cfg : Config) (pscale : Q) (st : State) (f : bufr_file)
    : State :=
  fold_left (process_message cfg pscale) f st.

(** The subsets of the file in decode order. *)
Definition all_subsets (f : bufr_file) : list subset :=
  concat (map subsets f).

(** How many subsets satisfy a test. *)
Definition count_where (p : subset -> bool) (l : list subset) : nat :=
  length (filter (fun r => p r = true) l).

(** The message types of the file. *)
Definition message_types (f : bufr_file) : gset string :=
  list_to_set (map msg_type f).

(** The failure entries of the subsets of one message, numbered on from
    [idx]; and of a whole file: the numbering does not restart with a
    new message. *)
Fixpoint subsets_failures (cfg : Config) (pscale : Q) (mtyp : string)
    (idx : nat) (subs : list subset) : list FailRecord :=
  match subs with
  | [] => []
  | r :: rest =>
      subset_failures cfg pscale mtyp (S idx) r
      ++ subsets_failures cfg pscale mtyp (S idx) rest
  end.

Fixpoint file_failures (cfg : Config) (pscale : Q) (idx : nat) (f : bufr_file)
    : list FailRecord :=
  match f with
  | [] => []
  | m :: rest =>
      subsets_failures cfg pscale (msg_type m) idx (subsets m)
      ++ file_failures cfg pscale (idx + length (subsets m)) rest
  end.

(** The entries that count for one cell of the per-variable table. *)
Definition units_entries (mt nm : string) (l : list FailRecord)
    : list FailRecord :=
  filter (fun fr => fr_fail_type fr = FAIL_UNITS
                    ∧ fr_msg_type fr = mt ∧ fr_var fr = Some nm) l.

(** [_write_csv], one row: the [.get(k, 0)] lookups and the percentage
    [(100.0 * app / tot) if tot > 0 else 0.0], kept as a rational (the
    two-decimal rendering is left out). *)
Definition approved_pct (tot app : nat) : Q :=
  if (0 <? tot)%nat then (100 * inject_Z (Z.of_nat app) / inject_Z (Z.of_nat tot))%Q
  else 0%Q.

Record CsvRow : Type := mk_CsvRow {
  c_msg_type : string;
  c_total : nat;
  c_approved : nat;
  c_approved_pct : Q;
  c_bad_hdr : nat;
  c_no_events : nat;
  c_time_oow : nat;
  c_bad_units : nat;
  c_missing_oberrs : nat;
  c_missing_adpsfc_fields : nat
}.

Definition csv_row (s : State) (k : string) : CsvRow :=
  let get (d : gmap string nat) := default 0%nat (d !! k) in
  let tot := get (per_type_total s) in
  let app := get (per_type_approved s) in
  mk_CsvRow k tot app (approved_pct tot app)
    (get (per_type_bad_hdr s)) (get (per_type_no_events s))
    (get (per_type_time_oow s)) (get (per_type_bad_units s))
    (get (per_type_miss_oberrs s)) (get (per_type_miss_adpsfc s)).

(** [_write_report_csv]: the data rows, one per failure entry, with
    [rec.var or ""] in the last column. *)
Record ReportRow : Type := mk_ReportRow {
  rr_src_file : string;
  rr_pressure_unit : string;
  rr_msg_type : string;
  rr_subset_idx : nat;
  rr_fail_type : fail_type;
  rr_var : string
}.

Definition _write_report_csv (src_path press_unit : string) (s : State)
    : list ReportRow :=
  map (fun rec =>
         mk_ReportRow src_path press_unit (fr_msg_type rec) (fr_subset_idx rec)
           (fr_fail_type rec)
           (match fr_var rec with
            | Some v => if decide (v = "") then "" else v
            | None => ""
            end))
    (fail_records s).

(** The samples one subset offers to the autodetection, and those of the
    whole file, in the order the sampling pass meets them. *)
Definition subset_samples (r : subset) : list Q :=
  omap (fun nm =>
          let arr := read_subset r nm in
          if Nat.eqb (size arr) 0 then None
          else match first_of_first arr with
               | Some v => finite_positive v
               | None => None
               end)
    ["POB"; "PRSS"].

Definition all_samples (f : bufr_file) : list Q :=
  concat (map subset_samples (all_subsets f)).

(** Every entry carries a subset number between 1 and [n], and a variable
    exactly when it is a unit failure, then one of the eight names. *)
Definition fail_record_ok (n : nat) (fr : FailRecord) : Prop :=
  (1 <= fr_subset_idx fr <= n)%nat
  ∧ match fr_var fr with
    | Some nm => fr_fail_type fr = FAIL_UNITS ∧ nm ∈ UNIT_VARS
    | None => fr_fail_type fr ≠ FAIL_UNITS
    end.

(** [where_max] as the number of samples it allows. *)
Definition where_cap (cfg : Config) : nat := Z.to_nat (where_max cfg).

(** The detailed list agrees with the counters: one entry per counted
    subset for the five kinds without a variable, between one and eight
    entries per counted subset for the unit failures. *)
Definition entries_match_counters (st : State) : Prop :=
  length (of_kind FAIL_HDR (fail_records st)) = bad_hdr st
  ∧ length (of_kind FAIL_EVENTS (fail_records st)) = no_events st
  ∧ length (of_kind FAIL_TIME (fail_records st)) = time_oow st
  ∧ length (of_kind FAIL_OBERRS (fail_records st)) = miss_oberrs st
  ∧ length (of_kind FAIL_ADPSFC (fail_records st)) = miss_adpsfc st
  ∧ (bad_units st <= length (of_kind FAIL_UNITS (fail_records st)))%nat
  ∧ (length (of_kind FAIL_UNITS (fail_records st)) <= 8 * bad_units st)%nat.

(** The accumulator the unit loop of one subset ends with. *)
Definition units_acc_of (cfg : Config) (pscale : Q) (mtyp : string)
    (st : State) (r : subset) : UnitsAcc :=
  let idx := S (nsub st) in
  units_loop (where_max cfg) pscale mtyp idx
    (_read_scalar r "XOB") (_read_scalar r "YOB") (_read_scalar r "DHR")
    r UNIT_VARS
    (mk_UnitsAcc false (units_by_var_and_type st) (where_units st)
       (fail_records st
        ++ fail_if (failed_header r) mtyp idx FAIL_HDR
        ++ fail_if (failed_time cfg r) mtyp idx FAIL_TIME
        ++ fail_if (failed_events r) mtyp idx FAIL_EVENTS)).

(** The per-variable table against the failure list: each cell is the
    number of unit entries of its message type and variable, and no cell
    holds 0. *)
Definition vars_table_ok (tbl : gmap (string * string) nat)
    (l : list FailRecord) : Prop :=
  (forall mt nm, default 0%nat (tbl !! (mt, nm)) = length (units_entries mt nm l))
  ∧ (forall key v, tbl !! key = Some v -> (0 < v)%nat).

(** The "where" samples against the counters and the cap. *)
Definition where_lengths_ok (cfg : Config) (st : State) : Prop :=
  length (where_hdr st) = Nat.min (bad_hdr st) (where_cap cfg)
  ∧ length (where_events st) = Nat.min (no_events st) (where_cap cfg)
  ∧ length (where_time st) = Nat.min (time_oow st) (where_cap cfg)
  ∧ length (where_units st)
    = Nat.min (length (of_kind FAIL_UNITS (fail_records st))) (where_cap cfg).

(** All the dictionaries keyed by message type have the same keys. *)
Definition doms_agree (st : State) : Prop :=
  Forall (fun d : gmap string nat => dom d = dom (per_type_total st))
    (types st :: per_type_dicts st).

(** No per-type count exceeds the per-type total. *)
Definition per_type_bounded (st : State) : Prop :=
  forall k, Forall (fun d : gmap string nat =>
                      (default 0 (d !! k) <= default 0 (per_type_total st !! k))%nat)
              (per_type_dicts st).

(** The sample one mnemonic of a subset offers, if any. *)
Definition sample_of (r : subset) (nm : string) : option Q :=
  let arr := read_subset r nm in
  if Nat.eqb (size arr) 0 then None
  else match first_of_first arr with
       | Some v => finite_positive v
       | None => None
       end.

(** A configuration with another half-width of the time window. *)
Definition with_twind (tw : pyfloat) (cfg : Config) : Config :=
  mk_Config tw (check_oberrs cfg) (pressure_unit cfg) (where_max cfg) (kind cfg).

(** The subsets carried by the messages of one type, wherever those
    messages stand in the file. *)
Definition subsets_of_type (k : string) (f : list message) : list subset :=
  concat (map subsets (filter (fun m => msg_type m = k) f)).

(** A value is outside a closed interval: it is not a finite number, or
    it is below the lower bound or above the upper bound. *)
Definition outside_interval (v : pyfloat) (lo hi : Q) : bool :=
  match v with
  | Fin q => negb (Qle_bool lo q && Qle_bool q hi)
  | _ => true
  end.

(** The value [v] read for the variable [nm] is implausible: multiplied by
    the pressure scale when [nm] is a pressure, it is outside the interval
    the Range Table gives for [nm]. *)
Definition value_offends (pscale : Q) (nm : string) (v : pyfloat) : bool :=
  match RANGE nm with
  | Some (lo, hi) =>
      outside_interval
        (if bool_decide (nm = "POB" ∨ nm = "PRSS")
         then match v with Fin q => Fin (q * pscale) | other => other end
         else v)
        lo hi
  | None => true
  end.

(** The variable [nm] offends in the subset: its array holds at least one
    element and the first one is implausible. *)
Definition first_value_offends (pscale : Q) (r : subset) (nm : string) : bool :=
  match flat (read_subset r nm) with
  | v :: _ => value_offends pscale nm v
  | [] => false
  end.

(** The base variables that offend, in the order of the unit check. *)
Definition offending_vars (pscale : Q) (r : subset) : list string :=
  filter (fun nm => first_value_offends pscale r nm = true) UNIT_VARS.

(** What one subset appended to the failure list. *)
Definition appended (st st' : State) : list FailRecord :=
  drop (length (fail_records st)) (fail_records st').

(** The bad-units entry of the variable [nm] for the subset read after
    the state [st]. *)
Definition units_entry (mtyp : string) (st : State) (nm : string) : FailRecord :=
  mk_FailRecord mtyp (S (nsub st)) FAIL_UNITS (Some nm).

(** A complete report with a PRSS and a PWO of several levels. *)
Definition levels_subset (p w : pyfloat) : subset :=
  set_field "PRSS" (row_array [p; Fin 2000])
    (set_field "PWO" (row_array [w; Fin 500]) good_subset).

(** Take apart a [Forall] hypothesis over an explicit list. *)
Ltac split_Forall :=
  repeat match goal with
  | H : Forall _ (_ :: _) |- _ => apply Forall_cons_1 in H; destruct H
  end.

(* ------------------------------------------------------------------ *)
(** ** The helpers against the documentation *)

Lemma _read1_present (r : subset) (nm : string) :
  _read1 r nm = if present r nm then Some (read_subset r nm) else None.
Proof.
  unfold _read1, present. by destruct (Nat.eqb (size (read_subset r nm)) 0).
Qed.

Lemma _read1_is_Some (r : subset) (nm : string) :
  bool_decide (is_Some (_read1 r nm)) = present r nm.
Proof.
  rewrite _read1_present. destruct (present r nm).
  - apply bool_decide_eq_true. eauto.
  - apply bool_decide_eq_false. intros [? ?]. discriminate.
Qed.

Lemma _read_scalar_present (r : subset) (nm : string) :
  _read_scalar r nm =
  if present r nm then Some (flat0 (read_subset r nm)) else None.
Proof. unfold _read_scalar. rewrite _read1_present. by destruct (present r nm). Qed.

Lemma _has_header_fast_forallb (r : subset) (required : list string) :
  _has_header_fast r required = forallb (present r) required.
Proof.
  induction required as [|m rest IH]; [done|].
  simpl. unfold present at 1.
  destruct (Nat.eqb (size (read_subset r m)) 0); simpl; [done | apply IH].
Qed.

Lemma header_check_spec (r : subset) :
  _has_header_fast r REQ_HDR = header_complete r.
Proof. apply _has_header_fast_forallb. Qed.

Lemma time_check_spec (tw : pyfloat) (r : subset) :
  time_out_of_window tw (_read_scalar r "DHR") = negb (time_in_window tw r).
Proof.
  unfold time_in_window. rewrite _read_scalar_present.
  destruct (present r "DHR"); simpl; [|done].
  by rewrite andb_comm, andb_comm.
Qed.

Lemma _last_event_nev (r : subset) (nm : string) :
  (1 <=? snd (_last_event (_read1 r nm)))%nat = has_event_column (read_subset r nm).
Proof.
  unfold has_event_column. rewrite _read1_present. unfold present.
  destruct (Nat.eqb (size (read_subset r nm)) 0); simpl; [done|].
  destruct (Nat.eqb (ndim (read_subset r nm)) 2); simpl; done.
Qed.

Lemma events_presence_loop_existsb (r : subset) (names : list string) :
  events_presence_loop r names =
  existsb (fun nm => has_event_column (read_subset r nm)) names.
Proof.
  induction names as [|nm rest IH]; [done|].
  simpl. rewrite <- _last_event_nev.
  destruct (_last_event (_read1 r nm)) as [a nev]; simpl.
  destruct nev; simpl; [apply IH | done].
Qed.

Lemma qm_iteration_match (r : subset) (seq_name : string) (row : nat) :
  qm_iteration r seq_name (S row) row = quality_mark_match r seq_name row.
Proof.
  unfold qm_iteration, quality_mark_match, has_event_column, last_column_at, _last_event.
  rewrite _read1_present. unfold present, Nat.ltb.
  set (a := read_subset r seq_name).
  destruct (Nat.eqb (size a) 0); cbn [negb andb]; [done|].
  destruct (Nat.eqb (ndim a) 2); cbn [negb andb]; [|done].
  destruct (1 <=? shape_at a 1)%nat; cbn [negb andb]; [|done].
  by destruct (S row <=? shape_at a 0)%nat.
Qed.

Lemma events_qm_loop_iterations (r : subset) :
  events_qm_loop r ["TEVN"; "WEVN"] =
  qm_iteration r "TEVN" 2 1 || qm_iteration r "WEVN" 3 2.
Proof.
  unfold events_qm_loop, qm_iteration.
  destruct (_last_event (_read1 r "TEVN")) as [[t|] nt];
    destruct (_last_event (_read1 r "WEVN")) as [[w|] nw];
    repeat (case_decide; try discriminate); try congruence;
    repeat match goal with
    | |- context [(?k <=? ?n)%nat] => destruct (k <=? n)%nat; cbn [negb andb orb]
    | |- context [isfinite ?v] => destruct (isfinite v); cbn [negb andb orb]
    end; reflexivity.
Qed.

Lemma events_qm_loop_tier1 (r : subset) :
  events_qm_loop r ["TEVN"; "WEVN"] = tier1_match r.
Proof.
  rewrite events_qm_loop_iterations. unfold tier1_match.
  by rewrite !qm_iteration_match.
Qed.

Lemma seq_ok_spec (r : subset) : seq_ok r = terminal_event_found r.
Proof.
  unfold seq_ok, terminal_event_found, tier2_match.
  by rewrite events_qm_loop_tier1, events_presence_loop_existsb.
Qed.

Lemma check_range_spec (pscale : Q) (r : subset) (nm : string) :
  present r nm && negb (check_range pscale r nm) = var_out_of_range pscale r nm.
Proof.
  unfold var_out_of_range, check_range, in_range_of, normalized.
  rewrite _read_scalar_present.
  destruct (present r nm); cbn [andb]; [|done].
  destruct (RANGE nm) as [[lo hi]|]; [|done].
  by destruct (bool_decide (nm = "POB" ∨ nm = "PRSS")).
Qed.

(** The failure entry the unit check appends for one variable. *)
Lemma units_loop_spec (wmax : Z) (pscale : Q) (mtyp : string) (idx : nat)
    (xob yob dhr : option pyfloat) (r : subset) (names : list string)
    (acc : UnitsAcc) :
  let res := units_loop wmax pscale mtyp idx xob yob dhr r names acc in
  ua_bad res = ua_bad acc || existsb (var_out_of_range pscale r) names
  ∧ ua_fails res =
      ua_fails acc ++
      map (fun nm => mk_FailRecord mtyp idx FAIL_UNITS (Some nm))
        (filter (fun nm => var_out_of_range pscale r nm = true) names).
Proof.
  revert acc. induction names as [|nm rest IH]; intros acc; cbn [units_loop].
  { cbn. by rewrite orb_false_r, app_nil_r. }
  cbn zeta. rewrite _read1_present.
  pose proof (check_range_spec pscale r nm) as Hspec.
  destruct (IH
    (if present r nm
     then if negb (check_range pscale r nm)
          then mk_UnitsAcc true (inc (ua_by_var acc) (mtyp, nm))
                 (add_where true wmax (ua_where acc)
                    (_fmt_where mtyp idx xob yob dhr (" var=" ++ nm)%string))
                 (ua_fails acc ++ [mk_FailRecord mtyp idx FAIL_UNITS (Some nm)])
          else acc
     else acc)) as [IHb IHf].
  assert (Heq : forall (A : Type) (x y : A),
      match (if present r nm then Some (read_subset r nm) else None) with
      | Some _ => x | None => y end = if present r nm then x else y).
  { intros. by destruct (present r nm). }
  rewrite Heq. rewrite IHb, IHf. clear IHb IHf IH Heq.
  rewrite filter_cons. cbn [existsb].
  destruct (present r nm); cbn [andb] in Hspec.
  - destruct (negb (check_range pscale r nm)); rewrite <- Hspec.
    + rewrite decide_True by done. cbn [ua_bad ua_fails map].
      split; [by rewrite orb_true_r | by rewrite <- app_assoc].
    + rewrite decide_False by done. done.
  - rewrite <- Hspec. rewrite decide_False by done. done.
Qed.

Lemma units_plausible_existsb (pscale : Q) (r : subset) :
  existsb (var_out_of_range pscale r) UNIT_VARS = negb (units_plausible pscale r).
Proof.
  unfold units_plausible. induction UNIT_VARS as [|nm rest IH]; [done|].
  cbn [existsb forallb]. rewrite IH. by destruct (var_out_of_range pscale r nm).
Qed.

Lemma out_of_range_vars_nil (pscale : Q) (r : subset) :
  units_plausible pscale r = bool_decide (out_of_range_vars pscale r = []).
Proof.
  unfold units_plausible, out_of_range_vars.
  induction UNIT_VARS as [|nm rest IH]; [done|].
  cbn [forallb]. rewrite filter_cons.
  destruct (var_out_of_range pscale r nm); cbn [negb andb].
  - rewrite decide_True by done. symmetry. by apply bool_decide_eq_false.
  - rewrite decide_False by done. apply IH.
Qed.

Lemma oberrs_loop_spec (r : subset) (pairs : list (list string * string)) :
  oberrs_loop r pairs =
  negb (forallb (fun '(obs, err) => negb (existsb (present r) obs) || present r err)
          pairs).
Proof.
  induction pairs as [|[obs err] rest IH]; [done|].
  cbn [oberrs_loop forallb].
  assert (Hex : existsb (fun o => bool_decide (is_Some (_read1 r o))) obs
                = existsb (present r) obs).
  { clear. induction obs as [|o obs IHo]; [done|].
    cbn [existsb]. by rewrite _read1_is_Some, IHo. }
  rewrite Hex, _read1_is_Some, IH.
  by destruct (existsb (present r) obs), (present r err).
Qed.

Lemma adpsfc_fields_bad_spec (pscale : Q) (r : subset) :
  adpsfc_fields_bad pscale r = negb (adpsfc_fields_ok pscale r).
Proof.
  unfold adpsfc_fields_bad, adpsfc_fields_ok, var_out_of_range.
  rewrite !_read1_present.
  destruct (present r "PRSS"), (present r "PWO"), (present r "CAT");
    cbn [andb negb]; try done.
  rewrite !negb_involutive, negb_andb. done.
Qed.

(* ------------------------------------------------------------------ *)
(** ** The engine on the sample reports *)

Example good_report_passes :
  let res := check_file adpsfc_config (one_message [good_subset]) in
  status res = PASSOU
  ∧ fail_records (final res) = []
  ∧ per_type_approved (final res) !! "ADPSFC" = Some 1%nat.
Proof. by vm_compute. Qed.

Example missing_T29_is_bad_header :
  let res := check_file default_config
               (one_message [make_absent "T29" good_subset]) in
  bad_hdr (final res) = 1%nat
  ∧ fail_records (final res) = [mk_FailRecord "ADPSFC" 1 FAIL_HDR None]
  ∧ per_type_approved (final res) !! "ADPSFC" = Some 0%nat
  ∧ status res = ATENCAO.
Proof. by vm_compute. Qed.

Example four_hours_late :
  time_oow (final (check_file default_config (one_message [late_subset]))) = 1%nat
  ∧ time_oow (final (check_file (mk_Config (Fin 5) false "hpa" 0 None)
                       (one_message [late_subset]))) = 0%nat.
Proof. by vm_compute. Qed.

Example pascals_autodetected :
  let cfg := with_pressure_unit "auto" default_config in
  pressure_unit_used (check_file cfg (one_message [pascal_subset])) = "pa"
  ∧ status (check_file cfg (one_message [pascal_subset])) = PASSOU
  ∧ status (check_file default_config (one_message [pascal_subset])) = ATENCAO
  ∧ pressure_unit_used (check_file cfg (one_message [good_subset])) = "hpa".
Proof. by vm_compute. Qed.

(* ------------------------------------------------------------------ *)
(** ** One subset: what each field of the state becomes *)

Section OneSubset.
Variables (cfg : Config) (pscale : Q) (mtyp : string) (st : State) (r : subset).

Lemma units_flag_spec (wmax : Z) (idx : nat) (xob yob dhr : option pyfloat)
    (u : gmap (string * string) nat) (w : list WhereLine) (l : list FailRecord) :
  ua_bad (units_loop wmax pscale mtyp idx xob yob dhr r UNIT_VARS
            (mk_UnitsAcc false u w l)) = failed_units pscale r.
Proof.
  destruct (units_loop_spec wmax pscale mtyp idx xob yob dhr r UNIT_VARS
              (mk_UnitsAcc false u w l)) as [Hb _].
  rewrite Hb. cbn [ua_bad orb]. apply units_plausible_existsb.
Qed.

Lemma oberrs_flag_spec :
  (if check_oberrs cfg then oberrs_loop r OBERR_PAIRS else false)
  = failed_oberrs cfg r.
Proof.
  unfold failed_oberrs, oberrs_present. rewrite oberrs_loop_spec.
  by destruct (check_oberrs cfg).
Qed.

Lemma adpsfc_flag_spec :
  (if bool_decide (kind cfg = Some "adpsfc") then
     if negb (negb (_has_header_fast r REQ_HDR) || negb (seq_ok r))
     then adpsfc_fields_bad pscale r else false
   else false) = failed_adpsfc cfg pscale r.
Proof.
  unfold failed_adpsfc, significant.
  rewrite header_check_spec, seq_ok_spec, adpsfc_fields_bad_spec.
  by destruct (bool_decide (kind cfg = Some "adpsfc")), (header_complete r),
    (terminal_event_found r).
Qed.

Lemma process_subset_nsub :
  nsub (process_subset cfg pscale mtyp st r)
  = S (nsub st).
Proof. reflexivity. Qed.

Lemma process_subset_bad_hdr :
  bad_hdr (process_subset cfg pscale mtyp st r)
  = bump (failed_header r) (bad_hdr st).
Proof.
  unfold process_subset, failed_header. cbn [bad_hdr].
  by rewrite header_check_spec.
Qed.

Lemma process_subset_time_oow :
  time_oow (process_subset cfg pscale mtyp st r)
  = bump (failed_time cfg r) (time_oow st).
Proof.
  unfold process_subset, failed_time. cbn [time_oow].
  by rewrite time_check_spec.
Qed.

Lemma process_subset_no_events :
  no_events (process_subset cfg pscale mtyp st r)
  = bump (failed_events r) (no_events st).
Proof.
  unfold process_subset, failed_events. cbn [no_events].
  by rewrite seq_ok_spec.
Qed.

Lemma process_subset_bad_units :
  bad_units (process_subset cfg pscale mtyp st r)
  = bump (failed_units pscale r) (bad_units st).
Proof.
  unfold process_subset. cbn [bad_units].
  by rewrite units_flag_spec.
Qed.

Lemma process_subset_miss_oberrs :
  miss_oberrs (process_subset cfg pscale mtyp st r)
  = bump (failed_oberrs cfg r) (miss_oberrs st).
Proof.
  unfold process_subset. cbn [miss_oberrs].
  by rewrite oberrs_flag_spec.
Qed.

Lemma process_subset_miss_adpsfc :
  miss_adpsfc (process_subset cfg pscale mtyp st r)
  = bump (failed_adpsfc cfg pscale r) (miss_adpsfc st).
Proof.
  unfold process_subset. cbn [miss_adpsfc].
  by rewrite adpsfc_flag_spec.
Qed.

Lemma process_subset_per_type_bad_hdr :
  per_type_bad_hdr (process_subset cfg pscale mtyp st r)
  = inc_if (failed_header r) (per_type_bad_hdr st) mtyp.
Proof.
  unfold process_subset, failed_header. cbn [per_type_bad_hdr].
  by rewrite header_check_spec.
Qed.

Lemma process_subset_per_type_time_oow :
  per_type_time_oow (process_subset cfg pscale mtyp st r)
  = inc_if (failed_time cfg r) (per_type_time_oow st) mtyp.
Proof.
  unfold process_subset, failed_time. cbn [per_type_time_oow].
  by rewrite time_check_spec.
Qed.

Lemma process_subset_per_type_no_events :
  per_type_no_events (process_subset cfg pscale mtyp st r)
  = inc_if (failed_events r) (per_type_no_events st) mtyp.
Proof.
  unfold process_subset, failed_events. cbn [per_type_no_events].
  by rewrite seq_ok_spec.
Qed.

Lemma process_subset_per_type_bad_units :
  per_type_bad_units (process_subset cfg pscale mtyp st r)
  = inc_if (failed_units pscale r) (per_type_bad_units st) mtyp.
Proof.
  unfold process_subset. cbn [per_type_bad_units].
  by rewrite units_flag_spec.
Qed.

Lemma process_subset_per_type_miss_oberrs :
  per_type_miss_oberrs (process_subset cfg pscale mtyp st r)
  = inc_if (failed_oberrs cfg r) (per_type_miss_oberrs st) mtyp.
Proof.
  unfold process_subset. cbn [per_type_miss_oberrs].
  by rewrite oberrs_flag_spec.
Qed.

Lemma process_subset_per_type_miss_adpsfc :
  per_type_miss_adpsfc (process_subset cfg pscale mtyp st r) =
  inc_if (failed_adpsfc cfg pscale r) (per_type_miss_adpsfc st) mtyp.
Proof.
  unfold process_subset. cbn [per_type_miss_adpsfc].
  by rewrite adpsfc_flag_spec.
Qed.

Lemma process_subset_per_type_total :
  per_type_total (process_subset cfg pscale mtyp st r)
  = inc (per_type_total st) mtyp.
Proof. reflexivity. Qed.

Lemma process_subset_per_type_approved :
  per_type_approved (process_subset cfg pscale mtyp st r) =
  inc_if (negb (failed_header r || failed_events r || failed_time cfg r
                || failed_units pscale r || failed_oberrs cfg r
                || failed_adpsfc cfg pscale r))
    (per_type_approved st) mtyp.
Proof.
  unfold process_subset. cbn [per_type_approved existsb id].
  rewrite units_flag_spec, oberrs_flag_spec, adpsfc_flag_spec.
  rewrite header_check_spec, seq_ok_spec, time_check_spec.
  unfold failed_header, failed_events, failed_time.
  by rewrite orb_false_r, !orb_assoc.
Qed.

Lemma process_subset_fail_records :
  fail_records (process_subset cfg pscale mtyp st r) =
  fail_records st ++ subset_failures cfg pscale mtyp (S (nsub st)) r.
Proof.
  unfold process_subset, subset_failures. cbn [fail_records].
  rewrite oberrs_flag_spec, adpsfc_flag_spec.
  match goal with
  | |- context [units_loop ?w ?p ?m ?i ?x ?y ?d ?s ?n ?a] =>
      destruct (units_loop_spec w p m i x y d s n a) as [_ Hf]
  end.
  rewrite Hf. cbn [ua_fails].
  rewrite header_check_spec, seq_ok_spec, time_check_spec.
  unfold failed_header, failed_events, failed_time, out_of_range_vars.
  by rewrite <- !app_assoc.
Qed.
End OneSubset.

(* ------------------------------------------------------------------ *)
(** ** Status, approval, events, units, platform fields *)

Lemma of_kind_app (k : fail_type) (l1 l2 : list FailRecord) :
  of_kind k (l1 ++ l2) = of_kind k l1 ++ of_kind k l2.
Proof. apply filter_app. Qed.

Lemma of_kind_fail_if (k k' : fail_type) (b : bool) (mtyp : string) (idx : nat) :
  of_kind k (fail_if b mtyp idx k') =
  if decide (k' = k) then fail_if b mtyp idx k' else [].
Proof.
  unfold of_kind, fail_if. destruct b.
  - rewrite filter_cons. cbn [fr_fail_type]. by destruct (decide (k' = k)).
  - by destruct (decide (k' = k)).
Qed.

Lemma of_kind_units (k : fail_type) (mtyp : string) (idx : nat) (l : list string) :
  of_kind k (map (fun nm => mk_FailRecord mtyp idx FAIL_UNITS (Some nm)) l) =
  if decide (FAIL_UNITS = k)
  then map (fun nm => mk_FailRecord mtyp idx FAIL_UNITS (Some nm)) l else [].
Proof.
  unfold of_kind. induction l as [|x l IH]; [by destruct (decide _)|].
  cbn [map]. rewrite filter_cons, IH. cbn [fr_fail_type].
  by destruct (decide (FAIL_UNITS = k)).
Qed.

Lemma overall_status_spec (cfg : Config) (st : State) :
  overall_status cfg st = PASSOU ↔
    bad_hdr st = 0%nat ∧ no_events st = 0%nat
    ∧ time_oow st = 0%nat ∧ bad_units st = 0%nat
    ∧ (miss_oberrs st = 0%nat ∨ check_oberrs cfg = false)
    ∧ (miss_adpsfc st = 0%nat ∨ kind cfg ≠ Some "adpsfc").
Proof.
  unfold overall_status.
  destruct (forallb _ _) eqn:Hall.
  - split; [intros _|done].
    cbn [forallb] in Hall. rewrite !andb_true_iff, !Nat.eqb_eq in Hall.
    destruct Hall as (?&?&?&?&Ho&Ha&_). repeat split; try done.
    + destruct (check_oberrs cfg); auto.
    + case_bool_decide; auto.
  - split; [done|]. intros (?&?&?&?&Ho&Ha).
    apply not_true_iff_false in Hall. exfalso. apply Hall.
    cbn [forallb]. rewrite !andb_true_iff, !Nat.eqb_eq.
    repeat split; try done.
    + destruct Ho as [?| ->]; [by destruct (check_oberrs cfg)|done].
    + case_bool_decide; [|done]. by destruct Ha.
Qed.

(** C1.  Whenever [main] returns, the summary it holds is that of
    [check_file]; its status is PASSOU exactly when the bad-header,
    no-final-event, out-of-window and bad-units counters are zero, the
    observation-error counter is zero or [--check-oberrs] was not given,
    and the ADPSFC counter is zero or the kind is not adpsfc; and the
    return code is 0 exactly when the status is PASSOU, and 1 otherwise.
    The only other way a run ends is the parser's usage error. *)
Theorem C1_status_and_exit_code (argv : Args) (f : bufr_file) :
  match main argv f with
  | UsageError => parse_args argv = None
  | Returned code res =>
      let cfg := config_of_args argv in
      let st := final res in
      res = check_file cfg f
      ∧ (status res = PASSOU ↔
           bad_hdr st = 0%nat ∧ no_events st = 0%nat
           ∧ time_oow st = 0%nat ∧ bad_units st = 0%nat
           ∧ (miss_oberrs st = 0%nat ∨ check_oberrs cfg = false)
           ∧ (miss_adpsfc st = 0%nat ∨ kind cfg ≠ Some "adpsfc"))
      ∧ (code = 0%Z ↔ status res = PASSOU)
      ∧ (code = 1%Z ↔ status res ≠ PASSOU)
  end.
Proof.
  unfold main. destruct (parse_args argv) as [args|] eqn:Hp; [|done].
  assert (args = argv) as ->.
  { unfold parse_args in Hp. by destruct (_ && _); simplify_eq. }
  cbn zeta. split; [done|]. split; [|split].
  - apply overall_status_spec.
  - destruct (decide (status (check_file (config_of_args argv) f) = PASSOU));
      split; try done.
  - destruct (decide (status (check_file (config_of_args argv) f) = PASSOU));
      split; try done.
Qed.

(** C2.  The approved counter of the message type grows by one exactly
    when every applicable check passed: header, time window, final event
    and units always, the observation errors when [check_oberrs] is set,
    the ADPSFC fields when the kind is adpsfc.  The ADPSFC check is only
    run on significant subsets; the conjunction is the same with or
    without that guard, since a subset that is not significant already
    failed check 1 or 3. *)
Theorem C2_approved_iff_applicable_checks_pass
    (cfg : Config) (pscale : Q) (mtyp : string) (st : State) (r : subset) :
  per_type_approved (process_subset cfg pscale mtyp st r)
  = inc_if (approved_by_applicable_checks cfg pscale r) (per_type_approved st) mtyp
  ∧ approved_by_applicable_checks cfg pscale r
    = header_complete r
      && time_in_window (twind_h cfg) r
      && terminal_event_found r
      && units_plausible pscale r
      && (if check_oberrs cfg then oberrs_present r else true)
      && (if bool_decide (kind cfg = Some "adpsfc") && significant r
          then adpsfc_fields_ok pscale r else true)
  ∧ approved_by_applicable_checks cfg pscale r
    = negb (failed_header r || failed_events r || failed_time cfg r
            || failed_units pscale r || failed_oberrs cfg r
            || failed_adpsfc cfg pscale r).
Proof.
  assert (H3 : approved_by_applicable_checks cfg pscale r
    = negb (failed_header r || failed_events r || failed_time cfg r
            || failed_units pscale r || failed_oberrs cfg r
            || failed_adpsfc cfg pscale r)).
  { unfold approved_by_applicable_checks, failed_header, failed_events,
      failed_time, failed_units, failed_oberrs, failed_adpsfc, significant.
    destruct (header_complete r), (time_in_window (twind_h cfg) r),
      (terminal_event_found r), (units_plausible pscale r),
      (check_oberrs cfg), (oberrs_present r),
      (bool_decide (kind cfg = Some "adpsfc")),
      (adpsfc_fields_ok pscale r); reflexivity. }
  split; [|split; [|exact H3]].
  - rewrite H3. apply process_subset_per_type_approved.
  - unfold approved_by_applicable_checks, significant.
    destruct (header_complete r), (time_in_window (twind_h cfg) r),
      (terminal_event_found r), (units_plausible pscale r),
      (check_oberrs cfg), (oberrs_present r),
      (bool_decide (kind cfg = Some "adpsfc")),
      (adpsfc_fields_ok pscale r); reflexivity.
Qed.

(** A temperature sequence alone does not count without its quality
    mark; a pressure sequence counts by being there. *)
Example presence_of_TEVN_is_not_enough :
  seq_ok tevn_without_qm = false
  ∧ seq_ok tevn_without_qm_pevn = true
  ∧ no_events (final (check_file default_config (one_message [tevn_without_qm])))
    = 1%nat.
Proof. by vm_compute. Qed.

(** C4.  The event check succeeds exactly when TEVN has an event column
    and a finite quality mark at row 1 of its last column, or WEVN has an
    event column and a finite quality mark at row 2 of its last column,
    or, when neither holds, one of PEVN, ZEVN, QEVN has an event column;
    the no-final-event counters and the failure list record the subset
    exactly when no family matched. *)
Theorem C4_terminal_event_two_tiers
    (cfg : Config) (pscale : Q) (mtyp : string) (st : State) (r : subset) :
  seq_ok r
  = (if quality_mark_match r "TEVN" 1 || quality_mark_match r "WEVN" 2
     then true
     else has_event_column (read_subset r "PEVN")
          || has_event_column (read_subset r "ZEVN")
          || has_event_column (read_subset r "QEVN"))
  ∧ no_events (process_subset cfg pscale mtyp st r)
    = bump (negb (seq_ok r)) (no_events st)
  ∧ per_type_no_events (process_subset cfg pscale mtyp st r)
    = inc_if (negb (seq_ok r)) (per_type_no_events st) mtyp
  ∧ of_kind FAIL_EVENTS (fail_records (process_subset cfg pscale mtyp st r))
    = of_kind FAIL_EVENTS (fail_records st)
      ++ fail_if (negb (seq_ok r)) mtyp (S (nsub st)) FAIL_EVENTS.
Proof.
  split; [|split; [|split]].
  - rewrite seq_ok_spec. unfold terminal_event_found, tier1_match, tier2_match.
    cbn [existsb]. by rewrite orb_false_r, orb_assoc.
  - rewrite seq_ok_spec. apply process_subset_no_events.
  - rewrite seq_ok_spec. apply process_subset_per_type_no_events.
  - rewrite process_subset_fail_records, seq_ok_spec.
    unfold subset_failures.
    rewrite !of_kind_app, !of_kind_fail_if, of_kind_units.
    repeat (rewrite decide_False by done). rewrite decide_True by done.
    by rewrite !app_nil_r.
Qed.

(** Two variables out of range: two entries, one count. *)
Example two_bad_variables_one_count :
  let st := process_subset default_config 1 "ADPSFC" init_state two_bad_units_subset in
  fail_records st
  = [ mk_FailRecord "ADPSFC" 1 FAIL_UNITS (Some "TOB");
      mk_FailRecord "ADPSFC" 1 FAIL_UNITS (Some "POB") ]
  ∧ bad_units st = 1%nat
  ∧ per_type_bad_units st !! "ADPSFC" = Some 1%nat.
Proof. by vm_compute. Qed.

Lemma outside_interval_spec (v : pyfloat) (lo hi : Q) :
  outside_interval v lo hi = negb (_in_range (Some v) lo hi).
Proof. by destruct v. Qed.

Lemma value_offends_spec (pscale : Q) (nm : string) (v : pyfloat) :
  value_offends pscale nm v
  = negb (in_range_of nm (Some (normalized pscale nm v))).
Proof.
  unfold value_offends, in_range_of, normalized.
  destruct (RANGE nm) as [[lo hi]|]; [|done].
  rewrite outside_interval_spec.
  by destruct (bool_decide (nm = "POB" ∨ nm = "PRSS")), v.
Qed.

Lemma first_value_offends_spec (pscale : Q) (r : subset) (nm : string) :
  first_value_offends pscale r nm = var_out_of_range pscale r nm.
Proof.
  unfold first_value_offends, var_out_of_range, present, size, flat0.
  destruct (flat (read_subset r nm)) as [|v l]; [done|].
  cbn [length Nat.eqb negb andb hd]. apply value_offends_spec.
Qed.

Lemma offending_vars_spec (pscale : Q) (r : subset) :
  offending_vars pscale r = out_of_range_vars pscale r.
Proof.
  unfold offending_vars, out_of_range_vars.
  induction UNIT_VARS as [|nm l IH]; [done|].
  by rewrite !filter_cons, IH, first_value_offends_spec.
Qed.

Lemma appended_process_subset (cfg : Config) (pscale : Q) (mtyp : string)
    (st : State) (r : subset) :
  appended st (process_subset cfg pscale mtyp st r)
  = subset_failures cfg pscale mtyp (S (nsub st)) r.
Proof.
  unfold appended. rewrite process_subset_fail_records.
  by rewrite drop_app_length.
Qed.

Lemma units_entry_appended (cfg : Config) (pscale : Q) (mtyp : string)
    (st : State) (r : subset) (nm : string) :
  units_entry mtyp st nm ∈ appended st (process_subset cfg pscale mtyp st r)
  ↔ nm ∈ UNIT_VARS ∧ first_value_offends pscale r nm = true.
Proof.
  rewrite appended_process_subset. unfold subset_failures, units_entry.
  assert (Hif : forall b k,
            mk_FailRecord mtyp (S (nsub st)) FAIL_UNITS (Some nm)
            ∈ fail_if b mtyp (S (nsub st)) k ↔ False).
  { intros b k. unfold fail_if. destruct b.
    - rewrite elem_of_cons, elem_of_nil. split; [|done]. intros [?|[]]. discriminate.
    - apply elem_of_nil. }
  rewrite !elem_of_app, !Hif, list_elem_of_fmap.
  rewrite <- offending_vars_spec. unfold offending_vars.
  split.
  - intros [[]|[[]|[[]|[H|[[]|[]]]]]]. destruct H as (nm' & [= ->] & Hin).
    apply list_elem_of_filter in Hin. tauto.
  - intros [Hin Hoff]. do 3 right. left. exists nm. split; [done|].
    by apply list_elem_of_filter.
Qed.

(** C5.  The unit check appends one entry tagged with the variable for
    every base variable whose array holds an element and whose first
    value (the pressure after scaling) is not a finite number inside the
    interval of the Range Table, in table order and without stopping at
    the first.  When that list is empty the bad-units counter and the
    per-type dictionary are as they were; otherwise the counter grows by
    one, the entry of the message type grows by one (from 0 when it was
    missing) and the other entries are as they were. *)
Theorem C5_units_all_variables_one_increment
    (cfg : Config) (pscale : Q) (mtyp : string) (st : State) (r : subset) :
  let st' := process_subset cfg pscale mtyp st r in
  let bad := offending_vars pscale r in
  of_kind FAIL_UNITS (fail_records st')
  = of_kind FAIL_UNITS (fail_records st)
    ++ map (fun nm => mk_FailRecord mtyp (S (nsub st)) FAIL_UNITS (Some nm)) bad
  ∧ bad_units st' = (bad_units st + (if bool_decide (bad = []) then 0 else 1))%nat
  ∧ (forall k,
       per_type_bad_units st' !! k
       = if bool_decide (bad = []) then per_type_bad_units st !! k
         else if decide (k = mtyp)
              then Some (default 0 (per_type_bad_units st !! mtyp) + 1)%nat
              else per_type_bad_units st !! k).
Proof.
  cbn zeta. rewrite offending_vars_spec. split; [|split].
  - rewrite process_subset_fail_records. unfold subset_failures.
    rewrite !of_kind_app, !of_kind_fail_if, of_kind_units.
    repeat (rewrite decide_False by done). rewrite decide_True by done.
    by rewrite app_nil_r.
  - rewrite process_subset_bad_units. unfold failed_units.
    rewrite out_of_range_vars_nil.
    destruct (bool_decide (out_of_range_vars pscale r = [])); cbn [negb bump]; lia.
  - intros k. rewrite process_subset_per_type_bad_units. unfold failed_units.
    rewrite out_of_range_vars_nil.
    destruct (bool_decide (out_of_range_vars pscale r = [])); cbn [negb inc_if];
      [done|].
    unfold inc. destruct (decide (k = mtyp)) as [->|Hne].
    + by rewrite lookup_insert_eq.
    + by rewrite lookup_insert_ne.
Qed.

(** C6.  With the kind adpsfc, a subset whose header is incomplete or
    that has no final event gets no missing-ADPSFC entry and leaves both
    missing-ADPSFC counters as they were, whatever PRSS, PWO and CAT
    hold. *)
Theorem C6_adpsfc_skipped_when_not_significant
    (cfg : Config) (pscale : Q) (mtyp : string) (st : State) (r : subset) :
  kind cfg = Some "adpsfc" ->
  _has_header_fast r REQ_HDR = false ∨ seq_ok r = false ->
  let st' := process_subset cfg pscale mtyp st r in
  miss_adpsfc st' = miss_adpsfc st
  ∧ per_type_miss_adpsfc st' = per_type_miss_adpsfc st
  ∧ of_kind FAIL_ADPSFC (fail_records st') = of_kind FAIL_ADPSFC (fail_records st).
Proof.
  intros _ Hns. cbn zeta.
  assert (Hf : failed_adpsfc cfg pscale r = false).
  { unfold failed_adpsfc, significant.
    rewrite <- header_check_spec, <- seq_ok_spec.
    destruct Hns as [-> | ->]; by rewrite ?andb_false_r. }
  split; [|split].
  - rewrite process_subset_miss_adpsfc. by rewrite Hf.
  - rewrite process_subset_per_type_miss_adpsfc. by rewrite Hf.
  - rewrite process_subset_fail_records. unfold subset_failures.
    rewrite !of_kind_app, !of_kind_fail_if, of_kind_units, Hf.
    repeat (rewrite decide_False by done). by rewrite app_nil_r.
Qed.

Lemma C6_witness :
  kind adpsfc_config = Some "adpsfc"
  ∧ (_has_header_fast (make_absent "PRSS" insignificant_subset) REQ_HDR = false
     ∨ seq_ok (make_absent "PRSS" insignificant_subset) = false)
  ∧ (let st' := process_subset adpsfc_config 1 "ADPSFC" init_state
                  (make_absent "PRSS" insignificant_subset) in
     miss_adpsfc st' = miss_adpsfc init_state
     ∧ per_type_miss_adpsfc st' = per_type_miss_adpsfc init_state
     ∧ of_kind FAIL_ADPSFC (fail_records st')
       = of_kind FAIL_ADPSFC (fail_records init_state)).
Proof.
  split; [reflexivity|]. split; [left; vm_compute; reflexivity|].
  apply (C6_adpsfc_skipped_when_not_significant adpsfc_config 1 "ADPSFC"
           init_state (make_absent "PRSS" insignificant_subset)).
  - reflexivity.
  - left. vm_compute. reflexivity.
Defined.

(* ------------------------------------------------------------------ *)
(** ** Counters over the whole file *)

Lemma total_empty : total ∅ = 0%nat.
Proof. apply map_fold_empty. Qed.

Lemma total_insert_fresh (d : gmap string nat) (k : string) (v : nat) :
  d !! k = None -> total (<[k := v]> d) = (v + total d)%nat.
Proof.
  intros Hk. unfold total. apply map_fold_insert_L; [|done].
  intros. lia.
Qed.

Lemma total_lookup (d : gmap string nat) (k : string) (v : nat) :
  d !! k = Some v -> total d = (v + total (delete k d))%nat.
Proof.
  intros Hk. unfold total.
  apply (map_fold_delete_L (fun (_ : string) (x acc : nat) => (x + acc)%nat));
    [|done].
  intros. lia.
Qed.

Lemma total_inc (d : gmap string nat) (k : string) :
  total (inc d k) = S (total d).
Proof.
  unfold inc. destruct (d !! k) as [v|] eqn:Hk; simpl.
  - rewrite (total_lookup d k v Hk).
    rewrite <- insert_delete_eq.
    rewrite total_insert_fresh by apply lookup_delete_eq. lia.
  - rewrite total_insert_fresh by done. lia.
Qed.

Lemma total_inc_if (b : bool) (d : gmap string nat) (k : string) :
  total (inc_if b d k) = bump b (total d).
Proof. destruct b; [apply total_inc | done]. Qed.

Lemma lookup_inc_if_ne (b : bool) (d : gmap string nat) (k k' : string) :
  k ≠ k' -> inc_if b d k !! k' = d !! k'.
Proof.
  intros Hne. destruct b; [|done]. unfold inc_if, inc. by apply lookup_insert_ne.
Qed.

Lemma lookup_inc_eq (d : gmap string nat) (k : string) :
  inc d k !! k = Some (default 0 (d !! k) + 1)%nat.
Proof. unfold inc. apply lookup_insert_eq. Qed.

Lemma counters_consistent_init : counters_consistent init_state.
Proof.
  unfold counters_consistent, init_state; cbn.
  rewrite total_empty. repeat split; try done.
  intros k _. repeat constructor; apply lookup_empty.
Qed.

Lemma counters_consistent_subset
    (cfg : Config) (pscale : Q) (mtyp : string) (st : State) (r : subset) :
  counters_consistent st ->
  counters_consistent (process_subset cfg pscale mtyp st r).
Proof.
  intros (Hh & He & Ht & Hu & Ho & Ha & Hn & Hk).
  unfold counters_consistent.
  rewrite process_subset_bad_hdr, process_subset_no_events,
    process_subset_time_oow, process_subset_bad_units,
    process_subset_miss_oberrs, process_subset_miss_adpsfc,
    process_subset_nsub.
  rewrite process_subset_per_type_bad_hdr, process_subset_per_type_no_events,
    process_subset_per_type_time_oow, process_subset_per_type_bad_units,
    process_subset_per_type_miss_oberrs, process_subset_per_type_miss_adpsfc,
    process_subset_per_type_total.
  rewrite !total_inc_if, total_inc.
  repeat split; try congruence.
  intros k Hnone.
  assert (Hne : mtyp ≠ k).
  { intros ->. by rewrite lookup_inc_eq in Hnone. }
  assert (Hold : per_type_total st !! k = None).
  { unfold inc in Hnone. by rewrite lookup_insert_ne in Hnone. }
  specialize (Hk k Hold). unfold per_type_dicts in *.
  rewrite process_subset_per_type_approved.
  rewrite process_subset_per_type_bad_hdr, process_subset_per_type_no_events,
    process_subset_per_type_time_oow, process_subset_per_type_bad_units,
    process_subset_per_type_miss_oberrs, process_subset_per_type_miss_adpsfc.
  split_Forall.
  repeat constructor; by rewrite lookup_inc_if_ne.
Qed.

Lemma counters_consistent_start (mtyp : string) (st : State) :
  counters_consistent st -> counters_consistent (start_message mtyp st).
Proof.
  intros (Hh & He & Ht & Hu & Ho & Ha & Hn & Hk).
  unfold counters_consistent, start_message, per_type_dicts in *.
  cbn [bad_hdr no_events time_oow bad_units miss_oberrs miss_adpsfc nsub
       per_type_total per_type_approved per_type_bad_hdr per_type_no_events
       per_type_time_oow per_type_bad_units per_type_miss_oberrs
       per_type_miss_adpsfc].
  case_bool_decide as Hfresh.
  - specialize (Hk mtyp Hfresh) as Hm.
    split_Forall.
    rewrite !total_insert_fresh by done.
    repeat split; try done.
    intros k Hnone.
    assert (Hne : mtyp ≠ k).
    { intros ->. by rewrite lookup_insert_eq in Hnone. }
    rewrite lookup_insert_ne in Hnone by done.
    specialize (Hk k Hnone).
    split_Forall.
    repeat constructor; by rewrite lookup_insert_ne.
  - repeat split; done.
Qed.

Lemma counters_consistent_message
    (cfg : Config) (pscale : Q) (st : State) (m : message) :
  counters_consistent st -> counters_consistent (process_message cfg pscale st m).
Proof.
  intros Hst. unfold process_message.
  apply counters_consistent_start with (mtyp := msg_type m) in Hst.
  revert Hst. generalize (start_message (msg_type m) st).
  induction (subsets m) as [|r rest IH]; intros s Hs; [done|].
  cbn [fold_left]. apply IH. by apply counters_consistent_subset.
Qed.

Lemma counters_consistent_main_loop (cfg : Config) (pscale : Q) (f : bufr_file) :
  counters_consistent (main_loop cfg pscale f).
Proof.
  unfold main_loop. generalize counters_consistent_init.
  generalize init_state.
  induction f as [|m rest IH]; intros s Hs; [done|].
  cbn [fold_left]. apply IH. by apply counters_consistent_message.
Qed.

(** C9.  In the summary of any run, each of the six failure counters is
    the sum of its per-type dictionary over all message types, and the
    per-type totals sum to the number of subsets. *)
Theorem C9_global_counters_are_per_type_sums (cfg : Config) (f : bufr_file) :
  let st := final (check_file cfg f) in
  bad_hdr st = total (per_type_bad_hdr st)
  ∧ no_events st = total (per_type_no_events st)
  ∧ time_oow st = total (per_type_time_oow st)
  ∧ bad_units st = total (per_type_bad_units st)
  ∧ miss_oberrs st = total (per_type_miss_oberrs st)
  ∧ miss_adpsfc st = total (per_type_miss_adpsfc st)
  ∧ total (per_type_total st) = nsub st.
Proof.
  cbn zeta. unfold check_file. cbn [final].
  destruct (counters_consistent_main_loop cfg
              (_pressure_scale (resolve_pressure_unit cfg f)) f)
    as (Hh & He & Ht & Hu & Ho & Ha & Hn & _).
  repeat split; done.
Qed.

(* ------------------------------------------------------------------ *)
(** ** Pressure unit autodetection *)

Lemma finite_positive_pos (v : pyfloat) (q : Q) :
  finite_positive v = Some q -> (0 < q)%Q ∧ v = Fin q.
Proof.
  unfold finite_positive. destruct v as [x| | |]; cbn; try discriminate.
  destruct (Qle_bool x 0) eqn:Hle; cbn; [discriminate|].
  intros [= <-]. split; [|done].
  apply Qnot_le_lt. intros Hx. apply Qle_bool_iff in Hx. congruence.
Qed.

Lemma sample_names_inv (max_samples : nat) (r : subset) (names : list string)
    (vals : list Q) (cnt : nat) :
  (cnt < max_samples)%nat ->
  sampling_inv max_samples (vals, cnt) ->
  sampling_inv max_samples (sample_names max_samples r names vals cnt).
Proof.
  revert vals cnt. induction names as [|nm rest IH]; intros vals cnt Hlt Hinv.
  { done. }
  cbn [sample_names].
  destruct (Nat.eqb (size (read_subset r nm)) 0); [by apply IH|].
  destruct (first_of_first (read_subset r nm)) as [v|]; [|by apply IH].
  destruct (finite_positive v) as [q|] eqn:Hq; [|by apply IH].
  destruct Hinv as (Hpos & Hlen & Hcap). cbn [fst snd] in *.
  assert (Hinv' : sampling_inv max_samples (vals ++ [q], S cnt)).
  { repeat split; cbn [fst snd].
    - apply Forall_app. split; [done|]. constructor; [|done].
      by apply finite_positive_pos in Hq as [? _].
    - rewrite length_app. cbn. lia.
    - lia. }
  destruct (max_samples <=? S cnt)%nat eqn:Hmax; [done|].
  apply IH; [|done]. apply Nat.leb_gt in Hmax. lia.
Qed.

Lemma sample_subsets_inv (max_samples : nat) (subs : list subset)
    (vals : list Q) (cnt : nat) :
  sampling_inv max_samples (vals, cnt) ->
  sampling_inv max_samples (sample_subsets max_samples subs vals cnt).
Proof.
  revert vals cnt. induction subs as [|r rest IH]; intros vals cnt Hinv; [done|].
  cbn [sample_subsets].
  destruct (cnt <? max_samples)%nat eqn:Hlt; [|done].
  apply Nat.ltb_lt in Hlt.
  pose proof (sample_names_inv max_samples r ["POB"; "PRSS"] vals cnt Hlt Hinv) as H.
  destruct (sample_names max_samples r ["POB"; "PRSS"] vals cnt) as [vals' cnt'].
  by apply IH.
Qed.

Lemma sample_messages_inv (max_samples : nat) (f : bufr_file)
    (vals : list Q) (cnt : nat) :
  sampling_inv max_samples (vals, cnt) ->
  sampling_inv max_samples (sample_messages max_samples f vals cnt).
Proof.
  revert vals cnt. induction f as [|m rest IH]; intros vals cnt Hinv; [done|].
  cbn [sample_messages].
  destruct (cnt <? max_samples)%nat; [|done].
  pose proof (sample_subsets_inv max_samples (subsets m) vals cnt Hinv) as H.
  destruct (sample_subsets max_samples (subsets m) vals cnt) as [vals' cnt'].
  by apply IH.
Qed.

Lemma collect_samples_inv (max_samples : nat) (f : bufr_file) :
  Forall (fun q => (0 < q)%Q) (collect_samples max_samples f)
  ∧ (length (collect_samples max_samples f) <= max_samples)%nat.
Proof.
  unfold collect_samples.
  destruct (sample_messages_inv max_samples f [] 0%nat) as (Hpos & Hlen & Hcap).
  { repeat split; cbn; [constructor | lia]. }
  split; [done | lia].
Qed.

(** [sorted] returns its argument rearranged in non-decreasing order. *)
Lemma insert_sorted_perm (x : Q) (l : list Q) : insert_sorted x l ≡ₚ x :: l.
Proof.
  induction l as [|y l IH]; [done|]. cbn.
  destruct (Qle_bool x y); [done|].
  rewrite IH. apply Permutation_swap.
Qed.

Lemma sorted_perm (l : list Q) : sorted l ≡ₚ l.
Proof.
  induction l as [|x l IH]; [done|]. unfold sorted in *. cbn.
  by rewrite insert_sorted_perm, IH.
Qed.

Lemma insert_sorted_sorted (x : Q) (l : list Q) :
  Sorted Qle l -> Sorted Qle (insert_sorted x l).
Proof.
  induction l as [|y l IH]; intros Hs; cbn.
  { repeat constructor. }
  destruct (Qle_bool x y) eqn:Hxy.
  - constructor; [done|]. constructor. by apply Qle_bool_iff.
  - apply Sorted_inv in Hs as [Hs Hhd]. constructor; [by apply IH|].
    assert (Hyx : (y <= x)%Q).
    { apply Qlt_le_weak, Qnot_le_lt. intros H. apply Qle_bool_iff in H. congruence. }
    destruct l as [|z l]; cbn.
    + by constructor.
    + destruct (Qle_bool x z); constructor; [done|]. by inversion Hhd.
Qed.

Lemma sorted_sorted (l : list Q) : Sorted Qle (sorted l).
Proof.
  induction l as [|x l IH]; [constructor|].
  unfold sorted in *. cbn. by apply insert_sorted_sorted.
Qed.

Lemma sorted_length (l : list Q) : length (sorted l) = length l.
Proof. apply Permutation_length, sorted_perm. Qed.

Lemma median_is_Some (data : list Q) :
  is_Some (median data) ↔ data ≠ [].
Proof.
  unfold median. rewrite sorted_length.
  destruct data as [|x l]; cbn [length Nat.eqb].
  - split; [intros [? ?]; discriminate | done].
  - split; [done|]. intros _. destruct (Nat.eqb _ 1); eauto.
Qed.

Lemma unit_of_median_first_match (med : Q) :
  unit_of_median med = first_matching_unit med.
Proof.
  unfold unit_of_median, first_matching_unit, WINDOWS, PRESSURE_AUTODETECT_THRESH.
  cbn [find snd].
  by destruct (in_window (50, 1100)%Q med), (in_window (5, 110)%Q med),
    (in_window (5000, 110000)%Q med).
Qed.

Lemma in_window_iff (lo hi med : Q) :
  in_window (lo, hi) med = true ↔ (lo <= med)%Q ∧ (med <= hi)%Q.
Proof.
  unfold in_window. cbn [fst snd].
  by rewrite andb_true_iff, !Qle_bool_iff.
Qed.

Lemma in_window_both (lo1 hi1 lo2 hi2 med : Q) :
  in_window (lo1, hi1) med && in_window (lo2, hi2) med = true
  ↔ (lo1 <= med)%Q ∧ (med <= hi1)%Q ∧ (lo2 <= med)%Q ∧ (med <= hi2)%Q.
Proof. rewrite andb_true_iff, !in_window_iff. tauto. Qed.

(** The hPa and cb windows share the medians from 50 to 110: a file that
    stores a surface pressure of 100 cb is resolved to hpa. *)
Lemma C3_hpa_and_cb_windows_overlap :
  let '(hpa_w, cb_w, _) := PRESSURE_AUTODETECT_THRESH in
  in_window hpa_w 100 = true
  ∧ in_window cb_w 100 = true
  ∧ median (collect_samples PRESSURE_AUTODETECT_SAMPLES (one_message [centibar_subset]))
    = Some ((100 + 100) / 2)%Q
  ∧ _autodetect_pressure_unit (one_message [centibar_subset])
      PRESSURE_AUTODETECT_SAMPLES = "hpa".
Proof. vm_compute. repeat split; reflexivity. Qed.

(** C3, amended.  Under auto the resolver returns the unit of the first
    window, tried in the order hpa, cb, pa, that contains the median of
    the collected samples, and hpa when no sample was collected or no
    window contains the median.  The samples are positive and at most
    [max_samples].  The pa window is disjoint from the other two, but the
    hpa and cb windows overlap: both contain exactly the medians from 50
    to 110, which the order of the tests resolves to hpa. *)
Theorem C3_autodetect_first_matching_window (f : bufr_file) (max_samples : nat) :
  let vals := collect_samples max_samples f in
  let '(hpa_w, cb_w, pa_w) := PRESSURE_AUTODETECT_THRESH in
  _autodetect_pressure_unit f max_samples
  = match median vals with
    | Some med => first_matching_unit med
    | None => DEFAULT_PRESSURE_UNIT
    end
  ∧ (median vals = None ↔ vals = [])
  ∧ Forall (fun q => (0 < q)%Q) vals
  ∧ (length vals <= max_samples)%nat
  ∧ (forall med, in_window hpa_w med && in_window pa_w med = false)
  ∧ (forall med, in_window cb_w med && in_window pa_w med = false)
  ∧ (forall med,
       in_window hpa_w med && in_window cb_w med = in_window (50, 110)%Q med).
Proof.
  cbn zeta. unfold PRESSURE_AUTODETECT_THRESH.
  destruct (collect_samples_inv max_samples f) as [Hpos Hlen].
  split; [|split; [|split; [done|split; [done|split; [|split]]]]].
  - unfold _autodetect_pressure_unit.
    destruct (collect_samples max_samples f) as [|x l] eqn:Hv; [done|].
    destruct (median (x :: l)); [apply unit_of_median_first_match | done].
  - pose proof (median_is_Some (collect_samples max_samples f)) as Hm.
    destruct (median (collect_samples max_samples f)) as [med|].
    + split; [done|]. intros Hnil. destruct Hm as [Hm _].
      exfalso. apply Hm; eauto.
    + split; [intros _|done].
      destruct (collect_samples max_samples f); [done|].
      destruct Hm as [_ Hm]. destruct Hm as [? ?]; done.
  - intros med. apply not_true_iff_false. rewrite in_window_both. lra.
  - intros med. apply not_true_iff_false. rewrite in_window_both. lra.
  - intros med. apply eq_true_iff_eq. rewrite in_window_both, in_window_iff. lra.
Qed.

(* ------------------------------------------------------------------ *)
(** ** Configuration *)

Lemma process_subset_config (cfg cfg' : Config) (pscale : Q) (mtyp : string)
    (st : State) (r : subset) :
  twind_h cfg = twind_h cfg' ->
  check_oberrs cfg = check_oberrs cfg' ->
  where_max cfg = where_max cfg' ->
  bool_decide (kind cfg = Some "adpsfc") = bool_decide (kind cfg' = Some "adpsfc") ->
  process_subset cfg pscale mtyp st r = process_subset cfg' pscale mtyp st r.
Proof.
  intros Ht Ho Hw Hk. unfold process_subset. by rewrite Ht, Ho, Hw, Hk.
Qed.

Lemma main_loop_config (cfg cfg' : Config) (pscale : Q) (f : bufr_file) :
  twind_h cfg = twind_h cfg' ->
  check_oberrs cfg = check_oberrs cfg' ->
  where_max cfg = where_max cfg' ->
  bool_decide (kind cfg = Some "adpsfc") = bool_decide (kind cfg' = Some "adpsfc") ->
  main_loop cfg pscale f = main_loop cfg' pscale f.
Proof.
  intros Ht Ho Hw Hk. unfold main_loop. generalize init_state.
  induction f as [|m rest IH]; intros s; [done|].
  cbn [fold_left]. rewrite IH. f_equal.
  unfold process_message. generalize (start_message (msg_type m) s).
  induction (subsets m) as [|r l IHl]; intros s'; [done|].
  cbn [fold_left]. rewrite IHl. f_equal.
  by apply process_subset_config.
Qed.

Lemma parse_args_None (argv : Args) :
  parse_args argv = None ↔ ¬ valid_choices argv.
Proof.
  unfold parse_args, valid_choices.
  assert (Hk : (match a_kind argv with
                | Some k => bool_decide (k ∈ ["adpsfc"; "adpupa"])
                | None => true
                end) = true
               ↔ a_kind argv ∈ [None; Some "adpsfc"; Some "adpupa"]).
  { destruct (a_kind argv) as [k|].
    - rewrite bool_decide_eq_true. rewrite !elem_of_cons, !elem_of_nil.
      split; [intros [->|[->|[]]]; auto | intros [?|[?|[?|[]]]]; simplify_eq; auto].
    - split; [intros _; apply list_elem_of_here | done]. }
  destruct (_ && _ && _) eqn:Hb.
  - split; [done|]. intros Hn. exfalso. apply Hn.
    rewrite !andb_true_iff, !bool_decide_eq_true in Hb.
    destruct Hb as [[? ?] Hb]. by rewrite Hk in Hb.
  - split; [intros _|done]. intros (H1 & H2 & H3).
    apply Hk in H3. apply not_true_iff_false in Hb. apply Hb.
    rewrite H3, !andb_true_iff, !bool_decide_eq_true. done.
Qed.

(** [check_file] called with an unknown unit mode and an unknown kind
    still reads the file and returns a summary. *)
Lemma C8_check_file_accepts_invalid_config :
  (pressure_unit invalid_config ∉ PRESSURE_UNITS)
  ∧ (kind invalid_config ∉ [None; Some "adpsfc"; Some "adpupa"])
  ∧ nsub (final (check_file invalid_config (one_message [good_subset]))) = 1%nat
  ∧ status (check_file invalid_config (one_message [good_subset])) = PASSOU
  ∧ pressure_unit_used (check_file invalid_config (one_message [good_subset]))
    = "hpa".
Proof.
  split; [|split; [|by vm_compute]].
  - unfold invalid_config, PRESSURE_UNITS. cbn. rewrite !elem_of_cons, elem_of_nil.
    intros [?|[?|[?|[?|[]]]]]; discriminate.
  - unfold invalid_config. cbn. rewrite !elem_of_cons, elem_of_nil.
    intros [?|[?|[?|[]]]]; discriminate.
Qed.

(** C8, amended.  On the command line a unit mode outside hpa, cb, pa,
    auto, or a kind outside adpsfc, adpupa, is refused by the parser:
    [main] ends with the usage error exactly when an option value is
    outside its choices, and then [check_file] is not called.
    [check_file] itself refuses nothing: an unknown unit mode is run as
    hpa, and any kind other than adpsfc is run as no kind. *)
Theorem C8_invalid_configuration (argv : Args) (cfg : Config) (f : bufr_file) :
  (main argv f = UsageError ↔ ¬ valid_choices argv)
  ∧ check_file cfg f
    = check_file
        (with_pressure_unit
           (if bool_decide (pressure_unit cfg ∈ PRESSURE_UNITS)
            then pressure_unit cfg else DEFAULT_PRESSURE_UNIT) cfg) f
  ∧ check_file cfg f
    = check_file
        (with_kind (if bool_decide (kind cfg = Some "adpsfc")
                    then Some "adpsfc" else None) cfg) f.
Proof.
  split; [|split].
  - rewrite <- parse_args_None. unfold main.
    destruct (parse_args argv); split; done.
  - set (cfg' := with_pressure_unit _ cfg).
    assert (Hu : resolve_pressure_unit cfg' f = resolve_pressure_unit cfg f).
    { unfold resolve_pressure_unit. subst cfg'.
      cbn [with_pressure_unit pressure_unit].
      destruct (bool_decide (pressure_unit cfg ∈ PRESSURE_UNITS)) eqn:Hin.
      - by rewrite Hin.
      - rewrite bool_decide_eq_true_2; [done|].
        unfold DEFAULT_PRESSURE_UNIT, PRESSURE_UNITS. apply list_elem_of_here. }
    unfold check_file. rewrite Hu.
    by rewrite (main_loop_config cfg cfg').
  - set (cfg' := with_kind _ cfg).
    assert (Hkind : bool_decide (kind cfg = Some "adpsfc")
                    = bool_decide (kind cfg' = Some "adpsfc")).
    { subst cfg'. cbn [with_kind kind]. by case_bool_decide. }
    assert (Hu : resolve_pressure_unit cfg' f = resolve_pressure_unit cfg f) by done.
    unfold check_file. rewrite Hu.
    rewrite (main_loop_config cfg cfg') by done.
    unfold overall_status. by rewrite Hkind.
Qed.

(* ------------------------------------------------------------------ *)
(** ** What the checks read of a field *)

Lemma read_set_field_eq (nm : string) (a : ndarray) (r : subset) :
  read_subset (set_field nm a r) nm = a.
Proof. unfold read_subset, set_field. cbn. by rewrite lookup_insert_eq. Qed.

Lemma read_set_field_ne (nm m : string) (a : ndarray) (r : subset) :
  nm ≠ m -> read_subset (set_field nm a r) m = read_subset r m.
Proof. intros. unfold read_subset, set_field. cbn. by rewrite lookup_insert_ne. Qed.

Lemma read_make_absent_eq (nm : string) (r : subset) :
  read_subset (make_absent nm r) nm = empty_array.
Proof. unfold read_subset, make_absent. cbn. by rewrite lookup_delete_eq. Qed.

Lemma read_make_absent_ne (nm m : string) (r : subset) :
  nm ≠ m -> read_subset (make_absent nm r) m = read_subset r m.
Proof. intros. unfold read_subset, make_absent. cbn. by rewrite lookup_delete_ne. Qed.

Lemma present_make_absent (nm : string) (r : subset) :
  present (make_absent nm r) nm = false.
Proof. unfold present. by rewrite read_make_absent_eq. Qed.

Lemma present_set_field (nm : string) (a : ndarray) (r : subset) :
  present (set_field nm a r) nm = negb (Nat.eqb (size a) 0).
Proof. unfold present. by rewrite read_set_field_eq. Qed.

Section SameFirstValues.
Variables (r1 r2 : subset).
Hypothesis Hsame : same_first_values r1 r2.

Lemma same_present (m : string) : present r1 m = present r2 m.
Proof. by destruct Hsame as (H & _ & _). Qed.

Lemma same_flat0 (m : string) :
  flat0 (read_subset r1 m) = flat0 (read_subset r2 m).
Proof. by destruct Hsame as (_ & H & _). Qed.

Lemma same_read_scalar (m : string) : _read_scalar r1 m = _read_scalar r2 m.
Proof. by rewrite !_read_scalar_present, same_present, same_flat0. Qed.

Lemma same_header (l : list string) :
  _has_header_fast r1 l = _has_header_fast r2 l.
Proof.
  rewrite !_has_header_fast_forallb.
  induction l as [|m l IH]; [done|]. cbn. by rewrite same_present, IH.
Qed.

Lemma same_seq_ok : seq_ok r1 = seq_ok r2.
Proof.
  rewrite !seq_ok_spec.
  unfold terminal_event_found, tier1_match, tier2_match, quality_mark_match.
  destruct Hsame as (_ & _ & Hseq). unfold REQ_SEQS in Hseq.
  split_Forall.
  cbn [existsb].
  repeat match goal with
  | H : read_subset r1 _ = read_subset r2 _ |- _ => rewrite H; clear H
  end.
  done.
Qed.

Lemma same_var_out_of_range (pscale : Q) (m : string) :
  var_out_of_range pscale r1 m = var_out_of_range pscale r2 m.
Proof. unfold var_out_of_range. by rewrite same_present, same_flat0. Qed.

Lemma same_units_loop (wmax : Z) (pscale : Q) (mtyp : string) (idx : nat)
    (xob yob dhr : option pyfloat) (names : list string) (acc : UnitsAcc) :
  units_loop wmax pscale mtyp idx xob yob dhr r1 names acc
  = units_loop wmax pscale mtyp idx xob yob dhr r2 names acc.
Proof.
  revert acc. induction names as [|nm rest IH]; intros acc; [done|].
  cbn [units_loop]. rewrite IH. f_equal.
  pose proof (check_range_spec pscale r1 nm) as H1.
  pose proof (check_range_spec pscale r2 nm) as H2.
  rewrite same_var_out_of_range, <- H2, <- same_present in H1.
  rewrite !_read1_present, <- same_present.
  destruct (present r1 nm); [|done]. cbn [andb] in H1. by rewrite H1.
Qed.

Lemma same_oberrs_loop (pairs : list (list string * string)) :
  oberrs_loop r1 pairs = oberrs_loop r2 pairs.
Proof.
  rewrite !oberrs_loop_spec. f_equal.
  induction pairs as [|[obs err] rest IH]; [done|].
  cbn [forallb]. rewrite IH, same_present. do 3 f_equal.
  clear IH. induction obs as [|o obs IHo]; [done|].
  cbn [existsb]. by rewrite same_present, IHo.
Qed.

Lemma same_adpsfc_fields_bad (pscale : Q) :
  adpsfc_fields_bad pscale r1 = adpsfc_fields_bad pscale r2.
Proof.
  rewrite !adpsfc_fields_bad_spec. unfold adpsfc_fields_ok.
  by rewrite !same_var_out_of_range, !same_present.
Qed.

Lemma same_process_subset (cfg : Config) (pscale : Q) (mtyp : string) (st : State) :
  process_subset cfg pscale mtyp st r1 = process_subset cfg pscale mtyp st r2.
Proof.
  unfold process_subset.
  rewrite !same_read_scalar, same_header, same_seq_ok, same_oberrs_loop,
    same_adpsfc_fields_bad.
  by rewrite same_units_loop.
Qed.
End SameFirstValues.

Lemma same_first_values_set_field (nm : string) (sh sh' : list nat)
    (v : pyfloat) (rest rest' : list pyfloat) (r : subset) :
  nm ∉ REQ_SEQS ->
  same_first_values (set_field nm (mk_ndarray sh (v :: rest)) r)
    (set_field nm (mk_ndarray sh' (v :: rest')) r).
Proof.
  intros Hseq. repeat split.
  - intros m. destruct (decide (nm = m)) as [<-|Hne].
    + by rewrite !present_set_field.
    + unfold present. by rewrite !read_set_field_ne.
  - intros m. destruct (decide (nm = m)) as [<-|Hne].
    + by rewrite !read_set_field_eq.
    + by rewrite !read_set_field_ne.
  - apply Forall_forall. intros m Hm.
    assert (nm ≠ m) by (intros ->; done).
    by rewrite !read_set_field_ne.
Qed.

Lemma var_out_of_range_set_field (pscale : Q) (nm : string) (sh : list nat)
    (v : pyfloat) (rest : list pyfloat) (r : subset) :
  var_out_of_range pscale (set_field nm (mk_ndarray sh (v :: rest)) r) nm
  = negb (in_range_of nm (Some (normalized pscale nm v))).
Proof.
  unfold var_out_of_range. by rewrite present_set_field, read_set_field_eq.
Qed.

(** A temperature of two levels is judged by the first one alone. *)
Example first_level_decides :
  of_kind FAIL_UNITS
    (fail_records (process_subset default_config 1 "ADPSFC" init_state
                     tob_good_then_bad)) = []
  ∧ of_kind FAIL_UNITS
      (fail_records (process_subset default_config 1 "ADPSFC" init_state
                       tob_bad_then_good))
    = [mk_FailRecord "ADPSFC" 1 FAIL_UNITS (Some "TOB")].
Proof. by vm_compute. Qed.

Lemma first_value_offends_set_field (pscale : Q) (nm : string) (sh : list nat)
    (v : pyfloat) (rest : list pyfloat) (r : subset) :
  first_value_offends pscale (set_field nm (mk_ndarray sh (v :: rest)) r) nm
  = value_offends pscale nm v.
Proof. unfold first_value_offends. by rewrite read_set_field_eq. Qed.

Lemma miss_adpsfc_levels (cfg : Config) (pscale : Q) (mtyp : string)
    (st : State) (r : subset) (v w : pyfloat) (rest rest' : list pyfloat)
    (sh sh' : list nat) :
  let r2 := set_field "PRSS" (mk_ndarray sh (v :: rest))
              (set_field "PWO" (mk_ndarray sh' (w :: rest')) r) in
  miss_adpsfc (process_subset cfg pscale mtyp st r2)
  = (miss_adpsfc st
     + if bool_decide (kind cfg = Some "adpsfc")
          && _has_header_fast r2 REQ_HDR && seq_ok r2
       then if Nat.eqb (size (read_subset r2 "CAT")) 0 then 1
            else if value_offends pscale "PRSS" v || value_offends pscale "PWO" w
                 then 1 else 0
       else 0)%nat.
Proof.
  cbn zeta. set (r2 := set_field "PRSS" _ _).
  rewrite process_subset_miss_adpsfc. unfold failed_adpsfc, significant.
  rewrite <- header_check_spec, <- seq_ok_spec.
  destruct (bool_decide (kind cfg = Some "adpsfc") && _has_header_fast r2 REQ_HDR
            && seq_ok r2) eqn:Hsig.
  2: { assert (Hb : bool_decide (kind cfg = Some "adpsfc")
                     && (_has_header_fast r2 REQ_HDR && seq_ok r2) = false)
         by by rewrite andb_assoc.
       rewrite Hb. cbn. lia. }
  assert (Hb : bool_decide (kind cfg = Some "adpsfc")
               && (_has_header_fast r2 REQ_HDR && seq_ok r2) = true)
    by by rewrite andb_assoc.
  rewrite Hb. cbn [andb]. unfold adpsfc_fields_ok.
  assert (Hp : present r2 "PRSS" = true).
  { subst r2. by rewrite present_set_field. }
  assert (Hw : present r2 "PWO" = true).
  { subst r2. unfold present. rewrite read_set_field_ne by done.
    by rewrite read_set_field_eq. }
  assert (Hvp : var_out_of_range pscale r2 "PRSS" = value_offends pscale "PRSS" v).
  { rewrite <- first_value_offends_spec. subst r2.
    apply first_value_offends_set_field. }
  assert (Hvw : var_out_of_range pscale r2 "PWO" = value_offends pscale "PWO" w).
  { rewrite <- first_value_offends_spec. subst r2. unfold first_value_offends.
    rewrite read_set_field_ne by done. by rewrite read_set_field_eq. }
  rewrite Hp, Hw, Hvp, Hvw. unfold present. cbn [andb].
  destruct (Nat.eqb (size (read_subset r2 "CAT")) 0); cbn [negb andb bump]; [lia|].
  destruct (value_offends pscale "PRSS" v), (value_offends pscale "PWO" w);
    cbn; lia.
Qed.

(** C10.  For each of the eight base variables, and for PRSS and PWO,
    the main pass reads the first stored value only.  With the same
    first value, any other later values and any other shape leave the
    whole state after the subset unchanged.  The subset gets the
    bad-units entry of a base variable exactly when that first value,
    scaled for a pressure, is not a finite number inside the interval of
    the variable, whatever the later values are.  When the ADPSFC check
    runs on the subset (kind adpsfc, header complete, final event found)
    and CAT is present, the ADPSFC counter grows exactly when the first
    value of PRSS, scaled, or the first value of PWO is outside its
    interval. *)
Theorem C10_only_first_value_is_range_checked
    (cfg : Config) (pscale : Q) (mtyp : string) (st : State) (r : subset)
    (v w : pyfloat) (rest rest' : list pyfloat) (sh sh' : list nat) :
  Forall (fun nm =>
    process_subset cfg pscale mtyp st (set_field nm (mk_ndarray sh (v :: rest)) r)
    = process_subset cfg pscale mtyp st (set_field nm (mk_ndarray sh' (v :: rest')) r)
    ∧ var_out_of_range pscale (set_field nm (mk_ndarray sh (v :: rest)) r) nm
      = negb (in_range_of nm (Some (normalized pscale nm v))))
    (UNIT_VARS ++ ["PRSS"; "PWO"])
  ∧ Forall (fun nm =>
      let r1 := set_field nm (mk_ndarray sh (v :: rest)) r in
      units_entry mtyp st nm ∈ appended st (process_subset cfg pscale mtyp st r1)
      ↔ value_offends pscale nm v = true)
      UNIT_VARS
  ∧ (let r2 := set_field "PRSS" (mk_ndarray sh (v :: rest))
                 (set_field "PWO" (mk_ndarray sh' (w :: rest')) r) in
     miss_adpsfc (process_subset cfg pscale mtyp st r2)
     = (miss_adpsfc st
        + if bool_decide (kind cfg = Some "adpsfc")
             && _has_header_fast r2 REQ_HDR && seq_ok r2
          then if Nat.eqb (size (read_subset r2 "CAT")) 0 then 1
               else if value_offends pscale "PRSS" v
                       || value_offends pscale "PWO" w
                    then 1 else 0
          else 0)%nat).
Proof.
  split; [|split].
  - apply Forall_forall. intros nm Hnm. split.
    + apply same_process_subset, same_first_values_set_field.
      intros Hseq. revert Hnm Hseq. unfold UNIT_VARS, REQ_SEQS. cbn [app].
      rewrite !elem_of_cons, !elem_of_nil. intros Hnm Hseq.
      repeat (destruct Hnm as [-> | Hnm]);
        try (repeat (destruct Hseq as [? | Hseq]); try discriminate; done).
    + apply var_out_of_range_set_field.
  - apply Forall_forall. intros nm Hnm. cbn zeta.
    rewrite units_entry_appended, first_value_offends_set_field. tauto.
  - apply miss_adpsfc_levels.
Qed.

(** A surface pressure and a precipitable water of two levels are judged
    by their first level: 930 hPa and 30 mm pass although the second
    levels are 2000 and 500; a first level of 2000 hPa fails. *)
Example first_level_decides_adpsfc :
  miss_adpsfc (process_subset adpsfc_config 1 "ADPSFC" init_state
                 (levels_subset (Fin 930) (Fin 30))) = 0%nat
  ∧ miss_adpsfc (process_subset adpsfc_config 1 "ADPSFC" init_state
                   (levels_subset (Fin 2000) (Fin 30))) = 1%nat.
Proof. by vm_compute. Qed.

(* ------------------------------------------------------------------ *)
(** ** A value that is not finite, and an absent field *)

Lemma fle_nonfinite_window (tw d : pyfloat) :
  isfinite tw = true -> isfinite d = false ->
  fle (fneg tw) d && fle d tw = false.
Proof. destruct tw, d; cbn; try done; intros; by rewrite ?andb_false_r. Qed.

Lemma in_range_of_nonfinite (nm : string) (v : pyfloat) :
  isfinite v = false -> in_range_of nm (Some v) = false.
Proof.
  intros Hv. unfold in_range_of, _in_range.
  destruct (RANGE nm) as [[lo hi]|]; [|done]. by rewrite Hv.
Qed.

Lemma normalized_nonfinite (pscale : Q) (nm : string) (v : pyfloat) :
  isfinite v = false -> isfinite (normalized pscale nm v) = false.
Proof. unfold normalized. destruct (bool_decide _), v; done. Qed.

(** A temperature or a longitude that is NaN does not behave as an absent
    one: the first is a unit failure that absence is not, the second
    keeps the header complete where absence breaks it. *)
Lemma C7_nonfinite_is_not_absent :
  let run r := check_file default_config (one_message [r]) in
  isfinite (flat0 (read_subset nan_tob_subset "TOB")) = false
  ∧ bad_units (final (run nan_tob_subset)) = 1%nat
  ∧ status (run nan_tob_subset) = ATENCAO
  ∧ bad_units (final (run (make_absent "TOB" nan_tob_subset))) = 0%nat
  ∧ status (run (make_absent "TOB" nan_tob_subset)) = PASSOU
  ∧ isfinite (flat0 (read_subset nan_xob_subset "XOB")) = false
  ∧ bad_hdr (final (run nan_xob_subset)) = 0%nat
  ∧ bad_hdr (final (run (make_absent "XOB" nan_xob_subset))) = 1%nat.
Proof. by vm_compute. Qed.

Lemma nonfinite_value_functions
    (cfg : Config) (pscale : Q) (r : subset) (a : ndarray) :
  size a ≠ 0%nat ->
  isfinite (flat0 a) = false ->
  isfinite (twind_h cfg) = true ->
  (time_out_of_window (twind_h cfg) (_read_scalar (set_field "DHR" a r) "DHR") = true
   ∧ time_out_of_window (twind_h cfg) (_read_scalar (make_absent "DHR" r) "DHR") = true)
  ∧ Forall (fun nm =>
      adpsfc_fields_bad pscale (set_field nm a r) = true
      ∧ adpsfc_fields_bad pscale (make_absent nm r) = true) ["PRSS"; "PWO"]
  ∧ Forall (fun nm =>
      _has_header_fast (set_field nm a r) REQ_HDR
      = _has_header_fast (set_field nm (one 0) r) REQ_HDR
      ∧ _has_header_fast (make_absent nm r) REQ_HDR = false) REQ_HDR
  ∧ (forall nm,
      oberrs_loop (set_field nm a r) OBERR_PAIRS
      = oberrs_loop (set_field nm (one 0) r) OBERR_PAIRS)
  ∧ Forall (fun nm =>
      var_out_of_range pscale (set_field nm a r) nm = true
      ∧ var_out_of_range pscale (make_absent nm r) nm = false) UNIT_VARS.
Proof.
  intros Hsize Hnf Htw.
  assert (Hsz : Nat.eqb (size a) 0 = false) by by apply Nat.eqb_neq.
  assert (Hpres : forall nm m,
            present (set_field nm a r) m = present (set_field nm (one 0) r) m).
  { intros nm m. destruct (decide (nm = m)) as [<-|Hne].
    - by rewrite !present_set_field, Hsz.
    - unfold present. by rewrite !read_set_field_ne. }
  split; [|split; [|split; [|split]]].
  - rewrite !_read_scalar_present, present_set_field, present_make_absent,
      read_set_field_eq, Hsz.
    cbn [negb time_out_of_window]. by rewrite fle_nonfinite_window.
  - assert (Hbad : forall nm, var_out_of_range pscale (set_field nm a r) nm = true).
    { intros nm. unfold var_out_of_range.
      rewrite present_set_field, read_set_field_eq, Hsz.
      by rewrite in_range_of_nonfinite by by apply normalized_nonfinite. }
    repeat constructor; rewrite adpsfc_fields_bad_spec; unfold adpsfc_fields_ok;
      rewrite ?Hbad, ?present_make_absent; cbn [negb andb];
      by rewrite ?andb_false_r.
  - apply Forall_forall. intros nm Hnm. split.
    + rewrite !_has_header_fast_forallb. clear Hnm.
      induction REQ_HDR as [|m l IH]; [done|].
      cbn [forallb]. by rewrite Hpres, IH.
    + rewrite _has_header_fast_forallb. apply not_true_iff_false.
      rewrite forallb_forall. intros Hall.
      specialize (Hall nm). rewrite present_make_absent in Hall.
      assert (false = true) by (apply Hall; by apply list_elem_of_In).
      discriminate.
  - intros nm. rewrite !oberrs_loop_spec. f_equal.
    induction OBERR_PAIRS as [|[obs err] rest IH]; [done|].
    cbn [forallb]. rewrite IH, Hpres. do 3 f_equal.
    clear IH. induction obs as [|o obs IHo]; [done|].
    cbn [existsb]. by rewrite Hpres, IHo.
  - apply Forall_forall. intros nm _. split.
    + unfold var_out_of_range.
      rewrite present_set_field, read_set_field_eq, Hsz.
      by rewrite in_range_of_nonfinite by by apply normalized_nonfinite.
    + unfold var_out_of_range. by rewrite present_make_absent.
Qed.

Lemma has_header_fast_set_field (nm : string) (a : ndarray) (r : subset)
    (required : list string) :
  size a ≠ 0%nat ->
  _has_header_fast (set_field nm a r) required
  = forallb (fun k => bool_decide (k = nm)
                      || negb (Nat.eqb (size (read_subset r k)) 0)) required.
Proof.
  intros Hsize. induction required as [|k rest IH]; [done|].
  cbn [_has_header_fast forallb]. rewrite IH.
  destruct (decide (k = nm)) as [->|Hne].
  - rewrite read_set_field_eq, bool_decide_eq_true_2 by done.
    by destruct (size a).
  - rewrite read_set_field_ne, bool_decide_eq_false_2 by done.
    by destruct (Nat.eqb (size (read_subset r k)) 0).
Qed.

Lemma significant_other_field (nm : string) (r r' : subset) :
  nm ∈ ["PRSS"; "PWO"] ->
  (forall m, nm ≠ m -> read_subset r' m = read_subset r m) ->
  significant r' = significant r.
Proof.
  intros Hnm Hread.
  assert (Hne : Forall (fun m => nm ≠ m)
                  (REQ_HDR ++ ["TEVN"; "WEVN"; "PEVN"; "ZEVN"; "QEVN"])).
  { apply elem_of_cons in Hnm as [->|Hnm];
      [|apply elem_of_cons in Hnm as [->|Hnm]; [|by apply elem_of_nil in Hnm]];
      cbn; repeat constructor; done. }
  cbn in Hne. split_Forall.
  unfold significant, header_complete, terminal_event_found, tier1_match,
    tier2_match, quality_mark_match, REQ_HDR, present.
  cbn [forallb existsb]. by rewrite !Hread by done.
Qed.

Lemma oberrs_loop_hit (r : subset) (pairs : list (list string * string))
    (obs : list string) (err nm : string) :
  (obs, err) ∈ pairs -> nm ∈ obs ->
  present r nm = true -> present r err = false ->
  oberrs_loop r pairs = true.
Proof.
  intros Hin Hnm Hp He. rewrite oberrs_loop_spec.
  apply negb_true_iff, not_true_iff_false. rewrite forallb_forall.
  intros Hall. specialize (Hall (obs, err)). cbn beta iota in Hall.
  rewrite He, orb_false_r in Hall.
  assert (Hex : existsb (present r) obs = true).
  { apply existsb_exists. exists nm. split; [by apply list_elem_of_In | done]. }
  rewrite Hex in Hall. cbn in Hall.
  assert (false = true) by (apply Hall; by apply list_elem_of_In).
  discriminate.
Qed.

Lemma oberr_names_distinct (obs : list string) (err nm : string) :
  (obs, err) ∈ OBERR_PAIRS -> nm ∈ obs -> nm ≠ err.
Proof.
  intros Hin Hnm.
  assert (Hall : forallb (fun '(obs, err) =>
                   forallb (fun nm => negb (String.eqb nm err)) obs)
                   OBERR_PAIRS = true) by reflexivity.
  rewrite forallb_forall in Hall.
  specialize (Hall (obs, err) (proj1 (list_elem_of_In _ _) Hin)).
  cbn beta iota in Hall. rewrite forallb_forall in Hall.
  specialize (Hall nm (proj1 (list_elem_of_In _ _) Hnm)).
  apply negb_true_iff in Hall. by apply String.eqb_neq in Hall.
Qed.

(** C7, amended.  A field whose first stored value is not finite acts as
    an absent field only in the checks where absence is itself a
    failure of the value: the time window (for a finite half-width) and
    the PRSS and PWO tests of the ADPSFC check fail either way.  The
    header check and the observation-error check look at presence alone,
    so the field counts as present, as it would with a finite value,
    while its absence breaks the header.  The unit check flags the
    present value as out of range and skips the absent variable.  Each
    part is stated of the check itself and of what the subset loop does
    with it: the time counter goes up either way; the ADPSFC counter
    goes up either way exactly when the kind is adpsfc and the header
    and event checks passed; the header counter goes up for the value
    only when another required field is empty, and always for the
    absent field; an observation that is not finite and lacks its error
    is counted by the observation-error check when that check is on;
    the unit check appends the bad-units entry of the variable and bumps
    its counter for the value, and appends no entry for the absent
    field. *)
Theorem C7_nonfinite_value_by_check
    (cfg : Config) (pscale : Q) (mtyp : string) (st : State) (r : subset)
    (a : ndarray) :
  size a ≠ 0%nat ->
  isfinite (flat0 a) = false ->
  isfinite (twind_h cfg) = true ->
  let ps := process_subset cfg pscale mtyp st in
  let gate :=
    if bool_decide (kind cfg = Some "adpsfc")
       && _has_header_fast r REQ_HDR && seq_ok r
    then 1%nat else 0%nat in
  ((time_out_of_window (twind_h cfg) (_read_scalar (set_field "DHR" a r) "DHR") = true
    ∧ time_out_of_window (twind_h cfg) (_read_scalar (make_absent "DHR" r) "DHR") = true)
   ∧ Forall (fun nm =>
       adpsfc_fields_bad pscale (set_field nm a r) = true
       ∧ adpsfc_fields_bad pscale (make_absent nm r) = true) ["PRSS"; "PWO"]
   ∧ Forall (fun nm =>
       _has_header_fast (set_field nm a r) REQ_HDR
       = _has_header_fast (set_field nm (one 0) r) REQ_HDR
       ∧ _has_header_fast (make_absent nm r) REQ_HDR = false) REQ_HDR
   ∧ (forall nm,
       oberrs_loop (set_field nm a r) OBERR_PAIRS
       = oberrs_loop (set_field nm (one 0) r) OBERR_PAIRS)
   ∧ Forall (fun nm =>
       var_out_of_range pscale (set_field nm a r) nm = true
       ∧ var_out_of_range pscale (make_absent nm r) nm = false) UNIT_VARS)
  ∧
  ((time_oow (ps (set_field "DHR" a r)) = S (time_oow st)
    ∧ time_oow (ps (make_absent "DHR" r)) = S (time_oow st))
   ∧ Forall (fun nm =>
       miss_adpsfc (ps (set_field nm a r)) = (miss_adpsfc st + gate)%nat
       ∧ miss_adpsfc (ps (make_absent nm r)) = (miss_adpsfc st + gate)%nat)
       ["PRSS"; "PWO"]
   ∧ Forall (fun nm =>
       bad_hdr (ps (set_field nm a r))
       = (bad_hdr st
          + if forallb (fun k => bool_decide (k = nm)
                                 || negb (Nat.eqb (size (read_subset r k)) 0))
                 REQ_HDR
            then 0 else 1)%nat
       ∧ bad_hdr (ps (make_absent nm r)) = S (bad_hdr st)) REQ_HDR
   ∧ (forall nm,
       miss_oberrs (ps (set_field nm a r))
       = miss_oberrs (ps (set_field nm (one 0) r)))
   ∧ Forall (fun '(obs, err) =>
       Forall (fun nm =>
         miss_oberrs (ps (set_field nm a (make_absent err r)))
         = (miss_oberrs st + if check_oberrs cfg then 1 else 0)%nat) obs)
       OBERR_PAIRS
   ∧ Forall (fun nm =>
       (units_entry mtyp st nm ∈ appended st (ps (set_field nm a r)))
       ∧ (units_entry mtyp st nm ∉ appended st (ps (make_absent nm r)))
       ∧ bad_units (ps (set_field nm a r)) = S (bad_units st)) UNIT_VARS).
Proof.
  intros Hsize Hnf Htw ps gate. subst ps gate.
  destruct (nonfinite_value_functions cfg pscale r a Hsize Hnf Htw)
    as ([Ht1 Ht2] & Hadp & Hhdr & Hobe & Huni).
  split; [exact (conj (conj Ht1 Ht2) (conj Hadp (conj Hhdr (conj Hobe Huni))))|].
  split; [|split; [|split; [|split; [|split]]]].
  - rewrite !process_subset_time_oow. unfold failed_time.
    rewrite <- !time_check_spec, Ht1, Ht2. done.
  - apply Forall_forall. intros nm Hnm.
    rewrite Forall_forall in Hadp. destruct (Hadp nm Hnm) as [Ha1 Ha2].
    rewrite adpsfc_fields_bad_spec in Ha1, Ha2.
    rewrite !process_subset_miss_adpsfc. unfold failed_adpsfc.
    rewrite Ha1, Ha2.
    rewrite (significant_other_field nm r (set_field nm a r) Hnm)
      by (intros; by apply read_set_field_ne).
    rewrite (significant_other_field nm r (make_absent nm r) Hnm)
      by (intros; by apply read_make_absent_ne).
    rewrite header_check_spec, seq_ok_spec. unfold significant.
    destruct (bool_decide (kind cfg = Some "adpsfc")), (header_complete r),
      (terminal_event_found r); cbn; split; lia.
  - apply Forall_forall. intros nm Hnm.
    rewrite Forall_forall in Hhdr. destruct (Hhdr nm Hnm) as [_ Hh2].
    split.
    + unfold process_subset. cbn [bad_hdr].
      rewrite has_header_fast_set_field by done.
      destruct (forallb _ REQ_HDR); cbn; lia.
    + rewrite process_subset_bad_hdr. unfold failed_header.
      by rewrite <- header_check_spec, Hh2.
  - intros nm. rewrite !process_subset_miss_oberrs. unfold failed_oberrs.
    assert (Hop : forall r', oberrs_present r' = negb (oberrs_loop r' OBERR_PAIRS)).
    { intros r'. rewrite oberrs_loop_spec. by rewrite negb_involutive. }
    by rewrite !Hop, Hobe.
  - apply Forall_forall. intros [obs err] Hin.
    apply Forall_forall. intros nm Hnm.
    pose proof (oberr_names_distinct obs err nm Hin Hnm) as Hne.
    unfold process_subset. cbn [miss_oberrs].
    rewrite (oberrs_loop_hit _ OBERR_PAIRS obs err nm Hin Hnm).
    + destruct (check_oberrs cfg); cbn; lia.
    + rewrite present_set_field. by destruct (size a).
    + unfold present.
      by rewrite read_set_field_ne, read_make_absent_eq by done.
  - apply Forall_forall. intros nm Hnm.
    rewrite Forall_forall in Huni. destruct (Huni nm Hnm) as [Hu1 Hu2].
    rewrite !units_entry_appended, !first_value_offends_spec, Hu1, Hu2.
    split; [done|]. split; [intros [_ ?]; discriminate|].
    rewrite process_subset_bad_units. unfold failed_units.
    rewrite <- units_plausible_existsb.
    assert (Hex : existsb (var_out_of_range pscale (set_field nm a r)) UNIT_VARS = true).
    { apply existsb_exists. exists nm. split; [by apply list_elem_of_In | done]. }
    by rewrite Hex.
Qed.

Lemma C7_witness :
  size (row_array [NaN]) ≠ 0%nat
  ∧ isfinite (flat0 (row_array [NaN])) = false
  ∧ isfinite (twind_h surface_oberrs_config) = true
  ∧ (
  let ps := process_subset surface_oberrs_config 1 "ADPSFC" init_state in
  let gate :=
    if bool_decide (kind surface_oberrs_config = Some "adpsfc")
       && _has_header_fast good_subset REQ_HDR && seq_ok good_subset
    then 1%nat else 0%nat in
  ((time_out_of_window (twind_h surface_oberrs_config) (_read_scalar (set_field "DHR" (row_array [NaN]) good_subset) "DHR") = true
    ∧ time_out_of_window (twind_h surface_oberrs_config) (_read_scalar (make_absent "DHR" good_subset) "DHR") = true)
   ∧ Forall (fun nm =>
       adpsfc_fields_bad 1 (set_field nm (row_array [NaN]) good_subset) = true
       ∧ adpsfc_fields_bad 1 (make_absent nm good_subset) = true) ["PRSS"; "PWO"]
   ∧ Forall (fun nm =>
       _has_header_fast (set_field nm (row_array [NaN]) good_subset) REQ_HDR
       = _has_header_fast (set_field nm (one 0) good_subset) REQ_HDR
       ∧ _has_header_fast (make_absent nm good_subset) REQ_HDR = false) REQ_HDR
   ∧ (forall nm,
       oberrs_loop (set_field nm (row_array [NaN]) good_subset) OBERR_PAIRS
       = oberrs_loop (set_field nm (one 0) good_subset) OBERR_PAIRS)
   ∧ Forall (fun nm =>
       var_out_of_range 1 (set_field nm (row_array [NaN]) good_subset) nm = true
       ∧ var_out_of_range 1 (make_absent nm good_subset) nm = false) UNIT_VARS)
  ∧
  ((time_oow (ps (set_field "DHR" (row_array [NaN]) good_subset)) = S (time_oow init_state)
    ∧ time_oow (ps (make_absent "DHR" good_subset)) = S (time_oow init_state))
   ∧ Forall (fun nm =>
       miss_adpsfc (ps (set_field nm (row_array [NaN]) good_subset)) = (miss_adpsfc init_state + gate)%nat
       ∧ miss_adpsfc (ps (make_absent nm good_subset)) = (miss_adpsfc init_state + gate)%nat)
       ["PRSS"; "PWO"]
   ∧ Forall (fun nm =>
       bad_hdr (ps (set_field nm (row_array [NaN]) good_subset))
       = (bad_hdr init_state
          + if forallb (fun k => bool_decide (k = nm)
                                 || negb (Nat.eqb (size (read_subset good_subset k)) 0))
                 REQ_HDR
            then 0 else 1)%nat
       ∧ bad_hdr (ps (make_absent nm good_subset)) = S (bad_hdr init_state)) REQ_HDR
   ∧ (forall nm,
       miss_oberrs (ps (set_field nm (row_array [NaN]) good_subset))
       = miss_oberrs (ps (set_field nm (one 0) good_subset)))
   ∧ Forall (fun '(obs, err) =>
       Forall (fun nm =>
         miss_oberrs (ps (set_field nm (row_array [NaN]) (make_absent err good_subset)))
         = (miss_oberrs init_state + if check_oberrs surface_oberrs_config then 1 else 0)%nat) obs)
       OBERR_PAIRS
   ∧ Forall (fun nm =>
       (units_entry "ADPSFC" init_state nm ∈ appended init_state (ps (set_field nm (row_array [NaN]) good_subset)))
       ∧ (units_entry "ADPSFC" init_state nm ∉ appended init_state (ps (make_absent nm good_subset)))
       ∧ bad_units (ps (set_field nm (row_array [NaN]) good_subset)) = S (bad_units init_state)) UNIT_VARS)).
Proof.
  split; [cbn; lia|]. split; [reflexivity|]. split; [reflexivity|].
  apply (C7_nonfinite_value_by_check surface_oberrs_config 1 "ADPSFC" init_state
           good_subset (row_array [NaN])).
  - cbn. lia.
  - reflexivity.
  - reflexivity.
Defined.

(* ------------------------------------------------------------------ *)
(** ** The main loop over a whole file *)

Lemma main_loop_run_from (cfg : Config) (pscale : Q) (f : bufr_file) :
  main_loop cfg pscale f = run_from cfg pscale init_state f.
Proof. reflexivity. Qed.

Lemma start_message_key (mtyp : string) (st : State) :
  is_Some (per_type_total (start_message mtyp st) !! mtyp).
Proof.
  unfold start_message. cbn [per_type_total]. case_bool_decide as Hfresh.
  - rewrite lookup_insert_eq. eauto.
  - by apply not_eq_None_Some.
Qed.

Lemma process_subset_key (cfg : Config) (pscale : Q) (mtyp k : string)
    (st : State) (r : subset) :
  is_Some (per_type_total st !! k) ->
  is_Some (per_type_total (process_subset cfg pscale mtyp st r) !! k).
Proof.
  intros Hk. rewrite process_subset_per_type_total. unfold inc.
  destruct (decide (mtyp = k)) as [->|Hne].
  - rewrite lookup_insert_eq. eauto.
  - by rewrite lookup_insert_ne.
Qed.

(** A property kept by the head of the message loop and by the body of
    the subset loop holds when the file has been read. *)
Lemma run_from_invariant (cfg : Config) (pscale : Q) (P : State -> Prop)
    (f : bufr_file) (st : State) :
  P st ->
  (forall s mtyp, P s -> P (start_message mtyp s)) ->
  (forall s mtyp r, P s -> is_Some (per_type_total s !! mtyp) ->
     P (process_subset cfg pscale mtyp s r)) ->
  P (run_from cfg pscale st f).
Proof.
  intros Hst Hstart Hstep. revert st Hst.
  induction f as [|m rest IH]; intros st Hst; [done|].
  unfold run_from in *. cbn [fold_left]. apply IH.
  unfold process_message.
  assert (Hs : P (start_message (msg_type m) st)
               ∧ is_Some (per_type_total (start_message (msg_type m) st)
                            !! msg_type m)).
  { split; [by apply Hstart | apply start_message_key]. }
  revert Hs. generalize (start_message (msg_type m) st).
  induction (subsets m) as [|r l IHl]; intros s [Hs Hk]; [done|].
  cbn [fold_left]. apply IHl. split; [by apply Hstep | by apply process_subset_key].
Qed.

Lemma count_where_cons (p : subset -> bool) (r : subset) (l : list subset) :
  count_where p (r :: l) = bump (p r) (count_where p l).
Proof.
  unfold count_where. rewrite filter_cons.
  destruct (p r); [rewrite decide_True by done | rewrite decide_False by done];
    done.
Qed.

Lemma count_where_app (p : subset -> bool) (l1 l2 : list subset) :
  count_where p (l1 ++ l2) = (count_where p l1 + count_where p l2)%nat.
Proof. unfold count_where. by rewrite filter_app, length_app. Qed.

Lemma bump_plus (b : bool) (n m : nat) : (bump b n + m = n + bump b m)%nat.
Proof. destruct b; cbn; lia. Qed.

(** A counter that a subset bumps exactly when a test holds counts the
    subsets of the file that satisfy the test; [I] is what the loop keeps
    true meanwhile. *)
Lemma run_from_counter_inv (cfg : Config) (pscale : Q) (I : State -> Prop)
    (c : State -> nat) (p : subset -> bool) (f : bufr_file) (st : State) :
  I st ->
  (forall s mtyp, I s -> I (start_message mtyp s)) ->
  (forall s mtyp r, I s -> I (process_subset cfg pscale mtyp s r)) ->
  (forall s mtyp, I s -> c (start_message mtyp s) = c s) ->
  (forall s mtyp r, I s ->
     c (process_subset cfg pscale mtyp s r) = bump (p r) (c s)) ->
  c (run_from cfg pscale st f) = (c st + count_where p (all_subsets f))%nat.
Proof.
  intros Hst Istart Istep Hstart Hstep. revert st Hst.
  induction f as [|m rest IH]; intros st Hst.
  { cbn. lia. }
  unfold run_from in *. cbn [fold_left].
  assert (Hm : I (process_message cfg pscale st m)
               ∧ c (process_message cfg pscale st m)
                 = (c st + count_where p (subsets m))%nat).
  { unfold process_message. rewrite <- (Hstart st (msg_type m)) by done.
    specialize (Istart st (msg_type m) Hst). revert Istart.
    generalize (start_message (msg_type m) st).
    induction (subsets m) as [|r l IHl]; intros s Hs.
    - cbn. split; [done | lia].
    - cbn [fold_left]. destruct (IHl _ (Istep s (msg_type m) r Hs)) as [Hi Hc].
      split; [done|]. rewrite Hc, Hstep, count_where_cons by done.
      apply bump_plus. }
  destruct Hm as [Hi Hc]. rewrite IH by done.
  unfold all_subsets. cbn [map concat]. rewrite count_where_app.
  fold (all_subsets rest). rewrite Hc. lia.
Qed.

Lemma run_from_counter (cfg : Config) (pscale : Q) (c : State -> nat)
    (p : subset -> bool) (f : bufr_file) (st : State) :
  (forall s mtyp, c (start_message mtyp s) = c s) ->
  (forall s mtyp r, c (process_subset cfg pscale mtyp s r) = bump (p r) (c s)) ->
  c (run_from cfg pscale st f) = (c st + count_where p (all_subsets f))%nat.
Proof.
  intros Hstart Hstep.
  apply (run_from_counter_inv cfg pscale (fun _ => True)); auto.
Qed.

Lemma approved_flags_spec (cfg : Config) (pscale : Q) (r : subset) :
  negb (failed_header r || failed_events r || failed_time cfg r
        || failed_units pscale r || failed_oberrs cfg r
        || failed_adpsfc cfg pscale r)
  = approved_by_applicable_checks cfg pscale r.
Proof.
  unfold approved_by_applicable_checks, failed_header, failed_events,
    failed_time, failed_units, failed_oberrs, failed_adpsfc, significant.
  destruct (header_complete r), (time_in_window (twind_h cfg) r),
    (terminal_event_found r), (units_plausible pscale r),
    (check_oberrs cfg), (oberrs_present r),
    (bool_decide (kind cfg = Some "adpsfc")),
    (adpsfc_fields_ok pscale r); reflexivity.
Qed.

Lemma start_message_total_approved (mtyp : string) (st : State) :
  counters_consistent st ->
  total (per_type_approved (start_message mtyp st)) = total (per_type_approved st).
Proof.
  intros (_ & _ & _ & _ & _ & _ & _ & Hk).
  unfold start_message. cbn [per_type_approved]. case_bool_decide as Hfresh; [|done].
  specialize (Hk mtyp Hfresh). unfold per_type_dicts in Hk.
  apply Forall_cons_1 in Hk as [Ha _].
  by rewrite total_insert_fresh.
Qed.

Lemma count_where_true (l : list subset) :
  count_where (fun _ => true) l = length l.
Proof.
  induction l as [|r l IH]; [done|]. rewrite count_where_cons, IH. done.
Qed.

Lemma run_from_nmsg (cfg : Config) (pscale : Q) (f : bufr_file) (st : State) :
  nmsg (run_from cfg pscale st f) = (nmsg st + length f)%nat.
Proof.
  revert st. induction f as [|m rest IH]; intros st.
  { cbn. lia. }
  unfold run_from in *. cbn [fold_left]. rewrite IH. cbn [length].
  assert (Hm : nmsg (process_message cfg pscale st m) = S (nmsg st)).
  { unfold process_message.
    change (S (nmsg st)) with (nmsg (start_message (msg_type m) st)).
    generalize (start_message (msg_type m) st).
    induction (subsets m) as [|r l IHl]; intros s; [done|].
    cbn [fold_left]. by rewrite IHl. }
  rewrite Hm. lia.
Qed.

(** X1.  The run counts every message and every subset: [nmsg] is the
    number of messages and [nsub] the number of subsets of the file. *)
Theorem X1_messages_and_subsets_counted (cfg : Config) (f : bufr_file) :
  nmsg (final (check_file cfg f)) = length f
  ∧ nsub (final (check_file cfg f)) = length (all_subsets f).
Proof.
  unfold check_file. cbn [final]. rewrite main_loop_run_from.
  set (pscale := _pressure_scale _).
  assert (Hn : nsub (run_from cfg pscale init_state f) = length (all_subsets f)).
  { rewrite (run_from_counter cfg pscale nsub (fun _ => true)); [|done|done].
    by rewrite count_where_true. }
  split.
  - by rewrite run_from_nmsg.
  - exact Hn.
Qed.

Lemma main_loop_counts (cfg : Config) (pscale : Q) (f : bufr_file) :
  let st := main_loop cfg pscale f in
  bad_hdr st = count_where failed_header (all_subsets f)
  ∧ no_events st = count_where failed_events (all_subsets f)
  ∧ time_oow st = count_where (failed_time cfg) (all_subsets f)
  ∧ bad_units st = count_where (failed_units pscale) (all_subsets f)
  ∧ miss_oberrs st = count_where (failed_oberrs cfg) (all_subsets f)
  ∧ miss_adpsfc st = count_where (failed_adpsfc cfg pscale) (all_subsets f)
  ∧ total (per_type_approved st)
    = count_where (approved_by_applicable_checks cfg pscale) (all_subsets f)
  ∧ nsub st = length (all_subsets f).
Proof.
  cbn zeta. rewrite main_loop_run_from.
  repeat split.
  - rewrite (run_from_counter cfg pscale bad_hdr failed_header); [done|done|].
    intros; apply process_subset_bad_hdr.
  - rewrite (run_from_counter cfg pscale no_events failed_events); [done|done|].
    intros; apply process_subset_no_events.
  - rewrite (run_from_counter cfg pscale time_oow (failed_time cfg)); [done|done|].
    intros; apply process_subset_time_oow.
  - rewrite (run_from_counter cfg pscale bad_units (failed_units pscale));
      [done|done|].
    intros; apply process_subset_bad_units.
  - rewrite (run_from_counter cfg pscale miss_oberrs (failed_oberrs cfg));
      [done|done|].
    intros; apply process_subset_miss_oberrs.
  - rewrite (run_from_counter cfg pscale miss_adpsfc (failed_adpsfc cfg pscale));
      [done|done|].
    intros; apply process_subset_miss_adpsfc.
  - rewrite (run_from_counter_inv cfg pscale counters_consistent
               (fun s => total (per_type_approved s))
               (approved_by_applicable_checks cfg pscale)).
    + cbn. by rewrite total_empty.
    + apply counters_consistent_init.
    + intros s mtyp. apply counters_consistent_start.
    + intros s mtyp r. apply counters_consistent_subset.
    + intros s mtyp. apply start_message_total_approved.
    + intros s mtyp r _. rewrite process_subset_per_type_approved.
      by rewrite total_inc_if, approved_flags_spec.
  - rewrite (run_from_counter cfg pscale nsub (fun _ => true)); [|done|done].
    by rewrite count_where_true.
Qed.

(** X2.  Each global failure counter is the number of subsets of the
    file that fail its check, the two optional checks counting only when
    they are switched on, and the approved counts add up to the number of
    subsets that pass every applicable check. *)
Theorem X2_counters_count_failing_subsets (cfg : Config) (f : bufr_file) :
  let res := check_file cfg f in
  let pscale := _pressure_scale (pressure_unit_used res) in
  let st := final res in
  bad_hdr st = count_where failed_header (all_subsets f)
  ∧ no_events st = count_where failed_events (all_subsets f)
  ∧ time_oow st = count_where (failed_time cfg) (all_subsets f)
  ∧ bad_units st = count_where (failed_units pscale) (all_subsets f)
  ∧ miss_oberrs st = count_where (failed_oberrs cfg) (all_subsets f)
  ∧ miss_adpsfc st = count_where (failed_adpsfc cfg pscale) (all_subsets f)
  ∧ total (per_type_approved st)
    = count_where (approved_by_applicable_checks cfg pscale) (all_subsets f).
Proof.
  cbn zeta. unfold check_file. cbn [final pressure_unit_used].
  destruct (main_loop_counts cfg (_pressure_scale (resolve_pressure_unit cfg f)) f)
    as (H1 & H2 & H3 & H4 & H5 & H6 & H7 & _).
  repeat split; done.
Qed.

Lemma process_message_fail_records (cfg : Config) (pscale : Q) (st : State)
    (m : message) :
  fail_records (process_message cfg pscale st m)
  = fail_records st ++ subsets_failures cfg pscale (msg_type m) (nsub st) (subsets m)
  ∧ nsub (process_message cfg pscale st m) = (nsub st + length (subsets m))%nat.
Proof.
  unfold process_message.
  change (fail_records st) with (fail_records (start_message (msg_type m) st)).
  change (nsub st) with (nsub (start_message (msg_type m) st)).
  generalize (start_message (msg_type m) st).
  induction (subsets m) as [|r l IH]; intros s.
  - cbn. split; [by rewrite app_nil_r | lia].
  - cbn [fold_left subsets_failures length].
    destruct (IH (process_subset cfg pscale (msg_type m) s r)) as [Hf Hn].
    rewrite Hf, Hn, process_subset_fail_records, process_subset_nsub.
    split; [by rewrite <- app_assoc | lia].
Qed.

Lemma run_from_fail_records (cfg : Config) (pscale : Q) (f : bufr_file)
    (st : State) :
  fail_records (run_from cfg pscale st f)
  = fail_records st ++ file_failures cfg pscale (nsub st) f.
Proof.
  revert st. induction f as [|m rest IH]; intros st.
  { cbn. by rewrite app_nil_r. }
  unfold run_from in *. cbn [fold_left file_failures]. rewrite IH.
  destruct (process_message_fail_records cfg pscale st m) as [Hf Hn].
  by rewrite Hf, Hn, <- app_assoc.
Qed.

(** X3.  The failure list of a run is the concatenation, in file order,
    of what each subset contributes: header, time, event entries, one
    entry per implausible variable, then the observation-error and ADPSFC
    entries.  Subsets are numbered from 1 through the whole file; the
    number does not restart at a new message. *)
Theorem X3_fail_records_in_file_order (cfg : Config) (f : bufr_file) :
  let res := check_file cfg f in
  fail_records (final res)
  = file_failures cfg (_pressure_scale (pressure_unit_used res)) 0 f.
Proof.
  cbn zeta. unfold check_file. cbn [final pressure_unit_used].
  rewrite main_loop_run_from. by rewrite run_from_fail_records.
Qed.

Lemma of_kind_subset_failures (cfg : Config) (pscale : Q) (mtyp : string)
    (idx : nat) (r : subset) (k : fail_type) :
  of_kind k (subset_failures cfg pscale mtyp idx r)
  = match k with
    | FAIL_HDR => fail_if (failed_header r) mtyp idx FAIL_HDR
    | FAIL_EVENTS => fail_if (failed_events r) mtyp idx FAIL_EVENTS
    | FAIL_TIME => fail_if (failed_time cfg r) mtyp idx FAIL_TIME
    | FAIL_UNITS =>
        map (fun nm => mk_FailRecord mtyp idx FAIL_UNITS (Some nm))
          (out_of_range_vars pscale r)
    | FAIL_OBERRS => fail_if (failed_oberrs cfg r) mtyp idx FAIL_OBERRS
    | FAIL_ADPSFC => fail_if (failed_adpsfc cfg pscale r) mtyp idx FAIL_ADPSFC
    end.
Proof.
  unfold subset_failures.
  rewrite !of_kind_app, !of_kind_fail_if, of_kind_units.
  destruct k; repeat (rewrite decide_False by done); rewrite decide_True by done;
    by rewrite ?app_nil_r.
Qed.

Lemma length_fail_if (b : bool) (mtyp : string) (idx : nat) (k : fail_type) (n : nat) :
  (n + length (fail_if b mtyp idx k))%nat = bump b n.
Proof. destruct b; cbn; lia. Qed.

Lemma out_of_range_vars_bounds (pscale : Q) (r : subset) (n : nat) :
  (bump (failed_units pscale r) n
   <= n + length (out_of_range_vars pscale r))%nat
  ∧ (length (out_of_range_vars pscale r)
     <= if failed_units pscale r then 8 else 0)%nat.
Proof.
  unfold failed_units. rewrite out_of_range_vars_nil.
  pose proof (length_filter (fun nm => var_out_of_range pscale r nm = true) UNIT_VARS)
    as Hlen. fold (out_of_range_vars pscale r) in Hlen.
  change (length UNIT_VARS) with 8%nat in Hlen.
  destruct (out_of_range_vars pscale r) as [|x l] eqn:Hv; cbn.
  - lia.
  - cbn in Hlen. lia.
Qed.

Lemma entries_match_counters_subset (cfg : Config) (pscale : Q) (mtyp : string)
    (st : State) (r : subset) :
  entries_match_counters st ->
  entries_match_counters (process_subset cfg pscale mtyp st r).
Proof.
  intros (Hh & He & Ht & Ho & Ha & Hu1 & Hu2).
  unfold entries_match_counters.
  rewrite process_subset_fail_records, !of_kind_app, !of_kind_subset_failures,
    !length_app, length_map.
  rewrite process_subset_bad_hdr, process_subset_no_events,
    process_subset_time_oow, process_subset_miss_oberrs,
    process_subset_miss_adpsfc, process_subset_bad_units.
  rewrite Hh, He, Ht, Ho, Ha, !length_fail_if.
  destruct (out_of_range_vars_bounds pscale r (bad_units st)) as [Hb1 Hb2].
  repeat split; try done; destruct (failed_units pscale r); cbn [bump] in *; lia.
Qed.

Lemma entries_match_counters_main_loop (cfg : Config) (pscale : Q) (f : bufr_file) :
  entries_match_counters (main_loop cfg pscale f).
Proof.
  rewrite main_loop_run_from. apply run_from_invariant.
  - unfold entries_match_counters. cbn. lia.
  - done.
  - intros s mtyp r Hs _. by apply entries_match_counters_subset.
Qed.

(** X4.  In the summary of a run, each counter of a kind that carries no
    variable (header, events, time, observation errors, ADPSFC) is the
    number of entries of that kind in the failure list; the bad-units
    counter counts subsets, so the unit entries number at least as many
    and at most eight times as many. *)
Theorem X4_failure_list_matches_counters (cfg : Config) (f : bufr_file) :
  let st := final (check_file cfg f) in
  length (of_kind FAIL_HDR (fail_records st)) = bad_hdr st
  ∧ length (of_kind FAIL_EVENTS (fail_records st)) = no_events st
  ∧ length (of_kind FAIL_TIME (fail_records st)) = time_oow st
  ∧ length (of_kind FAIL_OBERRS (fail_records st)) = miss_oberrs st
  ∧ length (of_kind FAIL_ADPSFC (fail_records st)) = miss_adpsfc st
  ∧ (bad_units st <= length (of_kind FAIL_UNITS (fail_records st)))%nat
  ∧ (length (of_kind FAIL_UNITS (fail_records st)) <= 8 * bad_units st)%nat.
Proof. cbn zeta. unfold check_file. cbn [final]. apply entries_match_counters_main_loop. Qed.

Lemma count_where_zero (p : subset -> bool) (l : list subset) :
  count_where p l = 0%nat ↔ Forall (fun r => p r = false) l.
Proof.
  induction l as [|r l IH].
  - split; [constructor | done].
  - rewrite count_where_cons. destruct (p r) eqn:Hp; cbn [bump].
    + split; [lia|]. intros H. apply Forall_cons_1 in H as [? _]. congruence.
    + rewrite IH. split.
      * intros H. by constructor.
      * intros H. by apply Forall_cons_1 in H as [_ H].
Qed.

Lemma count_where_le (p : subset -> bool) (l : list subset) :
  (count_where p l <= length l)%nat.
Proof. apply length_filter. Qed.

Lemma count_where_all (p : subset -> bool) (l : list subset) :
  count_where p l = length l ↔ Forall (fun r => p r = true) l.
Proof.
  induction l as [|r l IH].
  - split; [constructor | done].
  - rewrite count_where_cons. cbn [length].
    pose proof (count_where_le p l) as Hle.
    destruct (p r) eqn:Hp; cbn [bump].
    + split.
      * intros H. constructor; [done|]. apply IH. lia.
      * intros H%Forall_cons_1. destruct H as [_ H]. apply IH in H. lia.
    + split; [lia|]. intros H%Forall_cons_1. destruct H; congruence.
Qed.

Lemma of_kind_all_nil (l : list FailRecord) :
  (forall k, length (of_kind k l) = 0%nat) -> l = [].
Proof.
  destruct l as [|fr l]; [done|]. intros H.
  specialize (H (fr_fail_type fr)). unfold of_kind in H.
  rewrite filter_cons, decide_True in H by done. discriminate.
Qed.

Lemma disabled_checks_count_zero (cfg : Config) (pscale : Q) (f : bufr_file) :
  (check_oberrs cfg = false -> miss_oberrs (main_loop cfg pscale f) = 0%nat)
  ∧ (kind cfg ≠ Some "adpsfc" -> miss_adpsfc (main_loop cfg pscale f) = 0%nat).
Proof.
  destruct (main_loop_counts cfg pscale f) as (_ & _ & _ & _ & Ho & Ha & _).
  cbn zeta in *. rewrite Ho, Ha. split; intros H; apply count_where_zero, Forall_forall;
    intros r _.
  - unfold failed_oberrs. by rewrite H.
  - unfold failed_adpsfc. by rewrite bool_decide_eq_false_2.
Qed.

Lemma all_counters_zero_iff_all_approved (cfg : Config) (pscale : Q) (f : bufr_file) :
  let st := main_loop cfg pscale f in
  (bad_hdr st = 0 ∧ no_events st = 0 ∧ time_oow st = 0 ∧ bad_units st = 0
   ∧ miss_oberrs st = 0 ∧ miss_adpsfc st = 0)%nat
  ↔ total (per_type_approved st) = nsub st.
Proof.
  cbn zeta.
  destruct (main_loop_counts cfg pscale f)
    as (Hh & He & Ht & Hu & Ho & Ha & Hap & Hn).
  cbn zeta in *. rewrite Hh, He, Ht, Hu, Ho, Ha, Hap, Hn.
  rewrite !count_where_zero, count_where_all, !Forall_forall.
  split.
  - intros (H1 & H2 & H3 & H4 & H5 & H6) r Hr.
    rewrite <- approved_flags_spec.
    by rewrite H1, H2, H3, H4, H5, H6.
  - intros H. repeat split; intros r Hr; specialize (H r Hr);
      rewrite <- approved_flags_spec in H;
      apply negb_true_iff in H; rewrite !orb_false_iff in H; tauto.
Qed.

(** X5.  The status of a run is PASSOU exactly when its failure list is
    empty, and exactly when the approved counts add up to the number of
    subsets, that is when every subset was approved. *)
Theorem X5_pass_iff_no_failure_iff_all_approved (cfg : Config) (f : bufr_file) :
  let res := check_file cfg f in
  (status res = PASSOU ↔ fail_records (final res) = [])
  ∧ (status res = PASSOU ↔ total (per_type_approved (final res)) = nsub (final res)).
Proof.
  cbn zeta. unfold check_file. cbn [status final].
  set (pscale := _pressure_scale _). set (st := main_loop cfg pscale f).
  destruct (entries_match_counters_main_loop cfg pscale f)
    as (Lh & Le & Lt & Lo & La & Lu1 & Lu2).
  destruct (disabled_checks_count_zero cfg pscale f) as [Do Da].
  fold st in Lh, Le, Lt, Lo, La, Lu1, Lu2, Do, Da.
  assert (Hzero : overall_status cfg st = PASSOU ↔
            (bad_hdr st = 0 ∧ no_events st = 0 ∧ time_oow st = 0 ∧ bad_units st = 0
             ∧ miss_oberrs st = 0 ∧ miss_adpsfc st = 0)%nat).
  { rewrite overall_status_spec. split.
    - intros (?&?&?&?&Ho&Ha). repeat split; try done.
      + destruct Ho as [?|Ho]; [done | by apply Do].
      + destruct Ha as [?|Ha]; [done | by apply Da].
    - intros (?&?&?&?&?&?). repeat split; auto. }
  split.
  - rewrite Hzero. split.
    + intros (H1 & H2 & H3 & H4 & H5 & H6). apply of_kind_all_nil.
      intros k. destruct k; lia.
    + intros Hnil. rewrite Hnil in *. cbn in *. repeat split; lia.
  - rewrite Hzero. apply all_counters_zero_iff_all_approved.
Qed.

(** X6.  A check that is switched off never counts: without
    [check_oberrs] the missing-observation-error counter is 0 and the
    failure list has no entry of that kind; with a kind other than
    adpsfc the same holds for the ADPSFC counter and entries. *)
Theorem X6_disabled_checks_never_count (cfg : Config) (f : bufr_file) :
  let st := final (check_file cfg f) in
  (check_oberrs cfg = false ->
     miss_oberrs st = 0%nat ∧ of_kind FAIL_OBERRS (fail_records st) = [])
  ∧ (kind cfg ≠ Some "adpsfc" ->
     miss_adpsfc st = 0%nat ∧ of_kind FAIL_ADPSFC (fail_records st) = []).
Proof.
  cbn zeta. unfold check_file. cbn [final].
  set (pscale := _pressure_scale _).
  destruct (entries_match_counters_main_loop cfg pscale f)
    as (_ & _ & _ & Lo & La & _).
  destruct (disabled_checks_count_zero cfg pscale f) as [Do Da].
  split; intros H.
  - specialize (Do H). split; [done|]. apply length_zero_iff_nil. by rewrite Lo.
  - specialize (Da H). split; [done|]. apply length_zero_iff_nil. by rewrite La.
Qed.

Lemma X6_witness :
  let st := final (check_file default_config (one_message [bare_subset])) in
  check_oberrs default_config = false
  ∧ kind default_config ≠ Some "adpsfc"
  ∧ (miss_oberrs st = 0%nat ∧ of_kind FAIL_OBERRS (fail_records st) = [])
  ∧ (miss_adpsfc st = 0%nat ∧ of_kind FAIL_ADPSFC (fail_records st) = []).
Proof.
  cbn zeta.
  split; [reflexivity|]. split; [discriminate|].
  split.
  - apply (proj1 (X6_disabled_checks_never_count default_config
                    (one_message [bare_subset]))). reflexivity.
  - apply (proj2 (X6_disabled_checks_never_count default_config
                    (one_message [bare_subset]))). discriminate.
Defined.

(* ------------------------------------------------------------------ *)
(** ** The unit loop, the per-variable table and the "where" samples *)

Lemma units_loop_invariant (P : UnitsAcc -> Prop) (wmax : Z) (pscale : Q)
    (mtyp : string) (idx : nat) (xob yob dhr : option pyfloat) (r : subset)
    (names : list string) (acc : UnitsAcc) :
  P acc ->
  (forall a nm, P a -> nm ∈ names -> var_out_of_range pscale r nm = true ->
     P (mk_UnitsAcc true (inc (ua_by_var a) (mtyp, nm))
          (add_where true wmax (ua_where a)
             (_fmt_where mtyp idx xob yob dhr (" var=" ++ nm)%string))
          (ua_fails a ++ [mk_FailRecord mtyp idx FAIL_UNITS (Some nm)]))) ->
  P (units_loop wmax pscale mtyp idx xob yob dhr r names acc).
Proof.
  revert acc. induction names as [|nm rest IH]; intros acc Hacc Hstep; [done|].
  cbn [units_loop]. apply IH.
  - pose proof (check_range_spec pscale r nm) as Hspec.
    rewrite _read1_present. destruct (present r nm); [|done].
    cbn [andb] in Hspec. destruct (negb (check_range pscale r nm)); [|done].
    apply Hstep; [done | apply list_elem_of_here | done].
  - intros a nm' Ha Hin. apply Hstep; [done|]. by apply list_elem_of_further.
Qed.

Lemma process_subset_units_acc (cfg : Config) (pscale : Q) (mtyp : string)
    (st : State) (r : subset) :
  let st' := process_subset cfg pscale mtyp st r in
  let ua := units_acc_of cfg pscale mtyp st r in
  units_by_var_and_type st' = ua_by_var ua
  ∧ where_units st' = ua_where ua
  ∧ fail_records st'
    = ua_fails ua
      ++ fail_if (failed_oberrs cfg r) mtyp (S (nsub st)) FAIL_OBERRS
      ++ fail_if (failed_adpsfc cfg pscale r) mtyp (S (nsub st)) FAIL_ADPSFC.
Proof.
  cbn zeta. unfold process_subset, units_acc_of.
  cbn [units_by_var_and_type where_units fail_records].
  rewrite oberrs_flag_spec, adpsfc_flag_spec.
  rewrite header_check_spec, seq_ok_spec, time_check_spec.
  unfold failed_header, failed_events, failed_time. done.
Qed.

Lemma units_entries_app (mt nm : string) (l1 l2 : list FailRecord) :
  units_entries mt nm (l1 ++ l2) = units_entries mt nm l1 ++ units_entries mt nm l2.
Proof. apply filter_app. Qed.

Lemma units_entries_fail_if (mt nm : string) (b : bool) (mtyp : string)
    (idx : nat) (k : fail_type) :
  units_entries mt nm (fail_if b mtyp idx k) = [].
Proof.
  unfold units_entries, fail_if. destruct b; [|done].
  rewrite filter_cons, decide_False; [done|]. cbn. intros (_ & _ & ?). discriminate.
Qed.

Lemma lookup_inc_default {K} `{Countable K} (d : gmap K nat) (k k' : K) :
  default 0%nat (inc d k !! k')
  = if decide (k = k') then S (default 0%nat (d !! k')) else default 0%nat (d !! k').
Proof.
  unfold inc. destruct (decide (k = k')) as [<-|Hne].
  - rewrite lookup_insert_eq. cbn. lia.
  - by rewrite lookup_insert_ne.
Qed.

Lemma vars_table_ok_subset (cfg : Config) (pscale : Q) (mtyp : string)
    (st : State) (r : subset) :
  vars_table_ok (units_by_var_and_type st) (fail_records st) ->
  vars_table_ok (units_by_var_and_type (process_subset cfg pscale mtyp st r))
    (fail_records (process_subset cfg pscale mtyp st r)).
Proof.
  intros [Hcell Hpos].
  destruct (process_subset_units_acc cfg pscale mtyp st r) as (Hu & _ & Hf).
  rewrite Hu, Hf. clear Hu Hf.
  assert (Hua : vars_table_ok (ua_by_var (units_acc_of cfg pscale mtyp st r))
                  (ua_fails (units_acc_of cfg pscale mtyp st r))).
  { unfold units_acc_of. apply units_loop_invariant.
    - cbn [ua_by_var ua_fails]. split; [|done]. intros mt nm.
      by rewrite !units_entries_app, !units_entries_fail_if, !app_nil_r.
    - intros a nm [Hc Hp] _ _. cbn [ua_by_var ua_fails]. split.
      + intros mt nm'. rewrite units_entries_app, length_app, <- Hc.
        rewrite lookup_inc_default. unfold units_entries.
        rewrite filter_cons, filter_nil. cbn [fr_fail_type fr_msg_type fr_var].
        destruct (decide ((mtyp, nm) = (mt, nm'))) as [Heq|Hne].
        * injection Heq as -> ->. rewrite decide_True by done. cbn. lia.
        * rewrite decide_False; [cbn; lia|]. intros (_ & -> & [= ->]). done.
      + intros key v. unfold inc. destruct (decide ((mtyp, nm) = key)) as [<-|Hne].
        * rewrite lookup_insert_eq. intros [= <-]. lia.
        * rewrite lookup_insert_ne by done. apply Hp. }
  destruct Hua as [Hc Hp]. split; [|done]. intros mt nm.
  by rewrite !units_entries_app, !units_entries_fail_if, !app_nil_r.
Qed.

(** X7.  The per-variable table of unit failures agrees with the failure
    list: the count kept for a message type and a variable is the number
    of bad-units entries of that type and variable, and the table holds
    no zero, so every row of the per-variable report has a positive
    count. *)
Theorem X7_per_variable_table_matches_entries (cfg : Config) (pscale : Q)
    (f : bufr_file) :
  let st := main_loop cfg pscale f in
  (forall mt nm,
     default 0%nat (units_by_var_and_type st !! (mt, nm))
     = length (units_entries mt nm (fail_records st)))
  ∧ map_Forall (fun _ v => (0 < v)%nat) (units_by_var_and_type st).
Proof.
  cbn zeta. rewrite main_loop_run_from.
  apply (run_from_invariant cfg pscale
           (fun s => vars_table_ok (units_by_var_and_type s) (fail_records s))).
  - split; [done|]. intros key v Hk. cbn in Hk. by rewrite lookup_empty in Hk.
  - done.
  - intros s mtyp r Hs _. by apply vars_table_ok_subset.
Qed.

Lemma where_room_cap (wmax : Z) (w : list WhereLine) :
  where_room wmax w = (length w <? Z.to_nat wmax)%nat.
Proof.
  unfold where_room.
  destruct (Z.eqb_spec wmax 0) as [->|Hne]; cbn [negb andb].
  - symmetry. apply Nat.ltb_ge. cbn. lia.
  - destruct (Z.ltb_spec (Z.of_nat (length w)) wmax);
      symmetry; [apply Nat.ltb_lt | apply Nat.ltb_ge]; lia.
Qed.

Lemma length_add_where (b : bool) (wmax : Z) (w : list WhereLine)
    (line : WhereLine) (n : nat) :
  length w = Nat.min n (Z.to_nat wmax) ->
  length (add_where b wmax w line) = Nat.min (bump b n) (Z.to_nat wmax).
Proof.
  intros Hlen. unfold add_where. rewrite where_room_cap.
  destruct b; cbn [andb bump]; [|done].
  destruct (Nat.ltb_spec (length w) (Z.to_nat wmax)).
  - rewrite length_app. change (length [line]) with 1%nat. lia.
  - lia.
Qed.

Lemma where_lengths_ok_subset (cfg : Config) (pscale : Q) (mtyp : string)
    (st : State) (r : subset) :
  where_lengths_ok cfg st ->
  where_lengths_ok cfg (process_subset cfg pscale mtyp st r).
Proof.
  intros (Hh & He & Ht & Hu). unfold where_lengths_ok.
  rewrite process_subset_bad_hdr, process_subset_no_events, process_subset_time_oow.
  split; [|split; [|split]].
  - unfold process_subset. cbn [where_hdr]. rewrite header_check_spec.
    by apply length_add_where.
  - unfold process_subset. cbn [where_events]. rewrite seq_ok_spec.
    by apply length_add_where.
  - unfold process_subset. cbn [where_time]. rewrite time_check_spec.
    by apply length_add_where.
  - destruct (process_subset_units_acc cfg pscale mtyp st r) as (_ & Hw & Hf).
    rewrite Hw, Hf, !of_kind_app, !of_kind_fail_if.
    repeat (rewrite decide_False by done). rewrite !app_nil_r.
    unfold units_acc_of. apply units_loop_invariant.
    + cbn [ua_where ua_fails]. rewrite !of_kind_app, !of_kind_fail_if.
      repeat (rewrite decide_False by done). by rewrite !app_nil_r.
    + intros a nm Ha _ _. cbn [ua_where ua_fails].
      rewrite of_kind_app, length_app. unfold of_kind at 2.
      rewrite filter_cons, decide_True by done. cbn [length filter].
      rewrite (length_add_where true _ _ _ _ Ha). cbn [bump]. unfold where_cap.
      rewrite filter_nil. change (length (@nil FailRecord)) with 0%nat.
      f_equal. lia.
Qed.

(** X8.  The "where" samples never exceed the cap: each of the four
    lists holds as many lines as there were failures of its kind, up to
    [where_max] (unit failures counted per variable); with the default
    cap 0, or a negative one, the lists stay empty. *)
Theorem X8_where_samples_capped (cfg : Config) (f : bufr_file) :
  let st := final (check_file cfg f) in
  length (where_hdr st) = Nat.min (bad_hdr st) (where_cap cfg)
  ∧ length (where_events st) = Nat.min (no_events st) (where_cap cfg)
  ∧ length (where_time st) = Nat.min (time_oow st) (where_cap cfg)
  ∧ length (where_units st)
    = Nat.min (length (of_kind FAIL_UNITS (fail_records st))) (where_cap cfg).
Proof.
  cbn zeta. unfold check_file. cbn [final]. rewrite main_loop_run_from.
  apply (run_from_invariant cfg _ (where_lengths_ok cfg)).
  - unfold where_lengths_ok. cbn. repeat split; lia.
  - done.
  - intros s mtyp r Hs _. by apply where_lengths_ok_subset.
Qed.

(* ------------------------------------------------------------------ *)
(** ** Shape of the failure entries *)

Lemma fail_record_ok_mono (n m : nat) (fr : FailRecord) :
  (n <= m)%nat -> fail_record_ok n fr -> fail_record_ok m fr.
Proof. intros Hle [Hidx Hvar]. split; [lia | done]. Qed.

Lemma subset_failures_ok (cfg : Config) (pscale : Q) (mtyp : string)
    (n : nat) (r : subset) :
  Forall (fail_record_ok (S n)) (subset_failures cfg pscale mtyp (S n) r).
Proof.
  assert (Hif : forall b k, k ≠ FAIL_UNITS ->
            Forall (fail_record_ok (S n)) (fail_if b mtyp (S n) k)).
  { intros b k Hk. unfold fail_if. destruct b; [|constructor].
    constructor; [|constructor]. split; cbn; [lia | done]. }
  unfold subset_failures. rewrite !Forall_app.
  repeat split; try (apply Hif; done).
  apply Forall_forall. intros fr Hfr.
  apply list_elem_of_fmap in Hfr as (nm & -> & Hnm).
  unfold out_of_range_vars in Hnm. apply list_elem_of_filter in Hnm as [_ Hnm].
  split; cbn; [lia | done].
Qed.

Lemma fail_records_ok_main_loop (cfg : Config) (pscale : Q) (f : bufr_file) :
  Forall (fail_record_ok (nsub (main_loop cfg pscale f)))
    (fail_records (main_loop cfg pscale f)).
Proof.
  rewrite main_loop_run_from.
  apply (run_from_invariant cfg pscale
           (fun s => Forall (fail_record_ok (nsub s)) (fail_records s))).
  - constructor.
  - done.
  - intros s mtyp r Hs _.
    rewrite process_subset_fail_records, process_subset_nsub.
    apply Forall_app. split; [|apply subset_failures_ok].
    eapply Forall_impl; [exact Hs|]. intros fr. apply fail_record_ok_mono. lia.
Qed.

(** X9.  Every entry of the failure list has a subset number between 1
    and the number of subsets read, and names a variable exactly when it
    is a bad-units entry, the variable then being one of the eight base
    names; so the last column of the detailed report is blank exactly on
    the rows that are not bad-units rows. *)
Theorem X9_failure_entries_well_formed (cfg : Config) (f : bufr_file)
    (src_path : string) :
  let res := check_file cfg f in
  Forall (fail_record_ok (nsub (final res))) (fail_records (final res))
  ∧ Forall (fun row => rr_var row = "" ↔ rr_fail_type row ≠ FAIL_UNITS)
      (_write_report_csv src_path (pressure_unit_used res) (final res)).
Proof.
  cbn zeta. unfold check_file. cbn [final pressure_unit_used].
  set (pscale := _pressure_scale _).
  pose proof (fail_records_ok_main_loop cfg pscale f) as Hok.
  split; [done|].
  unfold _write_report_csv. apply Forall_fmap.
  eapply Forall_impl; [exact Hok|].
  intros fr [_ Hvar]. cbn [rr_var rr_fail_type compose].
  destruct (fr_var fr) as [nm|].
  - destruct Hvar as [Hk Hnm]. rewrite Hk.
    destruct (decide (nm = "")) as [->|Hne].
    + exfalso. revert Hnm. unfold UNIT_VARS.
      rewrite !elem_of_cons, elem_of_nil. intros H.
      repeat (destruct H as [H|H]; [discriminate|]). done.
    + split; [done | intros H; by destruct H].
  - split; [done | done].
Qed.

(* ------------------------------------------------------------------ *)
(** ** The dictionaries keyed by message type *)

#[local] Set Warnings "-clear-no-such-hyp".

(** X10.  The raw inventory [types] and [per_type_total] are the same
    dictionary at the end of a run: both hold, for every message type
    met, the number of its subsets. *)
Theorem X10_types_equals_per_type_total (cfg : Config) (pscale : Q)
    (f : bufr_file) :
  types (main_loop cfg pscale f) = per_type_total (main_loop cfg pscale f).
Proof.
  rewrite main_loop_run_from.
  apply (run_from_invariant cfg pscale (fun s => types s = per_type_total s)).
  - done.
  - intros s mtyp Hs. unfold start_message, ensure_key.
    cbn [types per_type_total]. rewrite Hs.
    destruct (per_type_total s !! mtyp) eqn:Hk.
    + by rewrite bool_decide_eq_false_2.
    + by rewrite bool_decide_eq_true_2.
  - intros s mtyp r Hs _. unfold process_subset. cbn [types per_type_total].
    by rewrite Hs.
Qed.

Lemma dom_inc_present (d : gmap string nat) (k : string) :
  k ∈ dom d -> dom (inc d k) = dom d.
Proof. intros Hk. unfold inc. rewrite dom_insert_L. set_solver. Qed.

Lemma dom_inc_if_present (b : bool) (d : gmap string nat) (k : string) :
  k ∈ dom d -> dom (inc_if b d k) = dom d.
Proof. destruct b; [apply dom_inc_present | done]. Qed.

Lemma doms_agree_start (mtyp : string) (st : State) :
  doms_agree st -> doms_agree (start_message mtyp st).
Proof.
  unfold doms_agree, per_type_dicts, start_message, ensure_key.
  cbn [types per_type_total per_type_approved per_type_bad_hdr per_type_no_events
       per_type_time_oow per_type_bad_units per_type_miss_oberrs
       per_type_miss_adpsfc].
  intros H. split_Forall.
  case_bool_decide as Hfresh.
  - assert (Ht : types st !! mtyp = None).
    { apply not_elem_of_dom. apply not_elem_of_dom in Hfresh. congruence. }
    rewrite Ht. repeat constructor; rewrite !dom_insert_L; congruence.
  - assert (Ht : is_Some (types st !! mtyp)).
    { apply elem_of_dom. apply not_eq_None_Some, elem_of_dom in Hfresh. congruence. }
    destruct Ht as [v ->]. repeat constructor; done.
Qed.

Lemma doms_agree_subset (cfg : Config) (pscale : Q) (mtyp : string)
    (st : State) (r : subset) :
  doms_agree st -> is_Some (per_type_total st !! mtyp) ->
  doms_agree (process_subset cfg pscale mtyp st r).
Proof.
  unfold doms_agree, per_type_dicts. intros H Hk. apply elem_of_dom in Hk.
  rewrite process_subset_per_type_approved, process_subset_per_type_bad_hdr,
    process_subset_per_type_no_events, process_subset_per_type_time_oow,
    process_subset_per_type_bad_units, process_subset_per_type_miss_oberrs,
    process_subset_per_type_miss_adpsfc, process_subset_per_type_total.
  change (types (process_subset cfg pscale mtyp st r)) with (inc (types st) mtyp).
  split_Forall.
  rewrite (dom_inc_present (per_type_total st)) by done.
  repeat constructor;
    (rewrite dom_inc_if_present || rewrite dom_inc_present); congruence.
Qed.

Lemma run_from_dom_total (cfg : Config) (pscale : Q) (f : bufr_file) (st : State) :
  dom (per_type_total (run_from cfg pscale st f))
  = dom (per_type_total st) ∪ message_types f.
Proof.
  revert st. induction f as [|m rest IH]; intros st.
  { unfold message_types. cbn. set_solver. }
  unfold run_from in *. cbn [fold_left]. rewrite IH.
  assert (Hm : dom (per_type_total (process_message cfg pscale st m))
               = dom (per_type_total st) ∪ {[msg_type m]}).
  { unfold process_message.
    pose proof (start_message_key (msg_type m) st) as Hk.
    assert (Hs : dom (per_type_total (start_message (msg_type m) st))
                 = dom (per_type_total st) ∪ {[msg_type m]}).
    { unfold start_message. cbn [per_type_total]. case_bool_decide as Hfresh.
      - rewrite dom_insert_L. set_solver.
      - apply not_eq_None_Some, elem_of_dom in Hfresh. set_solver. }
    rewrite <- Hs. revert Hk. generalize (start_message (msg_type m) st).
    induction (subsets m) as [|r l IHl]; intros s Hk; [done|].
    cbn [fold_left]. rewrite IHl by by apply process_subset_key.
    rewrite process_subset_per_type_total. apply dom_inc_present.
    by apply elem_of_dom. }
  rewrite Hm. unfold message_types. cbn [map list_to_set]. set_solver.
Qed.

(** X11.  At the end of a run every dictionary keyed by message type
    (the inventory, the totals, the approved counts and the six failure
    counts) has exactly the message types of the file as keys, also a
    type whose messages hold no subset; the [.get(k, 0)] lookups of the
    per-type report therefore never fall back on their default. *)
Theorem X11_per_type_keys_are_message_types (cfg : Config) (f : bufr_file) :
  let st := final (check_file cfg f) in
  Forall (fun d : gmap string nat => dom d = message_types f)
    (types st :: per_type_total st :: per_type_dicts st).
Proof.
  cbn zeta. unfold check_file. cbn [final]. rewrite main_loop_run_from.
  set (pscale := _pressure_scale _). set (st := run_from cfg pscale init_state f).
  assert (Hd : doms_agree st).
  { apply run_from_invariant.
    - unfold doms_agree, per_type_dicts. cbn. repeat constructor.
    - intros s mtyp. apply doms_agree_start.
    - intros s mtyp r. apply doms_agree_subset. }
  assert (Ht : dom (per_type_total st) = message_types f).
  { subst st. rewrite run_from_dom_total. cbn. set_solver. }
  unfold doms_agree in Hd. rewrite Ht in Hd.
  apply Forall_cons_1 in Hd as [H0 Hd].
  constructor; [done|]. constructor; [done|]. done.
Qed.

Lemma lookup_inc_if_default (b : bool) (d : gmap string nat) (k k' : string) :
  default 0%nat (inc_if b d k !! k')
  = if decide (k = k') then bump b (default 0%nat (d !! k'))
    else default 0%nat (d !! k').
Proof.
  destruct b; cbn [inc_if bump].
  - apply lookup_inc_default.
  - by destruct (decide (k = k')).
Qed.

Lemma per_type_bounded_start (mtyp : string) (st : State) :
  per_type_bounded st -> per_type_bounded (start_message mtyp st).
Proof.
  unfold per_type_bounded, per_type_dicts, start_message.
  cbn [per_type_total per_type_approved per_type_bad_hdr per_type_no_events
       per_type_time_oow per_type_bad_units per_type_miss_oberrs
       per_type_miss_adpsfc].
  intros H k. specialize (H k). split_Forall.
  case_bool_decide as Hfresh; [|repeat constructor; done].
  destruct (decide (mtyp = k)) as [->|Hne].
  - repeat constructor; by rewrite !lookup_insert_eq.
  - repeat constructor; by rewrite !lookup_insert_ne.
Qed.

Lemma per_type_bounded_subset (cfg : Config) (pscale : Q) (mtyp : string)
    (st : State) (r : subset) :
  per_type_bounded st -> per_type_bounded (process_subset cfg pscale mtyp st r).
Proof.
  unfold per_type_bounded, per_type_dicts. intros H k. specialize (H k).
  rewrite process_subset_per_type_approved, process_subset_per_type_bad_hdr,
    process_subset_per_type_no_events, process_subset_per_type_time_oow,
    process_subset_per_type_bad_units, process_subset_per_type_miss_oberrs,
    process_subset_per_type_miss_adpsfc, process_subset_per_type_total.
  split_Forall.
  repeat constructor; rewrite lookup_inc_default, lookup_inc_if_default;
    destruct (decide (mtyp = k)); try done;
    match goal with |- (bump ?b _ <= _)%nat => destruct b; cbn [bump]; lia end.
Qed.

Lemma approved_pct_bounds (tot app : nat) :
  (app <= tot)%nat -> (0 <= approved_pct tot app)%Q ∧ (approved_pct tot app <= 100)%Q.
Proof.
  intros Hle. unfold approved_pct.
  destruct (Nat.ltb_spec 0 tot) as [Hpos|Hzero]; [|split; [lra | lra]].
  assert (Ht : (0 < inject_Z (Z.of_nat tot))%Q).
  { change 0%Q with (inject_Z 0). rewrite <- Zlt_Qlt. lia. }
  assert (Ha : (0 <= inject_Z (Z.of_nat app))%Q).
  { change 0%Q with (inject_Z 0). rewrite <- Zle_Qle. lia. }
  assert (Hat : (inject_Z (Z.of_nat app) <= inject_Z (Z.of_nat tot))%Q).
  { rewrite <- Zle_Qle. lia. }
  split.
  - apply Qle_shift_div_l; [done|]. lra.
  - apply Qle_shift_div_r; [done|]. lra.
Qed.

(** X12.  In every row of the per-type report the approved count and
    each of the six failure counts is at most the total of the type, and
    the approved percentage lies between 0 and 100. *)
Theorem X12_per_type_rows_bounded (cfg : Config) (f : bufr_file) (k : string) :
  let row := csv_row (final (check_file cfg f)) k in
  Forall (fun n => (n <= c_total row)%nat)
    [ c_approved row; c_bad_hdr row; c_no_events row; c_time_oow row;
      c_bad_units row; c_missing_oberrs row; c_missing_adpsfc_fields row ]
  ∧ (0 <= c_approved_pct row)%Q
  ∧ (c_approved_pct row <= 100)%Q.
Proof.
  cbn zeta. unfold check_file. cbn [final]. rewrite main_loop_run_from.
  set (st := run_from cfg _ init_state f).
  assert (Hb : per_type_bounded st).
  { apply run_from_invariant.
    - intros k'. unfold per_type_dicts. cbn. repeat constructor.
    - intros s mtyp. apply per_type_bounded_start.
    - intros s mtyp r Hs _. by apply per_type_bounded_subset. }
  specialize (Hb k). unfold per_type_dicts in Hb.
  unfold csv_row.
  cbn [c_total c_approved c_bad_hdr c_no_events c_time_oow c_bad_units
       c_missing_oberrs c_missing_adpsfc_fields c_approved_pct].
  split.
  { split_Forall. repeat constructor; done. }
  apply Forall_cons_1 in Hb as [Ha _].
  destruct (approved_pct_bounds _ _ Ha) as [H0 H100].
  split; done.
Qed.

(* ------------------------------------------------------------------ *)
(** ** The unit that is used, and the sampling pass *)

Lemma unit_of_median_cases (med : Q) :
  unit_of_median med ∈ ["hpa"; "cb"; "pa"].
Proof.
  unfold unit_of_median, PRESSURE_AUTODETECT_THRESH.
  destruct (in_window _ med); [apply list_elem_of_here|].
  destruct (in_window _ med); [apply list_elem_of_further, list_elem_of_here|].
  destruct (in_window _ med);
    [do 2 apply list_elem_of_further; apply list_elem_of_here
    | apply list_elem_of_here].
Qed.

Lemma _autodetect_pressure_unit_cases (f : bufr_file) (max_samples : nat) :
  _autodetect_pressure_unit f max_samples ∈ ["hpa"; "cb"; "pa"].
Proof.
  unfold _autodetect_pressure_unit.
  destruct (collect_samples max_samples f); [apply list_elem_of_here|].
  destruct (median _); [apply unit_of_median_cases | apply list_elem_of_here].
Qed.

(** X13.  The unit a run settles on is always hpa, cb or pa, never auto
    and never an unknown name, so the scale factor applied to pressures
    is always 1, 10 or 1/100. *)
Theorem X13_resolved_unit_is_concrete (cfg : Config) (f : bufr_file) :
  let u := pressure_unit_used (check_file cfg f) in
  u ∈ ["hpa"; "cb"; "pa"]
  ∧ _pressure_scale u ∈ [1%Q; 10%Q; (1 / 100)%Q].
Proof.
  cbn zeta. unfold check_file. cbn [pressure_unit_used].
  assert (Hu : resolve_pressure_unit cfg f ∈ ["hpa"; "cb"; "pa"]).
  { unfold resolve_pressure_unit.
    destruct (decide (_ = "auto")) as [_|Hna];
      [apply _autodetect_pressure_unit_cases|].
    case_bool_decide as Hin; [|apply list_elem_of_here].
    revert Hin Hna. unfold PRESSURE_UNITS.
    rewrite !elem_of_cons, !elem_of_nil. intros [->|[->|[->|[->|[]]]]] Hna; auto. }
  split; [done|].
  revert Hu. rewrite !elem_of_cons, !elem_of_nil.
  intros [->|[->|[->|[]]]]; vm_compute; auto.
Qed.

Lemma sample_names_take (max_samples : nat) (r : subset) (names : list string)
    (vals : list Q) (cnt : nat) :
  length vals = cnt -> (cnt < max_samples)%nat ->
  let kept := vals ++ take (max_samples - cnt) (omap (sample_of r) names) in
  sample_names max_samples r names vals cnt = (kept, length kept).
Proof.
  revert vals cnt. induction names as [|nm rest IH]; intros vals cnt Hlen Hlt.
  { cbn. by rewrite take_nil, app_nil_r, Hlen. }
  cbn zeta in *. cbn [sample_names].
  change (omap (sample_of r) (nm :: rest))
    with (match sample_of r nm with
          | Some q => q :: omap (sample_of r) rest
          | None => omap (sample_of r) rest
          end).
  remember (sample_of r nm) as s eqn:Hs. unfold sample_of in Hs. cbn zeta in Hs.
  destruct (Nat.eqb (size (read_subset r nm)) 0); [subst s; by apply IH|].
  destruct (first_of_first (read_subset r nm)) as [v|]; [|subst s; by apply IH].
  destruct (finite_positive v) as [q|]; subst s; [|by apply IH].
  destruct (Nat.leb_spec max_samples (S cnt)) as [Hmax|Hmax].
  - replace (max_samples - cnt)%nat with 1%nat by lia.
    cbn [take]. rewrite take_0. rewrite length_app. cbn. f_equal. lia.
  - rewrite IH; [|rewrite length_app; cbn; lia | lia].
    replace (max_samples - cnt)%nat with (S (max_samples - S cnt)) by lia.
    cbn [take]. by rewrite <- !app_assoc.
Qed.

Lemma sample_subsets_take (max_samples : nat) (subs : list subset)
    (vals : list Q) (cnt : nat) :
  length vals = cnt -> (cnt <= max_samples)%nat ->
  let kept := vals ++ take (max_samples - cnt)
                        (concat (map subset_samples subs)) in
  sample_subsets max_samples subs vals cnt = (kept, length kept).
Proof.
  revert vals cnt. induction subs as [|r rest IH]; intros vals cnt Hlen Hle.
  { cbn. by rewrite take_nil, app_nil_r, Hlen. }
  cbn zeta in *. cbn [sample_subsets map concat].
  destruct (Nat.ltb_spec cnt max_samples) as [Hlt|Hge].
  - rewrite (sample_names_take max_samples r ["POB"; "PRSS"] vals cnt Hlen Hlt).
    change (omap (sample_of r) ["POB"; "PRSS"]) with (subset_samples r).
    set (S_r := subset_samples r).
    rewrite IH; [|done|rewrite length_app, length_take; lia].
    rewrite take_app, length_app, length_take, <- app_assoc, Hlen.
    replace (max_samples - (cnt + Nat.min (max_samples - cnt) (length S_r)))%nat
      with (max_samples - cnt - length S_r)%nat by lia.
    done.
  - replace (max_samples - cnt)%nat with 0%nat by lia.
    by rewrite take_0, app_nil_r, Hlen.
Qed.

Lemma sample_messages_take (max_samples : nat) (f : bufr_file)
    (vals : list Q) (cnt : nat) :
  length vals = cnt -> (cnt <= max_samples)%nat ->
  let kept := vals ++ take (max_samples - cnt) (all_samples f) in
  sample_messages max_samples f vals cnt = (kept, length kept).
Proof.
  revert vals cnt. induction f as [|m rest IH]; intros vals cnt Hlen Hle.
  { cbn. by rewrite take_nil, app_nil_r, Hlen. }
  cbn zeta in *. cbn [sample_messages].
  assert (Hall : all_samples (m :: rest)
                 = concat (map subset_samples (subsets m)) ++ all_samples rest).
  { unfold all_samples, all_subsets. cbn [map concat].
    by rewrite map_app, concat_app. }
  rewrite Hall. set (S_m := concat (map subset_samples (subsets m))).
  destruct (Nat.ltb_spec cnt max_samples) as [Hlt|Hge].
  - rewrite (sample_subsets_take max_samples (subsets m) vals cnt Hlen Hle).
    fold S_m.
    rewrite IH; [|done|rewrite length_app, length_take; lia].
    rewrite take_app, length_app, length_take, <- app_assoc, Hlen.
    replace (max_samples - (cnt + Nat.min (max_samples - cnt) (length S_m)))%nat
      with (max_samples - cnt - length S_m)%nat by lia.
    done.
  - replace (max_samples - cnt)%nat with 0%nat by lia.
    by rewrite take_0, app_nil_r, Hlen.
Qed.

(** X14.  The sampling pass of the autodetection keeps the first
    [max_samples] usable values of the file, in decode order: a usable
    value is the first element of POB, then of PRSS, of a subset, when
    it is finite and positive.  With a cap of 0 nothing is sampled. *)
Theorem X14_sampling_keeps_first_values (max_samples : nat) (f : bufr_file) :
  collect_samples max_samples f = take max_samples (all_samples f).
Proof.
  unfold collect_samples.
  rewrite (sample_messages_take max_samples f [] 0%nat); [|done|lia].
  cbn [fst app]. by rewrite Nat.sub_0_r.
Qed.

Lemma nth_sorted_elem (data : list Q) (i : nat) :
  (i < length data)%nat -> nth i (sorted data) 0%Q ∈ data.
Proof.
  intros Hi.
  apply (elem_of_Permutation_proper _ _ _ (sorted_perm data)).
  apply list_elem_of_In, nth_In. by rewrite sorted_length.
Qed.

(** The median of values that all satisfy a convex property satisfies it. *)
Lemma median_convex (P : Q -> Prop) (data : list Q) (med : Q) :
  (forall a b, P a -> P b -> P ((a + b) / 2)%Q) ->
  Forall P data -> median data = Some med -> P med.
Proof.
  intros Hconv Hall. unfold median. rewrite sorted_length.
  rewrite Forall_forall in Hall.
  destruct (Nat.eqb_spec (length data) 0) as [|Hn]; [done|].
  assert (Hhalf : (length data / 2 < length data)%nat)
    by (apply Nat.div_lt; lia).
  destruct (Nat.eqb (length data mod 2) 1).
  - intros [= <-]. by apply Hall, nth_sorted_elem.
  - intros [= <-]. apply Hconv; apply Hall, nth_sorted_elem; [|done].
    eapply Nat.le_lt_trans; [apply Nat.le_sub_l | exact Hhalf].
Qed.

Lemma Qmid_ge (lo a b : Q) : (lo <= a -> lo <= b -> lo <= (a + b) / 2)%Q.
Proof. intros. apply Qle_shift_div_l; [reflexivity|]. lra. Qed.

Lemma Qmid_le (hi a b : Q) : (a <= hi -> b <= hi -> (a + b) / 2 <= hi)%Q.
Proof. intros. apply Qle_shift_div_r; [reflexivity|]. lra. Qed.

Lemma Qmid_lt (hi a b : Q) : (a < hi -> b < hi -> (a + b) / 2 < hi)%Q.
Proof. intros. apply Qlt_shift_div_r; [reflexivity|]. lra. Qed.

(** X15.  When every collected sample lies in the window of one unit,
    the autodetection returns that unit: all samples between 50 and
    1100 give hpa, all between 5000 and 110000 give pa, and all from 5
    up to but excluding 50 give cb. *)
Theorem X15_uniform_samples_give_their_unit (f : bufr_file)
    (max_samples : nat) (u : string) :
  collect_samples max_samples f ≠ [] ->
  (u = "hpa" ∧ Forall (fun q => (50 <= q)%Q ∧ (q <= 1100)%Q)
                 (collect_samples max_samples f))
  ∨ (u = "cb" ∧ Forall (fun q => (5 <= q)%Q ∧ (q < 50)%Q)
                  (collect_samples max_samples f))
  ∨ (u = "pa" ∧ Forall (fun q => (5000 <= q)%Q ∧ (q <= 110000)%Q)
                  (collect_samples max_samples f)) ->
  _autodetect_pressure_unit f max_samples = u.
Proof.
  intros Hne Hall. unfold _autodetect_pressure_unit.
  destruct (collect_samples max_samples f) as [|x l] eqn:Hv; [done|].
  destruct (median (x :: l)) as [med|] eqn:Hmed.
  2: { destruct (median_is_Some (x :: l)) as [_ H]. destruct H as [? ?]; congruence. }
  unfold unit_of_median, PRESSURE_AUTODETECT_THRESH.
  destruct Hall as [[-> Hall] | [[-> Hall] | [-> Hall]]].
  - assert (Hm : (50 <= med)%Q ∧ (med <= 1100)%Q).
    { apply (median_convex (fun q => (50 <= q)%Q ∧ (q <= 1100)%Q) (x :: l) med);
        [|done|done].
      intros a b [? ?] [? ?].
      split; auto using Qmid_ge, Qmid_le, Qmid_lt. }
    by rewrite (proj2 (in_window_iff 50 1100 med) Hm).
  - assert (Hm : (5 <= med)%Q ∧ (med < 50)%Q).
    { apply (median_convex (fun q => (5 <= q)%Q ∧ (q < 50)%Q) (x :: l) med);
        [|done|done].
      intros a b [? ?] [? ?].
      split; auto using Qmid_ge, Qmid_le, Qmid_lt. }
    assert (H1 : in_window (50, 1100)%Q med = false).
    { apply not_true_iff_false. rewrite in_window_iff. lra. }
    assert (H2 : in_window (5, 110)%Q med = true).
    { apply in_window_iff. lra. }
    by rewrite H1, H2.
  - assert (Hm : (5000 <= med)%Q ∧ (med <= 110000)%Q).
    { apply (median_convex (fun q => (5000 <= q)%Q ∧ (q <= 110000)%Q) (x :: l) med);
        [|done|done].
      intros a b [? ?] [? ?].
      split; auto using Qmid_ge, Qmid_le, Qmid_lt. }
    assert (H1 : in_window (50, 1100)%Q med = false).
    { apply not_true_iff_false. rewrite in_window_iff. lra. }
    assert (H2 : in_window (5, 110)%Q med = false).
    { apply not_true_iff_false. rewrite in_window_iff. lra. }
    assert (H3 : in_window (5000, 110000)%Q med = true).
    { apply in_window_iff. lra. }
    by rewrite H1, H2, H3.
Qed.

Lemma X15_witness :
  collect_samples PRESSURE_AUTODETECT_SAMPLES (one_message [pascal_subset]) ≠ []
  ∧ Forall (fun q => (5000 <= q)%Q ∧ (q <= 110000)%Q)
      (collect_samples PRESSURE_AUTODETECT_SAMPLES (one_message [pascal_subset]))
  ∧ _autodetect_pressure_unit (one_message [pascal_subset])
      PRESSURE_AUTODETECT_SAMPLES = "pa".
Proof.
  assert (Hv : collect_samples PRESSURE_AUTODETECT_SAMPLES
                 (one_message [pascal_subset]) = [93000; 93000]%Q)
    by (vm_compute; reflexivity).
  assert (Hall : Forall (fun q => (5000 <= q)%Q ∧ (q <= 110000)%Q)
                   (collect_samples PRESSURE_AUTODETECT_SAMPLES
                      (one_message [pascal_subset]))).
  { rewrite Hv. repeat constructor; unfold Qle; cbn; lia. }
  split; [by rewrite Hv|]. split; [exact Hall|].
  apply (X15_uniform_samples_give_their_unit (one_message [pascal_subset])
           PRESSURE_AUTODETECT_SAMPLES "pa").
  - by rewrite Hv.
  - right. right. split; [reflexivity | exact Hall].
Defined.

(** X16.  The three autodetection windows are one and the same pressure
    range, 50 to 1100 hPa, written in the three units: a value lies in
    the window of a unit exactly when, multiplied by the scale factor of
    that unit, it lies between 50 and 1100. *)
Theorem X16_windows_are_one_range_in_three_units (med : Q) :
  Forall (fun uw : string * (Q * Q) =>
            in_window (snd uw) med
            = _in_range (Some (fscale (Fin med) (_pressure_scale (fst uw)))) 50 1100)
    WINDOWS.
Proof.
  assert (H : forall lo hi s,
            ((lo <= med)%Q ∧ (med <= hi)%Q ↔ (50 <= med * s)%Q ∧ (med * s <= 1100)%Q) ->
            in_window (lo, hi) med = _in_range (Some (fscale (Fin med) s)) 50 1100).
  { intros lo hi s Hiff. apply eq_true_iff_eq. rewrite in_window_iff, Hiff.
    unfold _in_range, fscale. cbn [isfinite negb fle].
    by rewrite andb_true_iff, !Qle_bool_iff. }
  unfold WINDOWS. constructor; [|constructor; [|constructor; [|constructor]]];
    cbn [fst snd]; apply H.
  - change (_pressure_scale "hpa") with 1%Q. split; intros [? ?]; split; lra.
  - change (_pressure_scale "cb") with 10%Q. split; intros [? ?]; split; lra.
  - change (_pressure_scale "pa") with (1 # 100)%Q. split; intros [? ?]; split; lra.
Qed.

(* ------------------------------------------------------------------ *)
(** ** The half-width of the time window *)

Lemma Qle_bool_trans (x y z : Q) :
  Qle_bool x y = true -> Qle_bool y z = true -> Qle_bool x z = true.
Proof. rewrite !Qle_bool_iff. apply Qle_trans. Qed.

Lemma Qle_bool_opp (x y : Q) : Qle_bool x y = true -> Qle_bool (- y) (- x) = true.
Proof. rewrite !Qle_bool_iff. apply Qopp_le_compat. Qed.

Lemma time_in_window_mono (tw tw' : pyfloat) (r : subset) :
  fle tw tw' = true -> time_in_window tw r = true -> time_in_window tw' r = true.
Proof.
  unfold time_in_window. intros Hle.
  destruct (present r "DHR"); [|done]. cbn [andb].
  rewrite !andb_true_iff. intros [H1 H2].
  destruct tw as [t| | |], tw' as [t'| | |], (flat0 (read_subset r "DHR")) as [d| | |];
    cbn in *; try done.
  split.
  - eapply Qle_bool_trans; [|exact H1]. by apply Qle_bool_opp.
  - eapply Qle_bool_trans; [exact H2 | done].
Qed.

Lemma count_where_mono (p q : subset -> bool) (l : list subset) :
  (forall r, p r = true -> q r = true) ->
  (count_where p l <= count_where q l)%nat.
Proof.
  intros Hpq. induction l as [|r l IH]; [done|].
  rewrite !count_where_cons. specialize (Hpq r).
  destruct (p r), (q r); cbn [bump]; lia.
Qed.

Lemma time_oow_counts (cfg : Config) (f : bufr_file) :
  time_oow (final (check_file cfg f)) = count_where (failed_time cfg) (all_subsets f)
  ∧ nsub (final (check_file cfg f)) = length (all_subsets f).
Proof.
  unfold check_file. cbn [final].
  destruct (main_loop_counts cfg (_pressure_scale (resolve_pressure_unit cfg f)) f)
    as (_ & _ & Ht & _ & _ & _ & _ & Hn).
  done.
Qed.

(** X17.  Widening the time window never adds an out-of-window subset:
    with a half-width at least as large, and the rest of the
    configuration unchanged, the out-of-window counter of a run on the
    same file is at most what it was. *)
Theorem X17_wider_window_fewer_failures (cfg : Config) (f : bufr_file)
    (tw tw' : pyfloat) :
  fle tw tw' = true ->
  (time_oow (final (check_file (with_twind tw' cfg) f))
   <= time_oow (final (check_file (with_twind tw cfg) f)))%nat.
Proof.
  intros Hle.
  rewrite (proj1 (time_oow_counts (with_twind tw' cfg) f)).
  rewrite (proj1 (time_oow_counts (with_twind tw cfg) f)).
  apply count_where_mono. intros r. unfold failed_time. cbn [with_twind twind_h].
  rewrite !negb_true_iff. intros H'.
  destruct (time_in_window tw r) eqn:Hin; [|done].
  by rewrite (time_in_window_mono tw tw' r Hle Hin) in H'.
Qed.

Lemma X17_witness :
  fle (Fin 3) (Fin 5) = true
  ∧ (time_oow (final (check_file (with_twind (Fin 5) default_config)
                        (one_message [late_subset])))
     <= time_oow (final (check_file (with_twind (Fin 3) default_config)
                           (one_message [late_subset]))))%nat.
Proof.
  split; [reflexivity|].
  apply (X17_wider_window_fewer_failures default_config
           (one_message [late_subset]) (Fin 3) (Fin 5)).
  reflexivity.
Defined.

Lemma time_in_window_negative (tw : pyfloat) (r : subset) :
  tw = NaN ∨ fpos (fneg tw) = true -> time_in_window tw r = false.
Proof.
  unfold time_in_window. intros Htw.
  destruct (present r "DHR"); [|done]. cbn [andb].
  apply not_true_iff_false. rewrite andb_true_iff. intros [H1 H2].
  destruct Htw as [->|Hneg]; [done|].
  destruct tw as [t| | |], (flat0 (read_subset r "DHR")) as [d| | |];
    cbn in *; try done.
  apply negb_true_iff in Hneg.
  apply Qle_bool_iff in H1, H2.
  assert (Hn : Qle_bool (- t) 0 = true) by (apply Qle_bool_iff; lra).
  congruence.
Qed.

(** X18.  With a negative half-width, or one that is not a number, no
    time offset can be inside the window: every subset of the file is
    counted out of window, whatever its DHR. *)
Theorem X18_negative_window_fails_every_subset (cfg : Config) (f : bufr_file) :
  twind_h cfg = NaN ∨ fpos (fneg (twind_h cfg)) = true ->
  time_oow (final (check_file cfg f)) = nsub (final (check_file cfg f)).
Proof.
  intros Htw. destruct (time_oow_counts cfg f) as [-> ->].
  apply count_where_all, Forall_forall. intros r _.
  unfold failed_time. by rewrite time_in_window_negative.
Qed.

Lemma X18_witness :
  (twind_h (with_twind (Fin (-1)) default_config) = NaN
   ∨ fpos (fneg (twind_h (with_twind (Fin (-1)) default_config))) = true)
  ∧ time_oow (final (check_file (with_twind (Fin (-1)) default_config)
                       (one_message [good_subset])))
    = nsub (final (check_file (with_twind (Fin (-1)) default_config)
                     (one_message [good_subset]))).
Proof.
  split; [right; reflexivity|].
  apply (X18_negative_window_fails_every_subset
           (with_twind (Fin (-1)) default_config) (one_message [good_subset])).
  right. reflexivity.
Defined.

(* ------------------------------------------------------------------ *)
(** ** The counts of one message type *)

Lemma subsets_of_type_cons (k : string) (m : message) (f : list message) :
  subsets_of_type k (m :: f)
  = (if decide (msg_type m = k) then subsets m else []) ++ subsets_of_type k f.
Proof.
  unfold subsets_of_type. rewrite filter_cons.
  by destruct (decide (msg_type m = k)).
Qed.

(** A per-type count that a subset of type [k] bumps exactly when a test
    holds counts the subsets of the messages of type [k] that satisfy
    the test. *)
Lemma run_from_per_type (cfg : Config) (pscale : Q) (I : State -> Prop)
    (c : State -> nat) (p : subset -> bool) (k : string)
    (f : bufr_file) (st : State) :
  I st ->
  (forall s mtyp, I s -> I (start_message mtyp s)) ->
  (forall s mtyp r, I s -> I (process_subset cfg pscale mtyp s r)) ->
  (forall s mtyp, I s -> c (start_message mtyp s) = c s) ->
  (forall s mtyp r, I s ->
     c (process_subset cfg pscale mtyp s r)
     = if decide (mtyp = k) then bump (p r) (c s) else c s) ->
  c (run_from cfg pscale st f)
  = (c st + count_where p (subsets_of_type k f))%nat.
Proof.
  intros Hst Istart Istep Hstart Hstep. revert st Hst.
  induction f as [|m rest IH]; intros st Hst.
  { cbn. lia. }
  unfold run_from in *. cbn [fold_left].
  assert (Hm : I (process_message cfg pscale st m)
               ∧ c (process_message cfg pscale st m)
                 = (c st + count_where p
                             (if decide (msg_type m = k) then subsets m else []))%nat).
  { unfold process_message. rewrite <- (Hstart st (msg_type m)) by done.
    specialize (Istart st (msg_type m) Hst). revert Istart.
    generalize (start_message (msg_type m) st).
    induction (subsets m) as [|r l IHl]; intros s Hs.
    - cbn [fold_left]. split; [done|]. destruct (decide _); cbn; lia.
    - cbn [fold_left]. destruct (IHl _ (Istep s (msg_type m) r Hs)) as [Hi Hc].
      split; [done|]. rewrite Hc, Hstep by done.
      destruct (decide (msg_type m = k)); [|done].
      rewrite count_where_cons. apply bump_plus. }
  destruct Hm as [Hi Hc]. rewrite IH by done.
  rewrite subsets_of_type_cons, count_where_app, Hc. lia.
Qed.

Lemma fresh_key_default (fresh : bool) (d : gmap string nat) (mtyp k : string) :
  (fresh = true -> d !! mtyp = None) ->
  default 0%nat ((if fresh then <[mtyp := 0%nat]> d else d) !! k)
  = default 0%nat (d !! k).
Proof.
  intros Hnone. destruct fresh; [|done].
  destruct (decide (mtyp = k)) as [<-|Hne].
  - by rewrite lookup_insert_eq, Hnone.
  - by rewrite lookup_insert_ne.
Qed.

Lemma counters_consistent_lookup_start (mtyp k : string) (st : State) :
  counters_consistent st ->
  Forall (fun proj : State -> gmap string nat =>
            default 0%nat (proj (start_message mtyp st) !! k)
            = default 0%nat (proj st !! k))
    [ per_type_total; per_type_approved; per_type_bad_hdr; per_type_no_events;
      per_type_time_oow; per_type_bad_units; per_type_miss_oberrs;
      per_type_miss_adpsfc ].
Proof.
  intros (_ & _ & _ & _ & _ & _ & _ & Hk).
  assert (Hd : bool_decide (per_type_total st !! mtyp = None) = true ->
               per_type_total st !! mtyp = None
               ∧ Forall (fun d => d !! mtyp = None) (per_type_dicts st)).
  { intros Hfresh%bool_decide_eq_true. auto. }
  unfold per_type_dicts in Hd.
  repeat apply Forall_cons_2; [..|apply Forall_nil_2];
    unfold start_message;
    cbn [per_type_total per_type_approved per_type_bad_hdr per_type_no_events
         per_type_time_oow per_type_bad_units per_type_miss_oberrs
         per_type_miss_adpsfc];
    apply fresh_key_default; intros Hf; destruct (Hd Hf) as [Ht Hall];
    split_Forall; done.
Qed.

(** X19.  For every message type, the per-type total is the number of
    subsets carried by the messages of that type, wherever they stand in
    the file, and the per-type approved and failure counts are the
    numbers of those subsets that pass every applicable check, or fail
    the check in question. *)
Theorem X19_per_type_counts (cfg : Config) (f : bufr_file) (k : string) :
  let res := check_file cfg f in
  let pscale := _pressure_scale (pressure_unit_used res) in
  let row := csv_row (final res) k in
  let of_type := subsets_of_type k f in
  c_total row = length of_type
  ∧ c_approved row = count_where (approved_by_applicable_checks cfg pscale) of_type
  ∧ c_bad_hdr row = count_where failed_header of_type
  ∧ c_no_events row = count_where failed_events of_type
  ∧ c_time_oow row = count_where (failed_time cfg) of_type
  ∧ c_bad_units row = count_where (failed_units pscale) of_type
  ∧ c_missing_oberrs row = count_where (failed_oberrs cfg) of_type
  ∧ c_missing_adpsfc_fields row = count_where (failed_adpsfc cfg pscale) of_type.
Proof.
  cbn zeta. unfold check_file. cbn [final pressure_unit_used].
  rewrite main_loop_run_from. set (pscale := _pressure_scale _).
  unfold csv_row.
  cbn [c_total c_approved c_bad_hdr c_no_events c_time_oow c_bad_units
       c_missing_oberrs c_missing_adpsfc_fields].
  assert (Hgen : forall (proj : State -> gmap string nat) (p : subset -> bool),
            proj init_state = ∅ ->
            (forall s mtyp, counters_consistent s ->
               default 0%nat (proj (start_message mtyp s) !! k)
               = default 0%nat (proj s !! k)) ->
            (forall s mtyp r,
               proj (process_subset cfg pscale mtyp s r)
               = inc_if (p r) (proj s) mtyp) ->
            default 0%nat (proj (run_from cfg pscale init_state f) !! k)
            = count_where p (subsets_of_type k f)).
  { intros proj p Hinit Hstart Hstep.
    rewrite (run_from_per_type cfg pscale counters_consistent
               (fun s => default 0%nat (proj s !! k)) p k).
    - by rewrite Hinit, lookup_empty.
    - apply counters_consistent_init.
    - intros s mtyp. apply counters_consistent_start.
    - intros s mtyp r. apply counters_consistent_subset.
    - done.
    - intros s mtyp r _. by rewrite Hstep, lookup_inc_if_default. }
  assert (Hst : forall s mtyp, counters_consistent s ->
            Forall (fun proj : State -> gmap string nat =>
                      default 0%nat (proj (start_message mtyp s) !! k)
                      = default 0%nat (proj s !! k))
              [ per_type_total; per_type_approved; per_type_bad_hdr;
                per_type_no_events; per_type_time_oow; per_type_bad_units;
                per_type_miss_oberrs; per_type_miss_adpsfc ]).
  { intros s mtyp Hs. by apply counters_consistent_lookup_start. }
  repeat split.
  - rewrite <- count_where_true.
    apply (Hgen per_type_total (fun _ => true)); [done| |done].
    intros s mtyp Hs. specialize (Hst s mtyp Hs). by split_Forall.
  - apply (Hgen per_type_approved); [done| |].
    + intros s mtyp Hs. specialize (Hst s mtyp Hs). by split_Forall.
    + intros s mtyp r. rewrite process_subset_per_type_approved.
      by rewrite approved_flags_spec.
  - apply (Hgen per_type_bad_hdr); [done| |intros; apply process_subset_per_type_bad_hdr].
    intros s mtyp Hs. specialize (Hst s mtyp Hs). by split_Forall.
  - apply (Hgen per_type_no_events); [done| |intros; apply process_subset_per_type_no_events].
    intros s mtyp Hs. specialize (Hst s mtyp Hs). by split_Forall.
  - apply (Hgen per_type_time_oow); [done| |intros; apply process_subset_per_type_time_oow].
    intros s mtyp Hs. specialize (Hst s mtyp Hs). by split_Forall.
  - apply (Hgen per_type_bad_units); [done| |intros; apply process_subset_per_type_bad_units].
    intros s mtyp Hs. specialize (Hst s mtyp Hs). by split_Forall.
  - apply (Hgen per_type_miss_oberrs); [done| |intros; apply process_subset_per_type_miss_oberrs].
    intros s mtyp Hs. specialize (Hst s mtyp Hs). by split_Forall.
  - apply (Hgen per_type_miss_adpsfc); [done| |intros; apply process_subset_per_type_miss_adpsfc].
    intros s mtyp Hs. specialize (Hst s mtyp Hs). by split_Forall.
Qed.
